(** * Origami: journal access control, content cipher and entry store

    A shallow embedding of the password guard ([ui/profile_ui.py]),
    the XOR content cipher ([utils/encryption.py]), the settings table
    ([database/db.py]), the journal entry model ([database/models.py])
    and the journal page's save and search logic ([ui/journal_ui.py]),
    with the properties of the design specification stated on it. *)

From Stdlib Require Import ZArith List String Ascii Bool Lia.
From Stdlib Require Import DecimalString DecimalZ DecimalPos DecimalN.
From Stdlib Require Import QArith Qround Lqa.
From stdpp Require Import gmap strings sorting.
Import ListNotations.

Local Open Scope Z_scope.

(** ** Python values shared by all modules *)

Module Py.

(** The exceptions the modelled code can raise. [Wrapped msg e] is
    [Exception(f"msg: {str(e)}")] raised from an [except] clause. *)
Inductive exn : Type :=
| UnicodeEncodeError
| UnicodeDecodeError
| ZeroDivisionError
| IndexError
| ValueError
| Wrapped (msg : string) (cause : exn).

Inductive result (A : Type) : Type :=
| Ok (a : A)
| Raise (e : exn).
Arguments Ok {A} a.
Arguments Raise {A} e.

Definition bind {A B} (m : result A) (k : A -> result B) : result B :=
  match m with
  | Ok a => k a
  | Raise e => Raise e
  end.

(** [try: m except Exception as e: raise Exception(f"msg: {e}")] *)
Definition reraise {A} (msg : string) (m : result A) : result A :=
  match m with
  | Ok a => Ok a
  | Raise e => Raise (Wrapped msg e)
  end.

(** A Python [str] is its sequence of code points; [bytes] is a sequence
    of integers in [0, 256). *)
Definition pystr : Type := list Z.
Definition bytes : Type := list Z.

Definition code (a : ascii) : Z := Z.of_N (N_of_ascii a).

(** The code points of an ASCII literal of the source. *)
Fixpoint lit (s : string) : pystr :=
  match s with
  | EmptyString => []
  | String a r => code a :: lit r
  end.

End Py.

Import Py.

Notation "'let*' x ':=' m 'in' k" := (Py.bind m (fun x => k))
  (at level 10, x name, m at level 100, k at level 200).

(** ** The UTF-8 codec behind [str.encode('utf-8')] and
    [bytes.decode('utf-8')] (strict error handling) *)

Module Utf8.

Definition is_surrogate (c : Z) : bool := (55296 <=? c) && (c <=? 57343).

(** Unicode scalar values: what a [str] must hold to be encodable. *)
Definition is_scalar (c : Z) : bool :=
  (0 <=? c) && (c <=? 1114111) && negb (is_surrogate c).

Definition valid (s : pystr) : Prop := Forall (fun c => is_scalar c = true) s.

Definition encode_char (c : Z) : result bytes :=
  if negb (is_scalar c) then Raise UnicodeEncodeError
  else if c <? 128 then Ok [c]
  else if c <? 2048 then Ok [192 + c / 64; 128 + c mod 64]
  else if c <? 65536 then
    Ok [224 + c / 4096; 128 + (c / 64) mod 64; 128 + c mod 64]
  else
    Ok [240 + c / 262144; 128 + (c / 4096) mod 64;
        128 + (c / 64) mod 64; 128 + c mod 64].

Fixpoint encode (s : pystr) : result bytes :=
  match s with
  | [] => Ok []
  | c :: r =>
      let* bs := encode_char c in
      let* rest := encode r in
      Ok (bs ++ rest)
  end.

Definition is_cont (b : Z) : bool := (128 <=? b) && (b <=? 191).

(** Strict decoding: over-long forms, surrogates, values above U+10FFFF,
    stray continuation bytes and truncated sequences are all rejected. *)
Fixpoint decode (bs : bytes) : result pystr :=
  match bs with
  | [] => Ok []
  | b0 :: r0 =>
      if (0 <=? b0) && (b0 <? 128) then
        let* s := decode r0 in Ok (b0 :: s)
      else if (192 <=? b0) && (b0 <? 224) then
        match r0 with
        | b1 :: r1 =>
            let c := (b0 - 192) * 64 + (b1 - 128) in
            if is_cont b1 && (128 <=? c) then
              let* s := decode r1 in Ok (c :: s)
            else Raise UnicodeDecodeError
        | _ => Raise UnicodeDecodeError
        end
      else if (224 <=? b0) && (b0 <? 240) then
        match r0 with
        | b1 :: b2 :: r2 =>
            let c := (b0 - 224) * 4096 + (b1 - 128) * 64 + (b2 - 128) in
            if is_cont b1 && is_cont b2 && (2048 <=? c)
               && negb (is_surrogate c) then
              let* s := decode r2 in Ok (c :: s)
            else Raise UnicodeDecodeError
        | _ => Raise UnicodeDecodeError
        end
      else if (240 <=? b0) && (b0 <? 248) then
        match r0 with
        | b1 :: b2 :: b3 :: r3 =>
            let c := (b0 - 240) * 262144 + (b1 - 128) * 4096
                     + (b2 - 128) * 64 + (b3 - 128) in
            if is_cont b1 && is_cont b2 && is_cont b3
               && (65536 <=? c) && (c <=? 1114111) then
              let* s := decode r3 in Ok (c :: s)
            else Raise UnicodeDecodeError
        | _ => Raise UnicodeDecodeError
        end
      else Raise UnicodeDecodeError
  end.

End Utf8.

(** ** [utils/encryption.py] *)

Module Encryption.

(** [password_bytes[i % len(password_bytes)]] *)
Definition key_at (key : bytes) (i : nat) : result Z :=
  match length key with
  | O => Raise ZeroDivisionError
  | n =>
      match nth_error key (i mod n)%nat with
      | Some k => Ok k
      | None => Raise IndexError
      end
  end.

(** The body of [for i, byte in enumerate(data): out.append(byte ^ key[i % len(key)])],
    entered at index [i]. *)
Fixpoint xor_from (i : nat) (data key : bytes) : result bytes :=
  match data with
  | [] => Ok []
  | b :: rest =>
      let* k := key_at key i in
      let* out := xor_from (S i) rest key in
      Ok (Z.lxor b k :: out)
  end.

Definition simple_salt : bytes := lit "simple_salt".

Definition simple_encrypt (text password : pystr) : result (bytes * bytes) :=
  reraise "Encryption failed"
    (let* password_bytes := Utf8.encode password in
     let* text_bytes := Utf8.encode text in
     let* encrypted := xor_from 0 text_bytes password_bytes in
     Ok (encrypted, simple_salt)).

Definition simple_decrypt (encrypted_data : bytes) (password : pystr)
    (salt : option bytes) : result pystr :=
  reraise "Decryption failed"
    (let* password_bytes := Utf8.encode password in
     let* decrypted := xor_from 0 encrypted_data password_bytes in
     Utf8.decode decrypted).

Definition encrypt_text (text password : pystr) : result (bytes * bytes) :=
  simple_encrypt text password.

Definition decrypt_text (encrypted_data : bytes) (password : pystr)
    (salt : bytes) : result pystr :=
  simple_decrypt encrypted_data password (Some salt).

Definition master_password : pystr := lit "default_master_key_2024".

Definition encrypt_with_master_key (text : pystr) : result bytes :=
  reraise "Master key encryption failed"
    (let* pair := simple_encrypt text master_password in
     Ok (fst pair)).

Definition decrypt_with_master_key (encrypted_data : bytes) : result pystr :=
  reraise "Master key decryption failed"
    (simple_decrypt encrypted_data master_password None).

(** Truthiness of [bytes], [str] and of an optional argument. *)
Definition truthy {A} (l : list A) : bool :=
  match l with [] => false | _ => true end.

Definition truthy_opt {A} (o : option (list A)) : bool :=
  match o with Some l => truthy l | None => false end.

Definition encrypt_journal_entry (content : pystr) (use_password : bool)
    (password : option pystr) : result (bytes * option bytes) :=
  match password with
  | Some pw =>
      if use_password && truthy pw then
        let* pair := encrypt_text content pw in Ok (fst pair, Some (snd pair))
      else
        let* data := encrypt_with_master_key content in Ok (data, None)
  | None =>
      let* data := encrypt_with_master_key content in Ok (data, None)
  end.

Definition decrypt_journal_entry (encrypted_data : bytes)
    (salt : option bytes) (password : option pystr) : result pystr :=
  match salt, password with
  | Some sl, Some pw =>
      if truthy sl && truthy pw then decrypt_text encrypted_data pw sl
      else decrypt_with_master_key encrypted_data
  | _, _ => decrypt_with_master_key encrypted_data
  end.

Definition is_encryption_available : bool :=
  match encrypt_with_master_key (lit "test") with
  | Ok encrypted =>
      match decrypt_with_master_key encrypted with
      | Ok decrypted => bool_decide (decrypted = lit "test")
      | Raise _ => false
      end
  | Raise _ => false
  end.

End Encryption.

(** ** [database/db.py]: the [app_settings] table *)

Module Settings.

(** [SELECT value FROM app_settings WHERE key = ?], or the default when
    no row has the key. *)
Definition get_setting (tbl : gmap string string) (key default : string)
    : string :=
  match tbl !! key with
  | Some value => value
  | None => default
  end.

(** [INSERT OR REPLACE INTO app_settings (key, value, updated_at)];
    the row's [updated_at] is never read and is left out. *)
Definition set_setting (tbl : gmap string string) (key value : string)
    : gmap string string :=
  <[key := value]> tbl.

(** The journal rows written by [set_default_settings] ([INSERT OR
    IGNORE]: a key already present keeps its value). *)
Definition insert_or_ignore (key value : string) (tbl : gmap string string)
    : gmap string string :=
  match tbl !! key with
  | Some _ => tbl
  | None => <[key := value]> tbl
  end.

Definition set_default_journal_settings (tbl : gmap string string)
    : gmap string string :=
  insert_or_ignore "journal_lockout_time" "0"
    (insert_or_ignore "journal_password_enabled" "false"
       (insert_or_ignore "journal_password_hash" "" tbl)).

End Settings.

(** ** [ui/profile_ui.py]: [PasswordManager] *)

Module PasswordManager.

(** A Python float, as the manager meets one: a reading of
    [time.time()], or what [float] makes of a settings text. It is kept
    exactly, as a decimal numeral: a sign, the whole part, and the digits
    after the point, of which there is at least one ([tenths]; 5.0 has
    the one digit 0). The rounding of binary doubles is not modelled, and
    a numeral with needless zeros at its end is a float like any other. *)
Inductive digit : Type := d0 | d1 | d2 | d3 | d4 | d5 | d6 | d7 | d8 | d9.

Record pyfloat : Type := mkFloat {
  negative : bool;
  whole : N;
  tenths : digit;
  rest : Decimal.uint
}.

Definition push (d : digit) (u : Decimal.uint) : Decimal.uint :=
  match d with
  | d0 => Decimal.D0 u | d1 => Decimal.D1 u | d2 => Decimal.D2 u
  | d3 => Decimal.D3 u | d4 => Decimal.D4 u | d5 => Decimal.D5 u
  | d6 => Decimal.D6 u | d7 => Decimal.D7 u | d8 => Decimal.D8 u
  | d9 => Decimal.D9 u
  end.

(** The first digit and the others; no digit at all counts as the one
    digit 0. *)
Definition pop (u : Decimal.uint) : digit * Decimal.uint :=
  match u with
  | Decimal.Nil => (d0, Decimal.Nil)
  | Decimal.D0 u => (d0, u) | Decimal.D1 u => (d1, u)
  | Decimal.D2 u => (d2, u) | Decimal.D3 u => (d3, u)
  | Decimal.D4 u => (d4, u) | Decimal.D5 u => (d5, u)
  | Decimal.D6 u => (d6, u) | Decimal.D7 u => (d7, u)
  | Decimal.D8 u => (d8, u) | Decimal.D9 u => (d9, u)
  end.

(** The digits after the point, the first one first. *)
Definition fraction (x : pyfloat) : Decimal.uint := push (tenths x) (rest x).

Fixpoint pow10 (n : nat) : positive :=
  match n with
  | O => 1%positive
  | S n => (10 * pow10 n)%positive
  end.

(** The number a float stands for, in seconds. *)
Definition seconds (x : pyfloat) : Q :=
  let k := Decimal.nb_digits (fraction x) in
  let m := Z.of_N (whole x) * Z.pos (pow10 k)
           + Z.of_N (N.of_uint (fraction x)) in
  (if negative x then - m else m) # pow10 k.

(** [str(t)]: the numeral with its point, as in '1000.5' and '1000.0',
    which is how Python writes a clock reading (the exponent notation it
    uses for very large and very small floats is not modelled). *)
Definition str_of_time (x : pyfloat) : string :=
  ((if negative x then "-" else "") ++
   NilZero.string_of_uint (N.to_uint (whole x)) ++ "." ++
   NilEmpty.string_of_uint (fraction x))%string.

(** The text before the first point, and the text after it when there
    is a point. *)
Fixpoint split_point (s : string) : string * option string :=
  match s with
  | EmptyString => (EmptyString, None)
  | String c s' =>
      if Ascii.eqb c "." then (EmptyString, Some s')
      else (String c (fst (split_point s')), snd (split_point s'))
  end.

Definition unsigned_float (neg : bool) (s : string) : result pyfloat :=
  let digits := split_point s in
  match NilZero.uint_of_string (fst digits),
        match snd digits with
        | Some f => NilEmpty.uint_of_string f
        | None => Some Decimal.Nil
        end with
  | Some w, Some f =>
      Ok {| negative := neg; whole := N.of_uint w;
            tenths := fst (pop f); rest := snd (pop f) |}
  | _, _ => Raise ValueError
  end.

(** [float(s)] on a decimal numeral: an optional minus sign, at least one
    digit, and optionally a point and more digits ('0', '1000.5', '7.',
    '-3.25'). Every other text makes [float] raise [ValueError]; that is
    also the answer here for the texts Python accepts beyond these
    numerals (a plus sign, exponents, underscores between digits, 'inf',
    'nan', surrounding blanks, a numeral that starts with its point),
    none of which the manager ever writes. *)
Definition float (s : string) : result pyfloat :=
  match s with
  | String c s' =>
      if Ascii.eqb c "-" then unsigned_float true s'
      else unsigned_float false s
  | EmptyString => Raise ValueError
  end.

(** The texts made of decimal digits only. *)
Definition is_digit (c : ascii) : bool :=
  (48 <=? N_of_ascii c)%N && (N_of_ascii c <=? 57)%N.

Fixpoint all_digits (s : string) : bool :=
  match s with
  | EmptyString => true
  | String c s' => is_digit c && all_digits s'
  end.

(** [int(x)] on a float: the fractional part is cut off, towards zero. *)
Definition int (x : Q) : Z := Z.quot (Qnum x) (Z.pos (Qden x)).

(** The clock half a second after its [n]-th second, as [time.time()]
    returns it: the float [n.5]. *)
Definition reading (n : N) : pyfloat :=
  {| negative := false; whole := n; tenths := d5; rest := Decimal.Nil |}.

(** The attributes of a [PasswordManager] ([encryption_manager] holds no
    state and is never used by the methods below). [last_attempt_time]
    starts as the number 0 and later holds clock readings. *)
Record t : Type := mk {
  failed_attempts : Z;
  last_attempt_time : pyfloat;
  lockout_duration : Z
}.

(** [PasswordManager.__init__] *)
Definition init : t :=
  {| failed_attempts := 0;
     last_attempt_time :=
       {| negative := false; whole := 0; tenths := d0;
          rest := Decimal.Nil |};
     lockout_duration := 60 |}.

(** What a method can read and write: the object and the settings
    table it shares with every other manager. *)
Record world : Type := mkWorld {
  self : t;
  tbl : gmap string string
}.

(** A method call: it ends with a value or an exception, and in both
    cases leaves a world behind. *)
Definition M (A : Type) : Type := world -> result A * world.

Definition ret {A} (a : A) : M A := fun w => (Ok a, w).

Definition raise {A} (e : exn) : M A := fun w => (Raise e, w).

Definition bind {A B} (m : M A) (k : A -> M B) : M B :=
  fun w =>
    match m w with
    | (Ok a, w') => k a w'
    | (Raise e, w') => (Raise e, w')
    end.

Definition lift {A} (r : result A) : M A := fun w => (r, w).

Definition get_self : M t := fun w => (Ok (self w), w).

Definition set_self (s : t) : M unit :=
  fun w => (Ok tt, {| self := s; tbl := tbl w |}).

Definition get_setting (key default : string) : M string :=
  fun w => (Ok (Settings.get_setting (tbl w) key default), w).

Definition set_setting (key value : string) : M unit :=
  fun w => (Ok tt, {| self := self w;
                      tbl := Settings.set_setting (tbl w) key value |}).

(** [try: m except: return v] *)
Definition try_except {A} (m : M A) (v : A) : M A :=
  fun w =>
    match m w with
    | (Ok a, w') => (Ok a, w')
    | (Raise _, w') => (Ok v, w')
    end.

Declare Scope pm_scope.
Delimit Scope pm_scope with pm.
Notation "x <- m ;; k" := (bind m (fun x => k))
  (at level 100, m at next level, right associativity) : pm_scope.
Notation "m ;; k" := (bind m (fun _ => k))
  (at level 100, right associativity) : pm_scope.
Local Open Scope pm_scope.

Section Methods.

(** [hashlib.sha256(b).hexdigest()] *)
Variable sha256_hex : bytes -> string.

Definition hash_password (password : pystr) : result string :=
  let* b := Utf8.encode password in Ok (sha256_hex b).

Definition reset_failed_attempts : M unit :=
  s <- get_self ;;
  set_self {| failed_attempts := 0;
              last_attempt_time := last_attempt_time s;
              lockout_duration := lockout_duration s |} ;;
  set_setting "journal_lockout_time" "0".

Definition set_password (password : pystr) : M bool :=
  try_except
    (h <- lift (hash_password password) ;;
     set_setting "journal_password_hash" h ;;
     set_setting "journal_password_enabled" "true" ;;
     reset_failed_attempts ;;
     ret true)
    false.

(** [now] is the reading of [time.time()]. *)
Definition is_locked (now : pyfloat) : M bool :=
  s <- get_self ;;
  if failed_attempts s <? 5 then ret false
  else
    v <- get_setting "journal_lockout_time" "0" ;;
    lockout_time <- lift (float v) ;;
    if Qle_bool (inject_Z (lockout_duration s))
                (seconds now - seconds lockout_time) then
      reset_failed_attempts ;; ret false
    else ret true.

(** [t_lock] is the clock reading inside [is_locked], [t_fail] the later
    one stored in [last_attempt_time] on a mismatch. *)
Definition verify_password (t_lock t_fail : pyfloat) (password : pystr)
    : M bool :=
  locked <- is_locked t_lock ;;
  if locked then ret false
  else
    stored_hash <- get_setting "journal_password_hash" "" ;;
    if String.eqb stored_hash "" then ret true
    else
      h <- lift (hash_password password) ;;
      let is_correct := String.eqb h stored_hash in
      (if negb is_correct then
         s <- get_self ;;
         let s' := {| failed_attempts := failed_attempts s + 1;
                      last_attempt_time := t_fail;
                      lockout_duration := lockout_duration s |} in
         set_self s' ;;
         if 5 <=? failed_attempts s' then
           set_setting "journal_lockout_time"
             (str_of_time (last_attempt_time s'))
         else ret tt
       else reset_failed_attempts) ;;
      ret is_correct.

Definition change_password (t_lock t_fail : pyfloat)
    (current_password new_password : pystr) : M bool :=
  ok <- verify_password t_lock t_fail current_password ;;
  if negb ok then ret false else set_password new_password.

Definition remove_password (t_lock t_fail : pyfloat)
    (current_password : pystr)
    : M bool :=
  ok <- verify_password t_lock t_fail current_password ;;
  if negb ok then ret false
  else
    set_setting "journal_password_hash" "" ;;
    set_setting "journal_password_enabled" "false" ;;
    reset_failed_attempts ;;
    ret true.

Definition has_password : M bool :=
  h <- get_setting "journal_password_hash" "" ;;
  if String.eqb h "" then ret false
  else
    e <- get_setting "journal_password_enabled" "false" ;;
    ret (String.eqb e "true").

(** [now] is read inside [is_locked], [now'] in the countdown. *)
Definition get_lockout_remaining (now now' : pyfloat) : M Z :=
  locked <- is_locked now ;;
  if negb locked then ret 0
  else
    s <- get_self ;;
    v <- get_setting "journal_lockout_time" "0" ;;
    lockout_time <- lift (float v) ;;
    ret (Z.max 0 (int (inject_Z (lockout_duration s)
                       - (seconds now' - seconds lockout_time)))).

(** A password is wrong for a stored hash when its digest is another
    string. *)
Definition wrong (stored : string) (password : pystr) : Prop :=
  exists h, hash_password password = Ok h /\ h <> stored.

(** The calls a client can make on a manager, and the worlds they lead to
    from a freshly constructed one. *)
Inductive call : Type :=
| SetPassword (password : pystr)
| VerifyPassword (t_lock t_fail : pyfloat) (password : pystr)
| ChangePassword (t_lock t_fail : pyfloat)
    (current_password new_password : pystr)
| RemovePassword (t_lock t_fail : pyfloat) (current_password : pystr)
| HasPassword
| IsLocked (now : pyfloat)
| GetLockoutRemaining (now now' : pyfloat).

Definition exec (c : call) (w : world) : world :=
  match c with
  | SetPassword p => snd (set_password p w)
  | VerifyPassword t1 t2 p => snd (verify_password t1 t2 p w)
  | ChangePassword t1 t2 p q => snd (change_password t1 t2 p q w)
  | RemovePassword t1 t2 p => snd (remove_password t1 t2 p w)
  | HasPassword => snd (has_password w)
  | IsLocked now => snd (is_locked now w)
  | GetLockoutRemaining now now' => snd (get_lockout_remaining now now' w)
  end.

Inductive reachable : world -> Prop :=
| reach_init (settings : gmap string string) :
    reachable {| self := init; tbl := settings |}
| reach_call (c : call) (w : world) :
    reachable w -> reachable (exec c w).

(** [verify_password] called once per entry of [attempts], in order;
    the results of the calls are collected. *)
Fixpoint verify_each (attempts : list (pyfloat * pyfloat * pystr))
    : M (list bool) :=
  match attempts with
  | [] => ret []
  | (t_lock, t_fail, password) :: rest =>
      b <- verify_password t_lock t_fail password ;;
      bs <- verify_each rest ;;
      ret (b :: bs)
  end.

End Methods.

(** A restart of the application: a new manager over the settings the old
    one left in the table. *)
Definition restart (w : world) : world :=
  {| self := init; tbl := tbl w |}.

(** A stand-in digest for worked examples (the decimal sum of the
    bytes), and a settings table holding the digest of "abc123". *)
Definition checksum_hex (b : bytes) : string :=
  NilZero.string_of_int (Z.to_int (fold_right Z.add 0 b)).

Definition example_settings : gmap string string :=
  Settings.set_setting
    (Settings.set_setting
       (Settings.set_default_journal_settings ∅)
       "journal_password_hash" (checksum_hex (lit "abc123")))
    "journal_password_enabled" "true".

(** The world five failures at 1000.5 leave behind them. *)
Definition locked_example : world :=
  {| self := {| failed_attempts := 5;
                last_attempt_time := reading 1000;
                lockout_duration := 60 |};
     tbl := <["journal_lockout_time" := "1000.5"]> example_settings |}.

(** The same world with [journal_password_enabled] overwritten. *)
Definition with_enabled (v : string) (w : world) : world :=
  {| self := self w;
     tbl := Settings.set_setting (tbl w) "journal_password_enabled" v |}.

(** A method is blind to the flag when running it after a write to
    [journal_password_enabled] gives the same result, and the same world
    up to that write, as running it before. *)
Definition flag_blind {A} (m : M A) : Prop :=
  forall v w, m (with_enabled v w) = (fst (m w), with_enabled v (snd (m w))).

(** The counter can reach five only while a hash is stored. *)
Definition counter_needs_hash (w : world) : Prop :=
  Settings.get_setting (tbl w) "journal_password_hash" "" = "" ->
  failed_attempts (self w) < 5.

End PasswordManager.

(** ** [database/models.py]: [JournalEntry], and the journal page of
    [ui/journal_ui.py] *)

Module Journal.

(** [datetime.date] and [datetime.datetime]. *)
Record date : Type := mkDate { year : Z; month : Z; day : Z }.

Record datetime : Type := mkDatetime {
  dt_date : date;
  hour : Z;
  minute : Z;
  second : Z;
  microsecond : Z
}.

Definition date_eqb (a b : date) : bool :=
  (year a =? year b) && (month a =? month b) && (day a =? day b).

(** [datetime.combine(d, datetime.min.time())] *)
Definition combine_min (d : date) : datetime :=
  {| dt_date := d; hour := 0; minute := 0; second := 0; microsecond := 0 |}.

(** The table keeps timestamps as ISO 8601 text and sorts on that text;
    with every field inside its calendar range the text of one timestamp
    precedes that of another exactly when this number is smaller. *)
Definition ordinal (t : datetime) : Z :=
  (((((year (dt_date t) * 13 + month (dt_date t)) * 32 + day (dt_date t)) * 24
      + hour t) * 60 + minute t) * 60 + second t) * 1000000 + microsecond t.

(** [strftime] for the two formats the page uses. *)
Definition digits (n : Z) : pystr := lit (NilZero.string_of_int (Z.to_int n)).

Definition two_digits (n : Z) : pystr :=
  if n <? 10 then code "0" :: digits n else digits n.

Definition month_name (m : Z) : pystr :=
  nth (Z.to_nat (m - 1))
    [lit "January"; lit "February"; lit "March"; lit "April"; lit "May";
     lit "June"; lit "July"; lit "August"; lit "September"; lit "October";
     lit "November"; lit "December"] [].

(** ["%Y-%m-%d"] *)
Definition strftime_ymd (d : date) : pystr :=
  digits (year d) ++ lit "-" ++ two_digits (month d) ++ lit "-"
    ++ two_digits (day d).

(** ["%B %d, %Y"] *)
Definition strftime_long (d : date) : pystr :=
  month_name (month d) ++ lit " " ++ two_digits (day d) ++ lit ", "
    ++ digits (year d).

(** [str.isspace] on one character, [str.strip] and the [in] test on
    strings. *)
Definition is_space (c : Z) : bool :=
  ((9 <=? c) && (c <=? 13)) || ((28 <=? c) && (c <=? 32))
  || (c =? 133) || (c =? 160) || (c =? 5760)
  || ((8192 <=? c) && (c <=? 8202))
  || (c =? 8232) || (c =? 8233) || (c =? 8239) || (c =? 8287)
  || (c =? 12288).

Fixpoint lstrip (s : pystr) : pystr :=
  match s with
  | [] => []
  | c :: r => if is_space c then lstrip r else s
  end.

Definition strip (s : pystr) : pystr := rev (lstrip (rev (lstrip s))).

Fixpoint is_prefix (p s : pystr) : bool :=
  match p, s with
  | [], _ => true
  | _ :: _, [] => false
  | a :: p', b :: s' => (a =? b) && is_prefix p' s'
  end.

(** [needle in hay] *)
Fixpoint contains (needle hay : pystr) : bool :=
  is_prefix needle hay ||
  match hay with
  | [] => false
  | _ :: r => contains needle r
  end.

(** [needle] occurs somewhere in [hay]. *)
Definition occurs_in (needle hay : pystr) : Prop :=
  exists pre post, hay = pre ++ needle ++ post.

(** A row of [journal_entries]. *)
Record row : Type := mkRow {
  row_id : Z;
  row_title : pystr;
  row_content : pystr;
  row_encrypted_content : option bytes;
  row_is_encrypted : bool;
  row_mood_rating : option Z;
  row_created_at : datetime;
  row_updated_at : datetime
}.

(** The table, with the largest id [AUTOINCREMENT] has handed out. *)
Record table : Type := mkTable {
  journal_entries : list row;
  sequence : Z
}.

(** A [JournalEntry] object. *)
Record JournalEntry : Type := mkEntry {
  id : option Z;
  title : pystr;
  content : pystr;
  encrypted_content : option bytes;
  is_encrypted : bool;
  mood_rating : Z;
  created_at : datetime;
  updated_at : datetime
}.

(** The object the query methods build from a fetched row. *)
Definition of_row (r : row) : JournalEntry :=
  {| id := Some (row_id r);
     title := row_title r;
     content := row_content r;
     encrypted_content := row_encrypted_content r;
     is_encrypted := row_is_encrypted r;
     mood_rating := match row_mood_rating r with Some m => m | None => 3 end;
     created_at := row_created_at r;
     updated_at := row_updated_at r |}.

(** [ORDER BY created_at DESC] *)
Definition newer_first (r1 r2 : row) : Prop :=
  ordinal (row_created_at r2) <= ordinal (row_created_at r1).

#[global] Instance newer_first_dec : RelDecision newer_first :=
  fun r1 r2 => Z_le_dec (ordinal (row_created_at r2))
                        (ordinal (row_created_at r1)).

(** [JournalEntry.get_all] *)
Definition get_all (db : table) : list JournalEntry :=
  map of_row (merge_sort newer_first (journal_entries db)).

(** [if not self.id] *)
Definition id_truthy (i : option Z) : bool :=
  match i with
  | Some n => negb (n =? 0)
  | None => false
  end.

Definition supplied {A} (o : option A) : bool :=
  match o with Some _ => true | None => false end.

Definition or_keep {A} (o : option A) (old : A) : A :=
  match o with Some v => v | None => old end.

(** The [UPDATE ... SET ... WHERE id = ?] that [JournalEntry.update]
    assembles from the supplied fields. *)
Definition patch_row (i : Z) (new_title new_content : option pystr)
    (new_mood : option Z) (now : datetime) (r : row) : row :=
  if row_id r =? i then
    {| row_id := row_id r;
       row_title := or_keep new_title (row_title r);
       row_content := or_keep new_content (row_content r);
       row_encrypted_content := row_encrypted_content r;
       row_is_encrypted := row_is_encrypted r;
       row_mood_rating :=
         match new_mood with Some m => Some m | None => row_mood_rating r end;
       row_created_at := row_created_at r;
       row_updated_at := now |}
  else r.

(** [JournalEntry.update]; [now] and [now'] are the two readings of
    [datetime.now()], the first bound to the statement and the second
    stored in the object. *)
Definition update (self : JournalEntry) (new_title new_content : option pystr)
    (new_mood : option Z) (now now' : datetime) (db : table)
    : JournalEntry * table :=
  match id self with
  | Some i =>
      if negb (id_truthy (id self)) then (self, db)
      else
        let self1 :=
          {| id := id self;
             title := or_keep new_title (title self);
             content := or_keep new_content (content self);
             encrypted_content := encrypted_content self;
             is_encrypted := is_encrypted self;
             mood_rating := or_keep new_mood (mood_rating self);
             created_at := created_at self;
             updated_at := updated_at self |} in
        if supplied new_title || supplied new_content || supplied new_mood
        then
          ({| id := id self1;
              title := title self1;
              content := content self1;
              encrypted_content := encrypted_content self1;
              is_encrypted := is_encrypted self1;
              mood_rating := mood_rating self1;
              created_at := created_at self1;
              updated_at := now' |},
           {| journal_entries :=
                map (patch_row i new_title new_content new_mood now)
                    (journal_entries db);
              sequence := sequence db |})
        else (self1, db)
  | None => (self, db)
  end.

(** [JournalEntry.delete] *)
Definition delete (self : JournalEntry) (db : table) : table :=
  match id self with
  | Some i =>
      if id_truthy (id self) then
        {| journal_entries :=
             filter (fun r => row_id r ≠ i) (journal_entries db);
           sequence := sequence db |}
      else db
  | None => db
  end.

(** The state of the journal page that the modelled methods read. *)
Record widget : Type := mkWidget {
  is_authenticated : bool;
  current_entry_date : option date;
  search_query : pystr;
  entry_text : pystr
}.

(** What [show_save_feedback] is called with: "Entry cannot be empty",
    "Entry saved successfully" or "Error saving entry". *)
Inductive feedback : Type :=
| EntryCannotBeEmpty
| EntrySavedSuccessfully
| ErrorSavingEntry.

(** [get_entry_for_date]: the first entry of [get_all] dated
    [entry_date]. *)
Definition get_entry_for_date (entry_date : date) (db : table)
    : option JournalEntry :=
  List.find (fun entry => date_eqb (dt_date (created_at entry)) entry_date)
            (get_all db).

(** [update_existing_entry] *)
Definition update_existing_entry (entry : JournalEntry) (new_content : pystr)
    (now : datetime) (db : table) : table :=
  match id entry with
  | Some i =>
      {| journal_entries :=
           map (fun r =>
                  if row_id r =? i then
                    {| row_id := row_id r;
                       row_title := row_title r;
                       row_content := new_content;
                       row_encrypted_content := row_encrypted_content r;
                       row_is_encrypted := row_is_encrypted r;
                       row_mood_rating := row_mood_rating r;
                       row_created_at := row_created_at r;
                       row_updated_at := now |}
                  else r)
               (journal_entries db);
         sequence := sequence db |}
  | None => db
  end.

(** The id [AUTOINCREMENT] gives the next inserted row. *)
Definition next_id (db : table) : Z :=
  1 + fold_right Z.max (sequence db) (map row_id (journal_entries db)).

(** [create_new_entry_record]: the columns not named by the [INSERT]
    take their defaults. *)
Definition create_new_entry_record (entry_date : date) (new_content : pystr)
    (now : datetime) (db : table) : table :=
  let i := next_id db in
  {| journal_entries :=
       journal_entries db ++
       [{| row_id := i;
           row_title := lit "Entry for " ++ strftime_long entry_date;
           row_content := new_content;
           row_encrypted_content := None;
           row_is_encrypted := false;
           row_mood_rating := None;
           row_created_at := combine_min entry_date;
           row_updated_at := now |}];
     sequence := i |}.

(** [save_entry]: the table it leaves and the feedback it shows, if
    any. *)
Definition save_entry (w : widget) (now : datetime) (db : table)
    : table * option feedback :=
  match current_entry_date w with
  | Some entry_date =>
      if negb (is_authenticated w) then (db, None)
      else
        let new_content := strip (entry_text w) in
        if negb (Encryption.truthy new_content) then
          (db, Some EntryCannotBeEmpty)
        else
          match get_entry_for_date entry_date db with
          | Some existing_entry =>
              (update_existing_entry existing_entry new_content now db,
               Some EntrySavedSuccessfully)
          | None =>
              (create_new_entry_record entry_date new_content now db,
               Some EntrySavedSuccessfully)
          end
  | None => (db, None)
  end.

Section Search.

(** [str.lower] *)
Variable lower : pystr -> pystr.

(** The text the search looks into: the content column, or for an
    encrypted entry its decryption under the master key, empty when that
    fails. *)
Definition searchable_content (entry : JournalEntry) : pystr :=
  if is_encrypted entry && Encryption.truthy_opt (encrypted_content entry)
  then
    match encrypted_content entry with
    | Some data =>
        match Encryption.decrypt_journal_entry data None None with
        | Ok text => text
        | Raise _ => []
        end
    | None => content entry
    end
  else content entry.

Definition matches (query : pystr) (entry : JournalEntry) : bool :=
  contains query (strftime_ymd (dt_date (created_at entry)))
  || contains (lower query) (lower (searchable_content entry)).

(** [filter_entries_by_search] *)
Definition filter_entries_by_search (entries : list JournalEntry)
    (query : pystr) : list JournalEntry :=
  if negb (Encryption.truthy query) then entries
  else List.filter (matches query) entries.

(** [load_entries]: the entries put on the dashboard, or [None] when
    the page is not authenticated and nothing is redrawn. *)
Definition load_entries (w : widget) (db : table)
    : option (list JournalEntry) :=
  if negb (is_authenticated w) then None
  else
    let entries := get_all db in
    let entries :=
      if Encryption.truthy (search_query w)
      then filter_entries_by_search entries (search_query w)
      else entries in
    let entries :=
      if negb (Encryption.truthy (search_query w))
      then firstn 10 entries
      else entries in
    Some entries.

(** [filter_entries]: [text] is what the search box holds. *)
Definition filter_entries (w : widget) (text : pystr) (db : table)
    : widget * option (list JournalEntry) :=
  let w' := {| is_authenticated := is_authenticated w;
               current_entry_date := current_entry_date w;
               search_query := strip text;
               entry_text := entry_text w |} in
  (w', load_entries w' db).

End Search.

(** [str.lower] on ASCII text, for worked examples. *)
Definition ascii_lower (s : pystr) : pystr :=
  map (fun c => if (65 <=? c) && (c <=? 90) then c + 32 else c) s.

(** The rows of the table dated [d]. *)
Definition entries_on (d : date) (db : table) : list row :=
  List.filter (fun r => date_eqb (dt_date (row_created_at r)) d)
              (journal_entries db).

(** No date holds two rows. *)
Definition one_per_date (db : table) : Prop :=
  forall d, (length (entries_on d db) <= 1)%nat.

End Journal.

(** ** [database/db.py]: [set_default_settings] *)

Module Db.

(** The rows [set_default_settings] offers to [app_settings];
    [member_since] is today's date as text. *)
Definition default_rows (member_since : string) : list (string * string) :=
  [("theme", "dark"); ("pomodoro_duration", "25"); ("short_break", "5");
   ("long_break", "15"); ("notifications_enabled", "True");
   ("user_name", "User"); ("username", "User"); ("display_handle", "");
   ("user_email", ""); ("member_since", member_since);
   ("journal_password_hash", ""); ("journal_password_enabled", "false");
   ("journal_lockout_time", "0")].

(** One [INSERT OR IGNORE] per row, in order. *)
Definition insert_rows (rows : list (string * string))
    (tbl : gmap string string) : gmap string string :=
  fold_left (fun t kv => Settings.insert_or_ignore (fst kv) (snd kv) t)
            rows tbl.

Definition set_default_settings (member_since : string)
    (tbl : gmap string string) : gmap string string :=
  insert_rows (default_rows member_since) tbl.

End Db.

(** ** [ui/profile_ui.py]: [PasswordStrengthCalculator] and the password
    forms of [ProfileWidget] *)

Module PasswordStrengthCalculator.

(** [re.search] of a one-character class: some character is in it. *)
Definition search (cls : Z -> bool) (password : pystr) : bool :=
  existsb cls password.

Definition lower_class (c : Z) : bool := (97 <=? c) && (c <=? 122).

Definition upper_class (c : Z) : bool := (65 <=? c) && (c <=? 90).

(** The characters listed between the brackets of the last pattern; 34 is
    the double quote. *)
Definition special_chars : list Z :=
  lit "!@#$%^&*(),.?" ++ [34] ++ lit ":{}|<>".

Definition special_class (c : Z) : bool := existsb (Z.eqb c) special_chars.

(** [score += 1] on a hit, [feedback.append(msg)] otherwise. *)
Definition tally (hit : bool) (msg : string) (acc : Z * list string)
    : Z * list string :=
  if hit then (fst acc + 1, snd acc) else (fst acc, snd acc ++ [msg]).

Section Strength.

(** The class [\d]: the decimal digits of Unicode. *)
Variable digit_class : Z -> bool.

(** The score and the feedback before the label is chosen. *)
Definition tallies (password : pystr) : Z * list string :=
  let len := Z.of_nat (length password) in
  let acc :=
    if 8 <=? len then (2, [])
    else if 6 <=? len then (1, [])
    else (0, ["Use at least 6 characters"]) in
  let acc := tally (search lower_class password) "Add lowercase letters" acc in
  let acc := tally (search upper_class password) "Add uppercase letters" acc in
  let acc := tally (search digit_class password) "Add numbers" acc in
  tally (search special_class password) "Add special characters" acc.

Definition calculate_strength (password : pystr)
    : Z * string * string * list string :=
  if negb (Encryption.truthy password) then (0, "", "#666666", [])
  else
    let score := fst (tallies password) in
    let feedback := snd (tallies password) in
    if score <=? 2 then (score, "Weak", "#ff4757", feedback)
    else if score <=? 4 then (score, "Fair", "#ffa726", feedback)
    else if score <=? 5 then (score, "Good", "#66bb6a", feedback)
    else (score, "Strong", "#42c767", feedback).

End Strength.

End PasswordStrengthCalculator.

Module ProfileWidget.

Import PasswordManager.
Local Open Scope pm_scope.

(** What [show_message] is called with, in the order the handlers
    mention them. *)
Inductive message : Type :=
| PasswordCannotBeEmpty
| PasswordTooShort
| PasswordsDoNotMatch
| ProtectionEnabled
| FailedToSetPassword
| FillInAllFields
| NewPasswordTooShort
| NewPasswordSameAsCurrent
| PasswordUpdated
| CurrentPasswordIncorrect
| EnterCurrentPassword
| ProtectionRemoved.

Definition len (s : pystr) : Z := Z.of_nat (length s).

(** [validate_set_password_form]: whether the button is enabled. *)
Definition validate_set_password_form (password confirm : pystr) : bool :=
  (6 <=? len password) && bool_decide (password = confirm)
  && (0 <? len password) && (0 <? len confirm).

Section Forms.

Variable sha256_hex : bytes -> string.

(** [ProfileWidget.set_password] over the texts of the two inputs. *)
Definition set_password (password confirm : pystr) : M message :=
  if negb (Encryption.truthy password) then ret PasswordCannotBeEmpty
  else if len password <? 6 then ret PasswordTooShort
  else if negb (bool_decide (password = confirm)) then ret PasswordsDoNotMatch
  else
    ok <- PasswordManager.set_password sha256_hex password ;;
    if ok then ret ProtectionEnabled else ret FailedToSetPassword.

(** [ProfileWidget.change_password] *)
Definition change_password (t_lock t_fail : pyfloat)
    (current new_password : pystr) : M message :=
  if negb (Encryption.truthy current) || negb (Encryption.truthy new_password)
  then ret FillInAllFields
  else if len new_password <? 6 then ret NewPasswordTooShort
  else if bool_decide (current = new_password)
  then ret NewPasswordSameAsCurrent
  else
    ok <- PasswordManager.change_password sha256_hex t_lock t_fail
            current new_password ;;
    if ok then ret PasswordUpdated else ret CurrentPasswordIncorrect.

(** [ProfileWidget.remove_password] *)
Definition remove_password (t_lock t_fail : pyfloat) (current : pystr)
    : M message :=
  if negb (Encryption.truthy current) then ret EnterCurrentPassword
  else
    ok <- PasswordManager.remove_password sha256_hex t_lock t_fail current ;;
    if ok then ret ProtectionRemoved else ret CurrentPasswordIncorrect.

End Forms.

End ProfileWidget.

(** ** [database/models.py]: the other methods of [JournalEntry] *)

Module Models.

Import Journal.

(** The row an [INSERT] adds, with the id [AUTOINCREMENT] gives it. *)
Definition insert (r : Z -> row) (db : table) : Z * table :=
  let i := next_id db in
  (i, {| journal_entries := journal_entries db ++ [r i]; sequence := i |}).

(** [JournalEntry.create]; [current_timestamp] is what the table's
    [CURRENT_TIMESTAMP] default evaluates to. *)
Definition create (new_title new_content : pystr) (new_mood : option Z)
    (encrypted : bool) (current_timestamp : datetime) (db : table)
    : Z * table :=
  insert (fun i =>
            {| row_id := i;
               row_title := new_title;
               row_content := new_content;
               row_encrypted_content := None;
               row_is_encrypted := encrypted;
               row_mood_rating := new_mood;
               row_created_at := current_timestamp;
               row_updated_at := current_timestamp |}) db.

(** The [entry_date] argument: a [datetime] or a plain [date]. *)
Inductive date_arg : Type :=
| OfDatetime (t : datetime)
| OfDate (d : date).

(** [JournalEntry.create_with_date] *)
Definition create_with_date (new_title new_content : pystr)
    (entry_date : date_arg) (new_mood : option Z) (encrypted : bool)
    (now : datetime) (db : table) : Z * table :=
  let stamp :=
    match entry_date with
    | OfDatetime t => t
    | OfDate d => combine_min d
    end in
  insert (fun i =>
            {| row_id := i;
               row_title := new_title;
               row_content := new_content;
               row_encrypted_content := None;
               row_is_encrypted := encrypted;
               row_mood_rating := new_mood;
               row_created_at := stamp;
               row_updated_at := now |}) db.

(** [s[:n]] *)
Definition slice_to (n : Z) (s : pystr) : pystr :=
  if 0 <=? n then firstn (Z.to_nat n) s
  else firstn (length s - Z.to_nat (- n)) s.

(** [JournalEntry.get_content_preview] *)
Definition get_content_preview (self : JournalEntry) (max_length : Z)
    : pystr :=
  let shown :=
    if is_encrypted self && Encryption.truthy_opt (encrypted_content self)
    then lit "[Encrypted Entry]"
    else content self in
  if max_length <? Z.of_nat (length shown)
  then slice_to max_length shown ++ lit "..."
  else shown.

(** No two rows share an id. *)
Definition ids_unique (db : table) : Prop :=
  NoDup (map row_id (journal_entries db)).

(** Every id is positive and at most the sequence. *)
Definition ids_issued (db : table) : Prop :=
  Forall (fun r => 0 < row_id r <= sequence db) (journal_entries db).

(** The write operations on the table. *)
Inductive write : Type :=
| Create (new_title new_content : pystr) (new_mood : option Z)
    (encrypted : bool) (current_timestamp : datetime)
| CreateWithDate (new_title new_content : pystr) (entry_date : date_arg)
    (new_mood : option Z) (encrypted : bool) (now : datetime)
| Update (self : JournalEntry) (new_title new_content : option pystr)
    (new_mood : option Z) (now now' : datetime)
| Delete (self : JournalEntry)
| SaveEntry (w : widget) (now : datetime).

Definition apply (op : write) (db : table) : table :=
  match op with
  | Create t c m e ts => snd (create t c m e ts db)
  | CreateWithDate t c d m e now => snd (create_with_date t c d m e now db)
  | Update self t c m now now' => snd (update self t c m now now' db)
  | Delete self => delete self db
  | SaveEntry w now => fst (save_entry w now db)
  end.

(** The tables the application can build, starting from an empty one. *)
Inductive built : table -> Prop :=
| built_empty : built {| journal_entries := []; sequence := 0 |}
| built_write (op : write) (db : table) : built db -> built (apply op db).

End Models.

(** ** [ui/journal_ui.py]: opening the page, the password prompt, and
    loading and deleting an entry *)

Module JournalWidget.

Import Journal.

Definition placeholder : pystr :=
  lit "[Encrypted content - unable to decrypt]".

(** The text [load_entry_for_date] puts in the editor for an entry. *)
Definition entry_display (entry : JournalEntry) : pystr :=
  if is_encrypted entry && Encryption.truthy_opt (encrypted_content entry)
  then
    match encrypted_content entry with
    | Some data =>
        match Encryption.decrypt_journal_entry data None None with
        | Ok text => text
        | Raise _ => placeholder
        end
    | None => content entry
    end
  else content entry.

(** [load_entry_for_date]: the text left in the editor. *)
Definition load_entry_for_date (entry_date : date) (db : table) : pystr :=
  match List.find
          (fun entry => date_eqb (dt_date (created_at entry)) entry_date)
          (get_all db) with
  | Some entry => entry_display entry
  | None => []
  end.

(** [delete_entry]; [confirmed] is whether the dialog was answered
    Yes. *)
Definition delete_entry (entry : JournalEntry) (confirmed : bool)
    (db : table) : table :=
  if confirmed then delete entry db else db.

(** Which page of the stacked widget is in front. *)
Inductive screen : Type :=
| PasswordPrompt
| JournalContent.

(** The attributes the authentication flow reads and writes.
    [attempts_warning] is the label under the unlock button: [None] while
    it is hidden, [Some n] once it is shown reading "n attempts
    remaining". *)
Record session : Type := mkSession {
  password_manager : option PasswordManager.t;
  password_check_done : bool;
  page : widget;
  front : screen;
  attempts_warning : option Z
}.

(** What [show_error_feedback] is called with. *)
Inductive error_feedback : Type :=
| PleaseEnterAPassword
| PasswordManagerNotAvailable
| IncorrectPassword
| AuthenticationError.

(** [show_journal_content] *)
Definition show_journal_content (s : session) : session :=
  {| password_manager := password_manager s;
     password_check_done := password_check_done s;
     page := {| is_authenticated := true;
                current_entry_date := current_entry_date (page s);
                search_query := search_query (page s);
                entry_text := entry_text (page s) |};
     front := JournalContent;
     attempts_warning := attempts_warning s |}.

(** [show_password_prompt] *)
Definition show_password_prompt (s : session) : session :=
  {| password_manager := password_manager s;
     password_check_done := password_check_done s;
     page := page s;
     front := PasswordPrompt;
     attempts_warning := attempts_warning s |}.

(** [check_authentication_state] over the settings table. *)
Definition check_authentication_state (s : session)
    (settings : gmap string string) : session * gmap string string :=
  if password_check_done s then (s, settings)
  else
    let w := {| PasswordManager.self := PasswordManager.init;
                PasswordManager.tbl := settings |} in
    match PasswordManager.has_password w with
    | (r, w') =>
        let s1 := {| password_manager := Some (PasswordManager.self w');
                     password_check_done := true;
                     page := page s;
                     front := front s;
                     attempts_warning := attempts_warning s |} in
        match r with
        | Ok true => (show_password_prompt s1, PasswordManager.tbl w')
        | Ok false => (show_journal_content s1, PasswordManager.tbl w')
        | Raise _ => (show_journal_content s1, PasswordManager.tbl w')
        end
    end.

Section Prompt.

Variable sha256_hex : bytes -> string.

(** [JournalWidget.verify_password]: [enabled] is whether the input
    accepts text and [typed] what it holds. The result carries the
    feedback shown in the status label; the attempts warning is part of
    the page, which sets and shows it and nowhere hides it again. *)
Definition verify_password (s : session) (enabled : bool) (typed : pystr)
    (t_lock t_fail : PasswordManager.pyfloat)
    (settings : gmap string string)
    : session * gmap string string * option error_feedback :=
  if negb enabled then (s, settings, None)
  else if negb (Encryption.truthy typed)
  then (s, settings, Some PleaseEnterAPassword)
  else
    match password_manager s with
    | None => (s, settings, Some PasswordManagerNotAvailable)
    | Some pm =>
        let w := {| PasswordManager.self := pm;
                    PasswordManager.tbl := settings |} in
        match PasswordManager.verify_password sha256_hex t_lock t_fail
                typed w with
        | (r, w') =>
            let s1 := {| password_manager := Some (PasswordManager.self w');
                         password_check_done := password_check_done s;
                         page := page s;
                         front := front s;
                         attempts_warning := attempts_warning s |} in
            match r with
            | Ok true =>
                (show_journal_content s1, PasswordManager.tbl w', None)
            | Ok false =>
                let remaining :=
                  5 - PasswordManager.failed_attempts
                        (PasswordManager.self w') in
                ({| password_manager := password_manager s1;
                    password_check_done := password_check_done s1;
                    page := page s1;
                    front := front s1;
                    attempts_warning :=
                      if 0 <? remaining then Some remaining
                      else attempts_warning s1 |},
                 PasswordManager.tbl w', Some IncorrectPassword)
            | Raise _ =>
                (s1, PasswordManager.tbl w', Some AuthenticationError)
            end
        end
    end.

End Prompt.

(** A page as [__init__] leaves it before the first check. *)
Definition fresh : session :=
  {| password_manager := None;
     password_check_done := false;
     page := {| is_authenticated := false; current_entry_date := None;
                search_query := []; entry_text := [] |};
     front := PasswordPrompt;
     attempts_warning := None |}.

End JournalWidget.

(** ** Invariants of the password guard *)

(** The counter stays between 0 and 5, the lockout lasts 60 seconds, and
    a counter at 5 comes with a lockout time the manager wrote itself. *)
Definition guard_ok (w : PasswordManager.world) : Prop :=
  0 <= PasswordManager.failed_attempts (PasswordManager.self w) <= 5 /\
  PasswordManager.lockout_duration (PasswordManager.self w) = 60 /\
  (PasswordManager.failed_attempts (PasswordManager.self w) = 5 ->
   exists T, Settings.get_setting (PasswordManager.tbl w)
               "journal_lockout_time" "0" = PasswordManager.str_of_time T).

(** * Properties *)

(** ** The result monad *)

Lemma bind_ok {A B} (m : result A) (k : A -> result B) (b : B) :
  Py.bind m k = Ok b -> exists a, m = Ok a /\ k a = Ok b.
Proof. destruct m as [a|e]; simpl; [eauto | discriminate]. Qed.

Lemma reraise_ok {A} (msg : string) (m : result A) (a : A) :
  reraise msg m = Ok a <-> m = Ok a.
Proof. destruct m; simpl; split; congruence. Qed.

(** ** UTF-8: decoding inverts encoding, and only encodings decode *)

Ltac split_bools :=
  repeat match goal with
  | H : andb _ _ = true |- _ => apply andb_true_iff in H; destruct H
  | H : negb _ = true |- _ => apply negb_true_iff in H
  | H : negb _ = false |- _ => apply negb_false_iff in H
  | H : (_ <=? _) = true |- _ => apply Z.leb_le in H
  | H : (_ <=? _) = false |- _ => apply Z.leb_gt in H
  | H : (_ <? _) = true |- _ => apply Z.ltb_lt in H
  | H : (_ <? _) = false |- _ => apply Z.ltb_ge in H
  end.

Ltac case_cmp :=
  match goal with
  | |- context [Z.leb ?a ?b] => destruct (Z.leb_spec a b)
  | |- context [Z.ltb ?a ?b] => destruct (Z.ltb_spec a b)
  end.

Ltac arith := Z.div_mod_to_equations; lia.

Lemma scalar_range c :
  Utf8.is_scalar c = true -> 0 <= c <= 1114111 /\ (c < 55296 \/ 57343 < c).
Proof.
  unfold Utf8.is_scalar, Utf8.is_surrogate. intros H. split_bools.
  apply andb_false_iff in H0. destruct H0; split_bools; lia.
Qed.

Ltac settle_cmp :=
  match goal with
  | |- context [Z.leb ?a ?b] =>
      first [ rewrite (proj2 (Z.leb_le a b)) by arith
            | rewrite (proj2 (Z.leb_gt a b)) by arith ]
  | |- context [Z.ltb ?a ?b] =>
      first [ rewrite (proj2 (Z.ltb_lt a b)) by arith
            | rewrite (proj2 (Z.ltb_ge a b)) by arith ]
  end.

Lemma decode_encode_char c bs rest :
  Utf8.encode_char c = Ok bs ->
  Utf8.decode (bs ++ rest) = (let* s := Utf8.decode rest in Ok (c :: s)).
Proof.
  unfold Utf8.encode_char.
  destruct (Utf8.is_scalar c) eqn:Hs; simpl; [| discriminate].
  apply scalar_range in Hs. destruct Hs as [Hr Hs].
  destruct (Z.ltb_spec c 128); [| destruct (Z.ltb_spec c 2048);
    [| destruct (Z.ltb_spec c 65536)]]; intros [= <-];
    cbn [app Utf8.decode]; unfold Utf8.is_cont, Utf8.is_surrogate.
  - repeat (settle_cmp; cbn [andb negb]). reflexivity.
  - replace ((192 + c / 64 - 192) * 64 + (128 + c mod 64 - 128)) with c
      by arith.
    repeat (settle_cmp; cbn [andb negb]). reflexivity.
  - replace ((224 + c / 4096 - 224) * 4096
             + (128 + (c / 64) mod 64 - 128) * 64
             + (128 + c mod 64 - 128)) with c by arith.
    destruct Hs; repeat (settle_cmp; cbn [andb negb]); reflexivity.
  - replace ((240 + c / 262144 - 240) * 262144
             + (128 + (c / 4096) mod 64 - 128) * 4096
             + (128 + (c / 64) mod 64 - 128) * 64
             + (128 + c mod 64 - 128)) with c by arith.
    repeat (settle_cmp; cbn [andb negb]). reflexivity.
Qed.

Lemma encode_char_nonempty c bs : Utf8.encode_char c = Ok bs -> bs <> [].
Proof.
  unfold Utf8.encode_char.
  destruct (negb (Utf8.is_scalar c)); [discriminate |].
  repeat case_cmp; intros [= <-]; discriminate.
Qed.

Lemma encode_total s :
  Utf8.valid s -> exists bs, Utf8.encode s = Ok bs.
Proof.
  induction 1 as [| c r Hc _ [rest IH]]; simpl; [eauto |].
  unfold Utf8.encode_char at 1. rewrite Hc. cbn [negb].
  rewrite IH. repeat case_cmp; simpl; eauto.
Qed.

Lemma decode_encode s bs :
  Utf8.encode s = Ok bs -> Utf8.decode bs = Ok s.
Proof.
  revert bs. induction s as [| c r IH]; simpl; intros bs.
  - intros [= <-]. reflexivity.
  - intros H. apply bind_ok in H as (cb & Hc & H).
    apply bind_ok in H as (rest & Hr & [= <-]).
    rewrite (decode_encode_char _ _ _ Hc), (IH _ Hr). reflexivity.
Qed.

Lemma encode_nonempty s bs :
  s <> [] -> Utf8.encode s = Ok bs -> bs <> [].
Proof.
  destruct s as [| c r]; [congruence |]. simpl. intros _ H.
  apply bind_ok in H as (cb & Hc & H).
  apply bind_ok in H as (rest & _ & [= <-]).
  apply encode_char_nonempty in Hc. destruct cb; [congruence | discriminate].
Qed.

Lemma encode_char_1 b : 0 <= b < 128 -> Utf8.encode_char b = Ok [b].
Proof.
  intros H. unfold Utf8.encode_char, Utf8.is_scalar, Utf8.is_surrogate.
  repeat (settle_cmp; cbn [andb negb]). reflexivity.
Qed.

Lemma encode_char_2 b0 b1 :
  192 <= b0 < 224 -> 128 <= b1 <= 191 ->
  128 <= (b0 - 192) * 64 + (b1 - 128) ->
  Utf8.encode_char ((b0 - 192) * 64 + (b1 - 128)) = Ok [b0; b1].
Proof.
  intros H0 H1 Hc. set (c := (b0 - 192) * 64 + (b1 - 128)) in *.
  assert (c < 2048) by (subst c; lia).
  unfold Utf8.encode_char, Utf8.is_scalar, Utf8.is_surrogate.
  repeat (settle_cmp; cbn [andb negb]).
  f_equal. f_equal; [| f_equal]; subst c; arith.
Qed.

Lemma encode_char_3 b0 b1 b2 :
  224 <= b0 < 240 -> 128 <= b1 <= 191 -> 128 <= b2 <= 191 ->
  let c := (b0 - 224) * 4096 + (b1 - 128) * 64 + (b2 - 128) in
  2048 <= c -> Utf8.is_surrogate c = false ->
  Utf8.encode_char c = Ok [b0; b1; b2].
Proof.
  intros H0 H1 H2 c Hc Hs.
  assert (c < 65536) by (subst c; lia).
  unfold Utf8.encode_char, Utf8.is_scalar. rewrite Hs.
  repeat (settle_cmp; cbn [andb negb]).
  f_equal. f_equal; [| f_equal; [| f_equal]]; subst c; arith.
Qed.

Lemma encode_char_4 b0 b1 b2 b3 :
  240 <= b0 < 248 -> 128 <= b1 <= 191 -> 128 <= b2 <= 191 ->
  128 <= b3 <= 191 ->
  let c := (b0 - 240) * 262144 + (b1 - 128) * 4096
           + (b2 - 128) * 64 + (b3 - 128) in
  65536 <= c <= 1114111 ->
  Utf8.encode_char c = Ok [b0; b1; b2; b3].
Proof.
  intros H0 H1 H2 H3 c Hc.
  unfold Utf8.encode_char, Utf8.is_scalar, Utf8.is_surrogate.
  repeat (settle_cmp; cbn [andb negb]).
  f_equal. f_equal; [| f_equal; [| f_equal; [| f_equal]]]; subst c; arith.
Qed.

Lemma encode_decode_bounded (n : nat) :
  forall bs s, (length bs <= n)%nat ->
    Utf8.decode bs = Ok s -> Utf8.encode s = Ok bs.
Proof.
  induction n as [| n IH]; intros bs s Hlen.
  - destruct bs; [| simpl in Hlen; lia]. intros [= <-]. reflexivity.
  - destruct bs as [| b0 r0]; [intros [= <-]; reflexivity |].
    cbn [Utf8.decode].
    destruct ((0 <=? b0) && (b0 <? 128)) eqn:E1.
    { intros H. apply bind_ok in H as (s' & Hd & [= <-]).
      split_bools. simpl in Hlen.
      apply IH in Hd; [| lia]. simpl.
      rewrite encode_char_1 by lia. simpl. rewrite Hd. reflexivity. }
    destruct ((192 <=? b0) && (b0 <? 224)) eqn:E2.
    { destruct r0 as [| b1 r1]; [discriminate |].
      destruct (Utf8.is_cont b1 && _) eqn:C; [| discriminate].
      intros H. apply bind_ok in H as (s' & Hd & [= <-]).
      unfold Utf8.is_cont in C. split_bools. simpl in Hlen.
      apply IH in Hd; [| lia]. simpl.
      rewrite encode_char_2 by lia. simpl. rewrite Hd. reflexivity. }
    destruct ((224 <=? b0) && (b0 <? 240)) eqn:E3.
    { destruct r0 as [| b1 [| b2 r2]]; try discriminate.
      destruct (Utf8.is_cont b1 && _ && _ && _) eqn:C; [| discriminate].
      intros H. apply bind_ok in H as (s' & Hd & [= <-]).
      unfold Utf8.is_cont in C. split_bools. simpl in Hlen.
      apply IH in Hd; [| lia]. simpl.
      rewrite encode_char_3 by (assumption || lia).
      simpl. rewrite Hd. reflexivity. }
    destruct ((240 <=? b0) && (b0 <? 248)) eqn:E4; [| discriminate].
    destruct r0 as [| b1 [| b2 [| b3 r3]]]; try discriminate.
    destruct (Utf8.is_cont b1 && _ && _ && _ && _) eqn:C; [| discriminate].
    intros H. apply bind_ok in H as (s' & Hd & [= <-]).
    unfold Utf8.is_cont in C. split_bools. simpl in Hlen.
    apply IH in Hd; [| lia]. simpl.
    rewrite encode_char_4 by lia. simpl. rewrite Hd. reflexivity.
Qed.

Lemma encode_decode bs s :
  Utf8.decode bs = Ok s -> Utf8.encode s = Ok bs.
Proof. apply (encode_decode_bounded (length bs)). lia. Qed.

(** ** The XOR pass *)

Lemma key_at_ok key i : key <> [] -> exists k, Encryption.key_at key i = Ok k.
Proof.
  intros Hk. unfold Encryption.key_at.
  destruct (length key) as [| n] eqn:Hn; [destruct key; done |].
  destruct (nth_error key (i mod S n)%nat) as [k |] eqn:Hnth; [eauto |].
  apply nth_error_None in Hnth.
  pose proof (Nat.mod_upper_bound i (S n)). lia.
Qed.

Lemma xor_from_ok key : key <> [] ->
  forall data i, exists out, Encryption.xor_from i data key = Ok out.
Proof.
  intros Hk. induction data as [| b rest IH]; intros i; simpl; [eauto |].
  destruct (key_at_ok key i Hk) as [k ->]. destruct (IH (S i)) as [out ->].
  simpl. eauto.
Qed.

Lemma xor_from_involutive key : forall data i out,
  Encryption.xor_from i data key = Ok out ->
  Encryption.xor_from i out key = Ok data.
Proof.
  induction data as [| b rest IH]; intros i out; simpl.
  - intros [= <-]. reflexivity.
  - intros H. apply bind_ok in H as (k & Hk & H).
    apply bind_ok in H as (out' & Ho & [= <-]).
    simpl. rewrite Hk. simpl. rewrite (IH _ _ Ho). simpl.
    rewrite Z.lxor_assoc, Z.lxor_nilpotent, Z.lxor_0_r. reflexivity.
Qed.

Lemma lxor_cancel a k1 k2 : Z.lxor (Z.lxor a k1) k2 = a -> k1 = k2.
Proof.
  intros H. apply Z.lxor_eq.
  rewrite Z.lxor_assoc in H.
  rewrite <- (Z.lxor_0_l (Z.lxor k1 k2)), <- (Z.lxor_nilpotent a).
  rewrite Z.lxor_assoc. rewrite H. reflexivity.
Qed.

(** Encrypting under one key and decrypting under another gives the data
    back only if the two key streams agree on every position used. *)
Lemma xor_from_two_keys k1 k2 : forall data i mid,
  Encryption.xor_from i data k1 = Ok mid ->
  Encryption.xor_from i mid k2 = Ok data ->
  forall j, (j < length data)%nat ->
    Encryption.key_at k1 (i + j) = Encryption.key_at k2 (i + j).
Proof.
  induction data as [| b rest IH]; intros i mid H1 H2 j Hj; simpl in *;
    [lia |].
  apply bind_ok in H1 as (x1 & Hx1 & H1).
  apply bind_ok in H1 as (mid' & Hm & [= <-]).
  simpl in H2.
  apply bind_ok in H2 as (x2 & Hx2 & H2).
  apply bind_ok in H2 as (back & Hb & [= Hx Hback]). subst back.
  destruct j as [| j].
  - rewrite Nat.add_0_r, Hx1, Hx2. f_equal. eapply lxor_cancel; eauto.
  - replace (i + S j)%nat with (S i + j)%nat by lia.
    eapply IH; eauto. lia.
Qed.

Lemma master_password_bytes :
  exists kb, Utf8.encode Encryption.master_password = Ok kb /\ kb <> [].
Proof. eexists. split; [vm_compute; reflexivity | discriminate]. Qed.

Lemma simple_roundtrip_bytes s p sb pb :
  Utf8.encode s = Ok sb -> Utf8.encode p = Ok pb -> pb <> [] ->
  exists enc, Encryption.simple_encrypt s p = Ok (enc, Encryption.simple_salt)
    /\ forall salt, Encryption.simple_decrypt enc p salt = Ok s.
Proof.
  intros Hs Hp Hne.
  destruct (xor_from_ok pb Hne sb 0%nat) as [enc He].
  exists enc. unfold Encryption.simple_encrypt, Encryption.simple_decrypt.
  rewrite Hp, Hs. simpl. rewrite He. simpl. split; [reflexivity |].
  intros _. rewrite (xor_from_involutive _ _ _ _ He). simpl.
  rewrite (decode_encode _ _ Hs). reflexivity.
Qed.

(** ** Content cipher *)

(** C3. For every UTF-8 string [s] and every non-empty UTF-8 password [p],
    [simple_encrypt] succeeds and [simple_decrypt] of its output under
    the same password returns [s], whatever salt is passed; and
    [decrypt_with_master_key] returns [s] on the output of
    [encrypt_with_master_key]. *)
Theorem cipher_roundtrip (s p : pystr) :
  Utf8.valid s -> Utf8.valid p -> p <> [] ->
  (exists enc salt,
      Encryption.simple_encrypt s p = Ok (enc, salt) /\
      forall salt', Encryption.simple_decrypt enc p salt' = Ok s) /\
  (exists enc,
      Encryption.encrypt_with_master_key s = Ok enc /\
      Encryption.decrypt_with_master_key enc = Ok s).
Proof.
  intros Hs Hp Hne.
  destruct (encode_total s Hs) as [sb Hsb].
  destruct (encode_total p Hp) as [pb Hpb].
  pose proof (encode_nonempty p pb Hne Hpb) as Hpne.
  split.
  - destruct (simple_roundtrip_bytes s p sb pb Hsb Hpb Hpne) as (enc & H).
    exists enc, Encryption.simple_salt. exact H.
  - destruct master_password_bytes as (kb & Hkb & Hkne).
    destruct (simple_roundtrip_bytes s _ sb kb Hsb Hkb Hkne)
      as (enc & H1 & H2).
    exists enc. unfold Encryption.encrypt_with_master_key,
      Encryption.decrypt_with_master_key.
    rewrite H1, H2. split; reflexivity.
Qed.

Lemma cipher_roundtrip_witness :
  Utf8.valid (lit "Dear diary") /\ Utf8.valid (lit "abc123") /\
  lit "abc123" <> [] /\
  ((exists enc salt,
      Encryption.simple_encrypt (lit "Dear diary") (lit "abc123")
        = Ok (enc, salt) /\
      forall salt', Encryption.simple_decrypt enc (lit "abc123") salt'
        = Ok (lit "Dear diary")) /\
   (exists enc,
      Encryption.encrypt_with_master_key (lit "Dear diary") = Ok enc /\
      Encryption.decrypt_with_master_key enc = Ok (lit "Dear diary"))).
Proof.
  assert (V1 : Utf8.valid (lit "Dear diary")) by (repeat constructor).
  assert (V2 : Utf8.valid (lit "abc123")) by (repeat constructor).
  assert (N : lit "abc123" <> []) by discriminate.
  split; [exact V1 | split; [exact V2 | split; [exact N |]]].
  exact (cipher_roundtrip (lit "Dear diary") (lit "abc123") V1 V2 N).
Defined.

(** The claim C4 as the specification words it fails: the passwords
    "ab" and "abab" are distinct and non-empty, yet text encrypted under
    the first decrypts to itself under the second. *)
Lemma wrong_key_counterexample :
  lit "ab" <> lit "abab" /\ lit "ab" <> [] /\ lit "abab" <> [] /\
  Utf8.valid (lit "hi") /\
  exists enc salt,
    Encryption.simple_encrypt (lit "hi") (lit "ab") = Ok (enc, salt) /\
    Encryption.simple_decrypt enc (lit "abab") None = Ok (lit "hi").
Proof.
  repeat split; try discriminate; try (repeat constructor).
  exists [9; 11], Encryption.simple_salt. split; vm_compute; reflexivity.
Qed.

(** C4 (amended). When the repeating key bytes of [p1] and [p2] differ at
    some index below the byte length of [s], decrypting the encryption
    of [s] under [p1] with [p2] raises or returns a string other than
    [s]. *)
Theorem wrong_key_detected (s p1 p2 : pystr) (sb k1 k2 : bytes) (j : nat) :
  Utf8.encode s = Ok sb -> Utf8.encode p1 = Ok k1 ->
  Utf8.encode p2 = Ok k2 ->
  (j < length sb)%nat ->
  Encryption.key_at k1 j <> Encryption.key_at k2 j ->
  forall enc salt salt',
    Encryption.simple_encrypt s p1 = Ok (enc, salt) ->
    (exists e, Encryption.simple_decrypt enc p2 salt' = Raise e) \/
    (exists s', Encryption.simple_decrypt enc p2 salt' = Ok s' /\ s' <> s).
Proof.
  intros Hs H1 H2 Hj Hk enc salt salt' He.
  destruct (Encryption.simple_decrypt enc p2 salt') as [s' | e] eqn:Hd;
    [right | left; eauto].
  exists s'. split; [reflexivity |]. intros ->.
  apply reraise_ok in He, Hd. rewrite H1, Hs in He. rewrite H2 in Hd.
  simpl in He, Hd.
  apply bind_ok in He as (mid & Hm & [= <- _]).
  apply bind_ok in Hd as (back & Hb & Hd).
  apply encode_decode in Hd. rewrite Hs in Hd. injection Hd as <-.
  apply Hk. exact (xor_from_two_keys k1 k2 sb 0%nat mid Hm Hb j Hj).
Qed.

Lemma wrong_key_detected_witness :
  exists e,
    Encryption.simple_decrypt [9; 11] (lit "ac") None = Raise e \/
    exists s', Encryption.simple_decrypt [9; 11] (lit "ac") None = Ok s'
               /\ s' <> lit "hi".
Proof.
  destruct (wrong_key_detected (lit "hi") (lit "ab") (lit "ac")
              [104; 105] [97; 98] [97; 99] 1%nat
              eq_refl eq_refl eq_refl ltac:(simpl; lia)
              ltac:(vm_compute; discriminate)
              [9; 11] Encryption.simple_salt None eq_refl) as [[e H] | H].
  - exists e. left. exact H.
  - exists UnicodeDecodeError. right. exact H.
Defined.

(** ** Password guard *)

Import PasswordManager.

(** [float] reads back what [str] wrote. *)
Lemma string_of_uint_digits (d : Decimal.uint) :
  all_digits (NilEmpty.string_of_uint d) = true.
Proof. induction d; cbn; auto. Qed.

Lemma split_point_digits (s rest : string) :
  all_digits s = true ->
  split_point (s ++ String "." rest) = (s, Some rest).
Proof.
  induction s as [| c s IH]; [reflexivity |].
  cbn [all_digits]. intros [Hc Hs]%andb_prop.
  change (String c s ++ String "." rest)%string
    with (String c (s ++ String "." rest)).
  cbn [split_point]. rewrite (IH Hs). cbn [fst snd].
  destruct (Ascii.eqb_spec c "."); [subst; discriminate | reflexivity].
Qed.

Lemma to_uint_nonnil (n : N) : N.to_uint n <> Decimal.Nil.
Proof.
  destruct n; cbn; [discriminate |].
  apply DecimalPos.Unsigned.to_uint_nonnil.
Qed.

Lemma pop_push (d : digit) (u : Decimal.uint) : pop (push d u) = (d, u).
Proof. destruct d; reflexivity. Qed.

Lemma unsigned_float_str (neg : bool) (w : N) (d : digit)
    (r : Decimal.uint) :
  unsigned_float neg
    (NilZero.string_of_uint (N.to_uint w) ++
     String "." (NilEmpty.string_of_uint (push d r)))
  = Ok {| negative := neg; whole := w; tenths := d; rest := r |}.
Proof.
  pose proof (to_uint_nonnil w) as Hnn.
  assert (Hw : NilZero.string_of_uint (N.to_uint w)
               = NilEmpty.string_of_uint (N.to_uint w))
    by (destruct (N.to_uint w); [congruence | reflexivity ..]).
  unfold unsigned_float.
  rewrite Hw.
  rewrite split_point_digits by apply string_of_uint_digits.
  cbn [fst snd]. rewrite <- Hw, (NilZero.usu _ Hnn), NilEmpty.usu.
  rewrite DecimalN.Unsigned.of_to, pop_push. reflexivity.
Qed.

Lemma float_str (x : pyfloat) : float (str_of_time x) = Ok x.
Proof.
  destruct x as [neg w d r]. unfold str_of_time, fraction.
  cbn [negative whole tenths rest].
  destruct neg.
  - apply (unsigned_float_str true w d r).
  - change (float (NilZero.string_of_uint (N.to_uint w) ++
                   String "." (NilEmpty.string_of_uint (push d r)))
            = Ok {| negative := false; whole := w; tenths := d;
                    rest := r |}).
    rewrite <- (unsigned_float_str false w d r).
    pose proof (to_uint_nonnil w) as Hnn.
    destruct (N.to_uint w) as [| u | u | u | u | u | u | u | u | u | u];
      [congruence | reflexivity ..].
Qed.

Lemma float_zero :
  float "0" = Ok {| negative := false; whole := 0; tenths := d0;
                    rest := Decimal.Nil |}.
Proof. reflexivity. Qed.

Example float_texts :
  str_of_time (reading 1000) = "1000.5" /\
  float "1000.5" = Ok (reading 1000) /\
  (forall x, float "1011" = Ok x -> str_of_time x = "1011.0") /\
  float "7." = float "7.0" /\
  float "" = Raise ValueError /\
  float "-" = Raise ValueError /\
  float "." = Raise ValueError /\
  float "12a" = Raise ValueError /\
  float "1.2.3" = Raise ValueError.
Proof.
  split_and!; try reflexivity. intros x [= <-]. reflexivity.
Qed.

Example int_truncates :
  int (99 # 2) = 49 /\ int (- (99 # 2)) = -49 /\ int (- (1 # 2)) = 0 /\
  int (60 - (seconds (reading 1011) - seconds (reading 1000))) = 49.
Proof. split_and!; reflexivity. Qed.

Lemma Qle_bool_true (x y : Q) : (x <= y)%Q -> Qle_bool x y = true.
Proof. apply Qle_bool_iff. Qed.

Lemma Qle_bool_false (x y : Q) : (y < x)%Q -> Qle_bool x y = false.
Proof.
  intros H. destruct (Qle_bool x y) eqn:E; [| reflexivity].
  apply Qle_bool_iff in E. apply Qlt_not_le in H. contradiction.
Qed.

Lemma eqb_empty (h : string) : h <> "" -> String.eqb h "" = false.
Proof. intros H. apply String.eqb_neq. exact H. Qed.

(** [is_locked] never looks at the table while fewer than five failures
    are counted. *)
Lemma is_locked_below (now : pyfloat) (w : world) :
  failed_attempts (self w) < 5 -> is_locked now w = (Ok false, w).
Proof.
  intros H. unfold is_locked, bind, get_self. cbn.
  rewrite (proj2 (Z.ltb_lt _ _) H). reflexivity.
Qed.

Lemma is_locked_within (now T : pyfloat) (w : world) :
  5 <= failed_attempts (self w) ->
  float (Settings.get_setting (tbl w) "journal_lockout_time" "0") = Ok T ->
  (seconds now - seconds T < inject_Z (lockout_duration (self w)))%Q ->
  is_locked now w = (Ok true, w).
Proof.
  intros H5 HT Hnow. unfold is_locked, bind, get_self, get_setting, lift.
  cbn. rewrite (proj2 (Z.ltb_ge _ _) H5), HT.
  rewrite (Qle_bool_false _ _ Hnow). reflexivity.
Qed.

Lemma is_locked_elapsed (now T : pyfloat) (w : world) :
  5 <= failed_attempts (self w) ->
  float (Settings.get_setting (tbl w) "journal_lockout_time" "0") = Ok T ->
  (inject_Z (lockout_duration (self w)) <= seconds now - seconds T)%Q ->
  is_locked now w =
    (Ok false,
     {| self := {| failed_attempts := 0;
                   last_attempt_time := last_attempt_time (self w);
                   lockout_duration := lockout_duration (self w) |};
        tbl := <["journal_lockout_time" := "0"]> (tbl w) |}).
Proof.
  intros H5 HT Hnow. unfold is_locked, bind, get_self, get_setting, lift.
  cbn. rewrite (proj2 (Z.ltb_ge _ _) H5), HT.
  rewrite (Qle_bool_true _ _ Hnow). reflexivity.
Qed.

Section Guard.

Variable sha256_hex : bytes -> string.

Lemma verify_locked t_lock t_fail p (w : world) :
  is_locked t_lock w = (Ok true, w) ->
  verify_password sha256_hex t_lock t_fail p w = (Ok false, w).
Proof.
  intros H. unfold verify_password, bind. rewrite H. reflexivity.
Qed.

Lemma verify_wrong t_lock t_fail p (w : world) stored :
  failed_attempts (self w) < 5 ->
  Settings.get_setting (tbl w) "journal_password_hash" "" = stored ->
  stored <> "" -> wrong sha256_hex stored p ->
  verify_password sha256_hex t_lock t_fail p w =
    (Ok false,
     {| self := {| failed_attempts := failed_attempts (self w) + 1;
                   last_attempt_time := t_fail;
                   lockout_duration := lockout_duration (self w) |};
        tbl := if 5 <=? failed_attempts (self w) + 1
               then <["journal_lockout_time" := str_of_time t_fail]> (tbl w)
               else tbl w |}).
Proof.
  intros Hfa Hst Hne (h & Hh & Hw).
  unfold verify_password, bind at 1.
  rewrite (is_locked_below _ _ Hfa).
  unfold bind, get_setting, lift, get_self, set_self, set_setting, ret. cbn.
  rewrite Hst, (eqb_empty _ Hne), Hh.
  rewrite (proj2 (String.eqb_neq _ _) Hw). cbn.
  destruct (5 <=? failed_attempts (self w) + 1); reflexivity.
Qed.

Lemma verify_each_app (l1 l2 : list (pyfloat * pyfloat * pystr))
    (w : world) :
  verify_each sha256_hex (l1 ++ l2) w =
  match verify_each sha256_hex l1 w with
  | (Ok bs1, w1) =>
      match verify_each sha256_hex l2 w1 with
      | (Ok bs2, w2) => (Ok (bs1 ++ bs2), w2)
      | (Raise e, w2) => (Raise e, w2)
      end
  | (Raise e, w1) => (Raise e, w1)
  end.
Proof.
  revert w. induction l1 as [| [[tl tf] p] l1 IH]; intros w.
  - simpl. unfold ret. destruct (verify_each sha256_hex l2 w) as [[bs | e] w2];
      reflexivity.
  - cbn [app verify_each]. unfold bind, ret.
    destruct (verify_password sha256_hex tl tf p w) as [[b | e] w1];
      [| reflexivity].
    rewrite IH.
    destruct (verify_each sha256_hex l1 w1) as [[bs1 | e] w2]; [| reflexivity].
    destruct (verify_each sha256_hex l2 w2) as [[bs2 | e] w3]; reflexivity.
Qed.

(** Fewer than five wrong attempts in a row only move the counter. *)
Lemma verify_each_wrong stored : forall attempts (w : world),
  Forall (fun a => wrong sha256_hex stored (snd a)) attempts ->
  Settings.get_setting (tbl w) "journal_password_hash" "" = stored ->
  stored <> "" ->
  failed_attempts (self w) + Z.of_nat (length attempts) < 5 ->
  exists last,
    verify_each sha256_hex attempts w =
      (Ok (map (fun _ => false) attempts),
       {| self := {| failed_attempts :=
                       failed_attempts (self w) + Z.of_nat (length attempts);
                     last_attempt_time := last;
                     lockout_duration := lockout_duration (self w) |};
          tbl := tbl w |}).
Proof.
  induction attempts as [| [[tl tf] p] rest IH]; intros w Hall Hst Hne Hfa.
  - exists (last_attempt_time (self w)). simpl. unfold ret.
    rewrite Z.add_0_r. destruct w as [[] ?]; reflexivity.
  - apply Forall_cons_iff in Hall as [Hw Hrest]. simpl in Hw.
    cbn [length] in Hfa |- *. rewrite Nat2Z.inj_succ in Hfa |- *.
    cbn [verify_each]. unfold bind at 1.
    rewrite (verify_wrong tl tf p w stored ltac:(lia) Hst Hne Hw).
    rewrite (proj2 (Z.leb_gt _ _)) by lia.
    match goal with |- context [bind _ _ ?w1] => set (w1' := w1) end.
    destruct (IH w1' Hrest Hst Hne ltac:(subst w1'; cbn; lia))
      as [last Hlast].
    exists last. unfold bind. rewrite Hlast. unfold ret. subst w1'. cbn.
    do 3 f_equal. lia.
Qed.

Lemma map_const_repeat {A B} (b : B) (l : list A) :
  map (fun _ => b) l = repeat b (length l).
Proof. induction l; simpl; congruence. Qed.

(** C2. With a stored hash, five consecutive wrong passwords given to a
    manager whose counter is 0 all fail and leave it locked: four of them
    do not lock it; after the fifth, for as long as less than 60 seconds
    have passed since the persisted time of that failure, [is_locked]
    returns true and [verify_password] returns false for every password
    and changes nothing; from 60 seconds on, [is_locked] returns false and
    sets the counter back to 0. *)
Theorem lockout_after_five (w : world) (stored : string)
    (pre : list (pyfloat * pyfloat * pystr)) (t_lock T : pyfloat)
    (p5 : pystr) :
  failed_attempts (self w) = 0 ->
  lockout_duration (self w) = 60 ->
  Settings.get_setting (tbl w) "journal_password_hash" "" = stored ->
  stored <> "" ->
  length pre = 4%nat ->
  Forall (fun a => wrong sha256_hex stored (snd a))
         (pre ++ [(t_lock, T, p5)]) ->
  exists w4 w5,
    verify_each sha256_hex pre w = (Ok (repeat false 4), w4) /\
    (forall now, is_locked now w4 = (Ok false, w4)) /\
    verify_each sha256_hex (pre ++ [(t_lock, T, p5)]) w
      = (Ok (repeat false 5), w5) /\
    failed_attempts (self w5) = 5 /\
    Settings.get_setting (tbl w5) "journal_lockout_time" "0"
      = str_of_time T /\
    (forall now, (seconds now - seconds T < 60)%Q ->
       is_locked now w5 = (Ok true, w5)) /\
    (forall now now' p, (seconds now - seconds T < 60)%Q ->
       verify_password sha256_hex now now' p w5 = (Ok false, w5)) /\
    (forall now, (60 <= seconds now - seconds T)%Q ->
       exists w', is_locked now w5 = (Ok false, w') /\
                  failed_attempts (self w') = 0).
Proof.
  intros Hfa Hdur Hst Hne Hlen Hall.
  apply Forall_app in Hall as [Hpre H5].
  apply Forall_cons_iff in H5 as [H5 _]. simpl in H5.
  destruct (verify_each_wrong stored pre w Hpre Hst Hne ltac:(lia))
    as [last Hrun].
  rewrite map_const_repeat, Hlen, Hfa, Hdur in Hrun.
  change (0 + Z.of_nat 4) with 4 in Hrun.
  set (w4 := {| self := {| failed_attempts := 4; last_attempt_time := last;
                           lockout_duration := 60 |};
                tbl := tbl w |}) in *.
  set (w5 := {| self := {| failed_attempts := 5; last_attempt_time := T;
                           lockout_duration := 60 |};
                tbl := <["journal_lockout_time" := str_of_time T]> (tbl w) |}).
  assert (Hlock : Settings.get_setting (tbl w5) "journal_lockout_time" "0"
                  = str_of_time T).
  { unfold Settings.get_setting. subst w5. cbn.
    rewrite lookup_insert_eq. reflexivity. }
  assert (Hwithin : forall now, (seconds now - seconds T < 60)%Q ->
                                is_locked now w5 = (Ok true, w5)).
  { intros now Hnow. apply (is_locked_within now T).
    - cbn. lia.
    - rewrite Hlock. apply float_str.
    - exact Hnow. }
  exists w4, w5. split_and!.
  - exact Hrun.
  - intros now. apply is_locked_below. cbn. lia.
  - rewrite verify_each_app, Hrun. cbn [verify_each]. unfold bind.
    rewrite (verify_wrong t_lock T p5 w4 stored ltac:(cbn; lia) Hst Hne H5).
    reflexivity.
  - reflexivity.
  - exact Hlock.
  - exact Hwithin.
  - intros now now' p Hnow. apply verify_locked, Hwithin, Hnow.
  - intros now Hnow. eexists. split.
    + apply (is_locked_elapsed now T).
      * cbn. lia.
      * rewrite Hlock. apply float_str.
      * exact Hnow.
    + reflexivity.
Qed.

Ltac run_method :=
  cbv [set_password change_password remove_password verify_password
       has_password get_lockout_remaining is_locked reset_failed_attempts
       try_except bind lift ret get_self set_self get_setting set_setting];
  cbn.

Lemma exec_counter_needs_hash (c : call) (w : world) :
  counter_needs_hash w -> counter_needs_hash (exec sha256_hex c w).
Proof.
  unfold counter_needs_hash. intros Hinv.
  destruct c; cbn [exec]; run_method;
    repeat case_match; simplify_eq; cbn;
    unfold Settings.get_setting, Settings.set_setting in *; cbn;
    intros; simplify_map_eq; try lia; try (apply Hinv; done);
    try match goal with
        | H : ?x = "", E : String.eqb ?x "" = false |- _ =>
            rewrite H in E; discriminate
        end.
Qed.

Lemma reachable_counter_needs_hash (w : world) :
  reachable sha256_hex w -> counter_needs_hash w.
Proof.
  induction 1 as [settings | c w _ IH].
  - intros _. cbn. lia.
  - apply exec_counter_needs_hash, IH.
Qed.

(** C5. In every world a manager can reach, an empty stored hash makes
    [verify_password] return true for every password, at every clock
    reading and without changing anything, and [has_password] return
    false. *)
Theorem open_access (w : world) (t_lock t_fail : pyfloat) (p : pystr) :
  reachable sha256_hex w ->
  Settings.get_setting (tbl w) "journal_password_hash" "" = "" ->
  verify_password sha256_hex t_lock t_fail p w = (Ok true, w) /\
  has_password w = (Ok false, w).
Proof.
  intros Hr Hh. pose proof (reachable_counter_needs_hash w Hr Hh) as Hfa.
  split.
  - unfold verify_password, bind at 1. rewrite (is_locked_below _ _ Hfa).
    unfold bind, get_setting. rewrite Hh. reflexivity.
  - unfold has_password, bind, get_setting. rewrite Hh. reflexivity.
Qed.

(** What the code does after a restart: a manager just constructed is
    not locked, whatever lockout time the table holds, and reports no
    remaining lockout time. *)
Theorem restart_lifts_lockout (w : world) (now now' : pyfloat) :
  is_locked now (restart w) = (Ok false, restart w) /\
  get_lockout_remaining now now' (restart w) = (Ok 0, restart w).
Proof.
  assert (H : is_locked now (restart w) = (Ok false, restart w))
    by (apply is_locked_below; cbn; lia).
  split; [exact H |].
  unfold get_lockout_remaining, bind. rewrite H. reflexivity.
Qed.

(** Every step a method is built from commutes with a write to the
    flag, and so does every method that never names the flag's key. *)
Lemma blind_ret {A} (a : A) : flag_blind (ret a).
Proof. intros v w. reflexivity. Qed.

Lemma blind_lift {A} (r : result A) : flag_blind (lift r).
Proof. intros v w. reflexivity. Qed.

Lemma blind_get_self : flag_blind get_self.
Proof. intros v w. reflexivity. Qed.

Lemma blind_set_self (s : t) : flag_blind (set_self s).
Proof. intros v w. reflexivity. Qed.

Lemma blind_get_setting (key default : string) :
  key <> "journal_password_enabled" -> flag_blind (get_setting key default).
Proof.
  intros Hk v w. unfold get_setting, with_enabled, Settings.get_setting,
    Settings.set_setting. cbn. rewrite lookup_insert_ne by done. reflexivity.
Qed.

Lemma blind_set_setting (key value : string) :
  key <> "journal_password_enabled" -> flag_blind (set_setting key value).
Proof.
  intros Hk v w. unfold set_setting, with_enabled, Settings.set_setting. cbn.
  rewrite insert_insert_ne by done. reflexivity.
Qed.

Lemma blind_bind {A B} (m : M A) (k : A -> M B) :
  flag_blind m -> (forall a, flag_blind (k a)) -> flag_blind (bind m k).
Proof.
  intros Hm Hk v w. unfold bind. rewrite Hm.
  destruct (m w) as [[a | e] w1]; cbn; [apply Hk | reflexivity].
Qed.

Ltac blind :=
  repeat first
    [ apply blind_ret | apply blind_lift | apply blind_get_self
    | apply blind_set_self
    | apply blind_get_setting; discriminate
    | apply blind_set_setting; discriminate
    | apply blind_bind; [| intros ?]
    | case_match ].

Lemma blind_reset_failed_attempts : flag_blind reset_failed_attempts.
Proof. unfold reset_failed_attempts. blind. Qed.

Lemma blind_is_locked (now : pyfloat) : flag_blind (is_locked now).
Proof.
  unfold is_locked. blind; apply blind_reset_failed_attempts.
Qed.

Lemma blind_verify_password (t_lock t_fail : pyfloat) (p : pystr) :
  flag_blind (verify_password sha256_hex t_lock t_fail p).
Proof.
  unfold verify_password. apply blind_bind; [apply blind_is_locked |].
  intros locked. blind; apply blind_reset_failed_attempts.
Qed.

(** C10. [verify_password] commutes with any write to
    [journal_password_enabled]: its result and its effects are the same
    whatever the flag holds. In particular, with a stored hash, the flag
    at 'false' and the manager not locked, [has_password] is false and yet
    [verify_password] returns whether the digests match and counts a
    mismatch as a failed attempt. *)
Theorem verify_ignores_enabled_flag (w : world) (stored h : string)
    (t_lock t_fail : pyfloat) (p : pystr) :
  Settings.get_setting (tbl w) "journal_password_hash" "" = stored ->
  stored <> "" ->
  Settings.get_setting (tbl w) "journal_password_enabled" "false" = "false" ->
  failed_attempts (self w) < 5 ->
  hash_password sha256_hex p = Ok h ->
  fst (has_password w) = Ok false /\
  fst (verify_password sha256_hex t_lock t_fail p w)
    = Ok (String.eqb h stored) /\
  (h <> stored ->
   failed_attempts (self (snd (verify_password sha256_hex t_lock t_fail p w)))
     = failed_attempts (self w) + 1) /\
  flag_blind (verify_password sha256_hex t_lock t_fail p).
Proof.
  intros Hst Hne Hflag Hfa Hh. split_and!.
  - unfold has_password, bind, get_setting. cbn.
    rewrite Hst, (eqb_empty _ Hne), Hflag. reflexivity.
  - unfold verify_password, bind at 1. rewrite (is_locked_below _ _ Hfa).
    unfold bind, get_setting, lift. cbn.
    rewrite Hst, (eqb_empty _ Hne), Hh.
    destruct (String.eqb h stored); cbn;
      repeat case_match; simplify_eq; reflexivity.
  - intros Hw.
    rewrite (verify_wrong t_lock t_fail p w stored Hfa Hst Hne)
      by (exists h; auto).
    reflexivity.
  - intros v. apply blind_verify_password.
Qed.

End Guard.

(** C1. The manager persists the time of the fifth failure for the
    lockout to be read back from the table, and the code misses what the
    claim says: five failures at 1000.5 write '1000.5' to
    [journal_lockout_time]; ten seconds later the manager is locked, and
    the manager built by a restart over the same table is not, since
    [is_locked] returns on its fresh counter before it reads the
    persisted time. *)
Lemma restart_bypasses_lockout :
  exists locked,
    verify_each checksum_hex
      (repeat (reading 1000, reading 1000, lit "wrong") 5)
      {| self := init; tbl := example_settings |}
      = (Ok (repeat false 5), locked) /\
    Settings.get_setting (tbl locked) "journal_lockout_time" "0"
      = "1000.5" /\
    failed_attempts (self (restart locked)) = 0 /\
    is_locked (reading 1010) locked = (Ok true, locked) /\
    is_locked (reading 1010) (restart locked) = (Ok false, restart locked).
Proof.
  eexists. split; [vm_compute; reflexivity |].
  split_and!; vm_compute; reflexivity.
Qed.

Lemma lockout_after_five_witness :
  exists w5,
    verify_each checksum_hex
      (repeat (reading 1000, reading 1000, lit "wrong") 5)
      {| self := init; tbl := example_settings |}
      = (Ok (repeat false 5), w5) /\
    is_locked (reading 1059) w5 = (Ok true, w5) /\
    verify_password checksum_hex (reading 1059) (reading 1059)
      (lit "abc123") w5 = (Ok false, w5) /\
    fst (is_locked (reading 1060) w5) = Ok false.
Proof.
  assert (Hwrong : wrong checksum_hex "444" (lit "wrong")).
  { exists "557". split; [vm_compute; reflexivity | discriminate]. }
  destruct (lockout_after_five checksum_hex
              {| self := init; tbl := example_settings |} "444"
              (repeat (reading 1000, reading 1000, lit "wrong") 4)
              (reading 1000) (reading 1000) (lit "wrong")
              eq_refl eq_refl eq_refl ltac:(discriminate) eq_refl
              ltac:(repeat constructor; exact Hwrong))
    as (w4 & w5 & _ & _ & H5 & _ & _ & Hin & Hv & Hout).
  exists w5. split_and!.
  - exact H5.
  - apply Hin. vm_compute. reflexivity.
  - apply Hv. vm_compute. reflexivity.
  - destruct (Hout (reading 1060) ltac:(vm_compute; discriminate))
      as (w' & -> & _).
    reflexivity.
Defined.

Lemma open_access_witness :
  verify_password checksum_hex (reading 5) (reading 6) (lit "anything")
    {| self := init; tbl := ∅ |}
    = (Ok true, {| self := init; tbl := ∅ |}) /\
  has_password {| self := init; tbl := ∅ |}
    = (Ok false, {| self := init; tbl := ∅ |}).
Proof.
  apply (open_access checksum_hex {| self := init; tbl := ∅ |}
           (reading 5) (reading 6) (lit "anything")).
  - constructor.
  - reflexivity.
Defined.

Lemma verify_ignores_enabled_flag_witness :
  fst (has_password (with_enabled "false"
         {| self := init; tbl := example_settings |})) = Ok false /\
  fst (verify_password checksum_hex (reading 7) (reading 8) (lit "wrong")
         (with_enabled "false" {| self := init; tbl := example_settings |}))
    = Ok false.
Proof.
  destruct (verify_ignores_enabled_flag checksum_hex
              (with_enabled "false"
                 {| self := init; tbl := example_settings |})
              "444" "557" (reading 7) (reading 8) (lit "wrong")
              eq_refl ltac:(discriminate) eq_refl ltac:(cbn; lia) eq_refl)
    as (H1 & H2 & _).
  split; [exact H1 | exact H2].
Defined.

(** ** Journal entries *)

Import Journal.

Lemma truthy_nonempty {A} (l : list A) :
  Encryption.truthy l = true <-> l <> [].
Proof. destruct l; simpl; split; congruence. Qed.

Lemma date_eqb_refl (d : date) : date_eqb d d = true.
Proof. unfold date_eqb. rewrite !Z.eqb_refl. reflexivity. Qed.

(** C7. When the editor's text is empty after stripping, [save_entry]
    returns with the table exactly as it was; on an authenticated page
    with a date selected it shows "Entry cannot be empty", and in no
    state does it report a save. *)
Theorem save_blank_rejected (w : widget) (now : datetime) (db : table) :
  strip (entry_text w) = [] ->
  fst (save_entry w now db) = db /\
  (is_authenticated w = true -> current_entry_date w <> None ->
   snd (save_entry w now db) = Some EntryCannotBeEmpty) /\
  (snd (save_entry w now db) = None \/
   snd (save_entry w now db) = Some EntryCannotBeEmpty).
Proof.
  intros Hblank. unfold save_entry. rewrite Hblank. cbn.
  destruct (current_entry_date w) as [d |], (is_authenticated w); cbn;
    split_and!; auto; congruence.
Qed.

Lemma save_blank_rejected_witness :
  let w := {| is_authenticated := true;
              current_entry_date := Some (mkDate 2024 1 15);
              search_query := [];
              entry_text := lit "  " ++ [9; 10] |} in
  let db := {| journal_entries := []; sequence := 0 |} in
  fst (save_entry w (combine_min (mkDate 2024 1 15)) db) = db /\
  snd (save_entry w (combine_min (mkDate 2024 1 15)) db)
    = Some EntryCannotBeEmpty.
Proof.
  intros w db.
  destruct (save_blank_rejected w (combine_min (mkDate 2024 1 15)) db eq_refl)
    as (H1 & H2 & _).
  split; [exact H1 | apply H2; [reflexivity | discriminate]].
Defined.

(** The claim C8 as the specification words it fails: a call that
    supplies no field leaves [updated_at] where it was, in the object and
    in the table, although the clock has moved on. *)
Lemma update_without_fields_keeps_timestamp :
  let t0 := combine_min (mkDate 2024 1 15) in
  let t1 := combine_min (mkDate 2024 1 16) in
  let r := {| row_id := 1; row_title := lit "Monday";
              row_content := lit "Hello"; row_encrypted_content := None;
              row_is_encrypted := false; row_mood_rating := Some 4;
              row_created_at := t0; row_updated_at := t0 |} in
  let db := {| journal_entries := [r]; sequence := 1 |} in
  ordinal t0 < ordinal t1 /\
  updated_at (fst (update (of_row r) None None None t1 t1 db)) = t0 /\
  snd (update (of_row r) None None None t1 t1 db) = db.
Proof. cbv zeta. split_and!; vm_compute; reflexivity. Qed.

(** What [JournalEntry.update] leaves alone, in the object and in the
    table. *)
Lemma update_frame (e : JournalEntry)
    (new_title new_content : option pystr) (new_mood : option Z)
    (now now' : datetime) (db : table) :
  let e' := fst (update e new_title new_content new_mood now now' db) in
  let db' := snd (update e new_title new_content new_mood now now' db) in
  let any := supplied new_title || supplied new_content || supplied new_mood in
  (id e' = id e /\ created_at e' = created_at e /\
   encrypted_content e' = encrypted_content e /\
   is_encrypted e' = is_encrypted e) /\
  (new_title = None -> title e' = title e) /\
  (new_content = None -> content e' = content e) /\
  (new_mood = None -> mood_rating e' = mood_rating e) /\
  (id_truthy (id e) = true ->
     title e' = or_keep new_title (title e) /\
     content e' = or_keep new_content (content e) /\
     mood_rating e' = or_keep new_mood (mood_rating e) /\
     (any = true -> updated_at e' = now' /\
        (ordinal (updated_at e) < ordinal now' ->
         ordinal (updated_at e) < ordinal (updated_at e')))) /\
  (id_truthy (id e) = false \/ any = false ->
     updated_at e' = updated_at e /\ db' = db) /\
  (id_truthy (id e) = false -> e' = e) /\
  sequence db' = sequence db /\
  Forall2 (fun r r' =>
             row_id r' = row_id r /\
             row_created_at r' = row_created_at r /\
             row_encrypted_content r' = row_encrypted_content r /\
             row_is_encrypted r' = row_is_encrypted r /\
             (new_title = None -> row_title r' = row_title r) /\
             (new_content = None -> row_content r' = row_content r) /\
             (new_mood = None -> row_mood_rating r' = row_mood_rating r) /\
             (Some (row_id r) <> id e -> r' = r))
          (journal_entries db) (journal_entries db').
Proof.
  assert (Hsame : Forall2 (fun r r' : row =>
             row_id r' = row_id r /\
             row_created_at r' = row_created_at r /\
             row_encrypted_content r' = row_encrypted_content r /\
             row_is_encrypted r' = row_is_encrypted r /\
             (new_title = None -> row_title r' = row_title r) /\
             (new_content = None -> row_content r' = row_content r) /\
             (new_mood = None -> row_mood_rating r' = row_mood_rating r) /\
             (Some (row_id r) <> id e -> r' = r))
          (journal_entries db) (journal_entries db)).
  { induction (journal_entries db); constructor; auto 10. }
  cbv zeta. unfold update.
  destruct (id e) as [i |] eqn:Hid; cbn [id_truthy negb].
  2: { cbn. split_and!; auto; try (intros; easy);
       try (intros [|]; auto). }
  destruct (negb (i =? 0)) eqn:Hi; cbn [negb].
  2: { cbn. split_and!; auto; try (intros; easy);
       try (intros [|]; auto). }
  destruct (supplied new_title || supplied new_content || supplied new_mood)
    eqn:Hany; cbn.
  - split_and!; auto; try (intros; subst; easy);
      try (intros [|]; discriminate).
    clear Hsame. induction (journal_entries db) as [| r l IH];
      cbn; constructor; [| exact IH].
    unfold patch_row. destruct (Z.eqb_spec (row_id r) i) as [-> | Hne];
      cbn; split_and!; auto; try (intros ->; reflexivity); congruence.
  - destruct new_title, new_content, new_mood; try discriminate.
    cbn. split_and!; auto; try (intros; easy);
      try (destruct e; cbn in *; congruence).
Qed.

(** What the [UPDATE] statement stores: in every row with the entry's id,
    each supplied column holds the value supplied and [updated_at] the
    clock reading bound to the statement. *)
Lemma update_rows_patched (e : JournalEntry)
    (new_title new_content : option pystr) (new_mood : option Z)
    (now now' : datetime) (db : table) :
  id_truthy (id e) = true ->
  supplied new_title || supplied new_content || supplied new_mood = true ->
  Forall2 (fun r r' =>
             Some (row_id r) = id e ->
             row_title r' = or_keep new_title (row_title r) /\
             row_content r' = or_keep new_content (row_content r) /\
             row_mood_rating r' =
               match new_mood with
               | Some m => Some m
               | None => row_mood_rating r
               end /\
             row_updated_at r' = now)
          (journal_entries db)
          (journal_entries
             (snd (update e new_title new_content new_mood now now' db))).
Proof.
  intros Hid Hany. unfold update.
  destruct (id e) as [i |] eqn:Hi; [| discriminate].
  rewrite Hid, Hany. cbn [negb snd journal_entries].
  induction (journal_entries db) as [| r l IH]; cbn [map]; constructor;
    [| exact IH].
  intros [= Hr]. unfold patch_row.
  rewrite (proj2 (Z.eqb_eq _ _) Hr). cbn. auto.
Qed.

(** C8 (amended). [JournalEntry.update] never touches a field that was
    not supplied, nor [id], [created_at] or the encryption fields. On an
    entry with a non-zero id every supplied field takes its new value,
    and [updated_at] becomes the current clock reading when at least one
    field is supplied: later than before whenever the clock is. With no
    field supplied, or on an entry without such an id, the object and the
    table stay as they were. In the table only rows with that id change,
    and only in the supplied columns and [updated_at]; when the id is
    non-zero and a field is supplied, every row with that id holds the
    supplied values in their columns and the clock reading bound to the
    statement in [updated_at]. *)
Theorem update_patches_supplied_fields (e : JournalEntry)
    (new_title new_content : option pystr) (new_mood : option Z)
    (now now' : datetime) (db : table) :
  let e' := fst (update e new_title new_content new_mood now now' db) in
  let db' := snd (update e new_title new_content new_mood now now' db) in
  let any := supplied new_title || supplied new_content || supplied new_mood in
  (id e' = id e /\ created_at e' = created_at e /\
   encrypted_content e' = encrypted_content e /\
   is_encrypted e' = is_encrypted e) /\
  (new_title = None -> title e' = title e) /\
  (new_content = None -> content e' = content e) /\
  (new_mood = None -> mood_rating e' = mood_rating e) /\
  (id_truthy (id e) = true ->
     title e' = or_keep new_title (title e) /\
     content e' = or_keep new_content (content e) /\
     mood_rating e' = or_keep new_mood (mood_rating e) /\
     (any = true -> updated_at e' = now' /\
        (ordinal (updated_at e) < ordinal now' ->
         ordinal (updated_at e) < ordinal (updated_at e')))) /\
  (id_truthy (id e) = false \/ any = false ->
     updated_at e' = updated_at e /\ db' = db) /\
  (id_truthy (id e) = false -> e' = e) /\
  sequence db' = sequence db /\
  Forall2 (fun r r' =>
             row_id r' = row_id r /\
             row_created_at r' = row_created_at r /\
             row_encrypted_content r' = row_encrypted_content r /\
             row_is_encrypted r' = row_is_encrypted r /\
             (new_title = None -> row_title r' = row_title r) /\
             (new_content = None -> row_content r' = row_content r) /\
             (new_mood = None -> row_mood_rating r' = row_mood_rating r) /\
             (Some (row_id r) <> id e -> r' = r))
          (journal_entries db) (journal_entries db') /\
  (id_truthy (id e) = true -> any = true ->
   Forall2 (fun r r' =>
              Some (row_id r) = id e ->
              row_title r' = or_keep new_title (row_title r) /\
              row_content r' = or_keep new_content (row_content r) /\
              row_mood_rating r' =
                match new_mood with
                | Some m => Some m
                | None => row_mood_rating r
                end /\
              row_updated_at r' = now)
           (journal_entries db) (journal_entries db')).
Proof.
  pose proof (update_frame e new_title new_content new_mood now now' db)
    as Hframe.
  cbv zeta in Hframe |- *.
  destruct Hframe as (H1 & H2 & H3 & H4 & H5 & H6 & H7 & H8 & H9).
  split_and!; try assumption; try apply H1.
  apply update_rows_patched.
Qed.

Lemma update_patches_supplied_fields_witness :
  let t0 := combine_min (mkDate 2024 1 15) in
  let t1 := mkDatetime (mkDate 2024 1 16) 8 0 0 0 in
  let r := {| row_id := 1; row_title := lit "Monday";
              row_content := lit "Hello"; row_encrypted_content := None;
              row_is_encrypted := false; row_mood_rating := Some 4;
              row_created_at := t0; row_updated_at := t0 |} in
  let db := {| journal_entries := [r]; sequence := 1 |} in
  let e' := fst (update (of_row r) None (Some (lit "new text")) None
                   t1 t1 db) in
  let db' := snd (update (of_row r) None (Some (lit "new text")) None
                    t1 t1 db) in
  (title e' = lit "Monday" /\ mood_rating e' = 4 /\
   content e' = lit "new text" /\
   ordinal (updated_at (of_row r)) < ordinal (updated_at e')) /\
  exists r', journal_entries db' = [r'] /\
             row_title r' = lit "Monday" /\
             row_mood_rating r' = Some 4 /\
             row_content r' = lit "new text" /\
             row_updated_at r' = t1.
Proof.
  intros t0 t1 r db e' db'.
  destruct (update_patches_supplied_fields (of_row r) None
              (Some (lit "new text")) None t1 t1 db)
    as (_ & Ht & _ & Hm & Hset & _ & _ & _ & _ & Hrows).
  destruct (Hset eq_refl) as (_ & Hc & _ & Hup).
  destruct (Hup eq_refl) as [_ Hlater].
  split.
  - split_and!.
    + exact (Ht eq_refl).
    + exact (Hm eq_refl).
    + exact Hc.
    + apply Hlater. vm_compute. reflexivity.
  - specialize (Hrows eq_refl eq_refl).
    fold db' in Hrows.
    destruct (journal_entries db') as [| r' [| r'' l]] eqn:Hdb';
      try (vm_compute in Hdb'; discriminate).
    exists r'. split; [reflexivity |].
    apply Forall2_cons_1 in Hrows as [Hrow _].
    destruct (Hrow eq_refl) as (Htitle & Hcontent & Hmood & Hstamp).
    split_and!; assumption.
Defined.

(** *** [get_all] sorts the rows of the table *)

#[local] Instance newer_first_total : Total newer_first.
Proof. intros r1 r2. unfold newer_first. lia. Qed.

#[local] Instance newer_first_trans : Transitive newer_first.
Proof. intros r1 r2 r3. unfold newer_first. lia. Qed.

Lemma sorted_rows_Permutation (db : table) :
  Permutation (merge_sort newer_first (journal_entries db))
              (journal_entries db).
Proof. apply merge_sort_Permutation. Qed.

Lemma get_all_Permutation (db : table) :
  Permutation (get_all db) (map of_row (journal_entries db)).
Proof. apply Permutation_map, sorted_rows_Permutation. Qed.

Lemma get_all_length (db : table) :
  length (get_all db) = length (journal_entries db).
Proof.
  rewrite (Permutation_length (get_all_Permutation db)). apply length_map.
Qed.

Lemma StronglySorted_split {A} (R : A -> A -> Prop) (l1 l2 : list A) :
  StronglySorted R (l1 ++ l2) ->
  forall x y, In x l1 -> In y l2 -> R x y.
Proof.
  induction l1 as [| a l1 IH]; intros Hs x y Hx Hy; [destruct Hx |].
  cbn in Hs. apply StronglySorted_inv in Hs as [Hs Ha].
  destruct Hx as [-> | Hx].
  - rewrite List.Forall_forall in Ha. apply Ha, in_or_app. right. exact Hy.
  - exact (IH Hs x y Hx Hy).
Qed.

Lemma StronglySorted_map {A B} (f : A -> B) (R : A -> A -> Prop)
    (S : B -> B -> Prop) (l : list A) :
  (forall x y, R x y -> S (f x) (f y)) ->
  StronglySorted R l -> StronglySorted S (map f l).
Proof.
  intros Hf. induction 1 as [| a l _ IH Ha]; cbn; constructor; [exact IH |].
  rewrite List.Forall_forall in *. intros y Hy.
  apply in_map_iff in Hy as (x & <- & Hx). apply Hf, Ha, Hx.
Qed.

Lemma get_all_sorted (db : table) :
  StronglySorted
    (fun e1 e2 => ordinal (created_at e2) <= ordinal (created_at e1))
    (get_all db).
Proof.
  unfold get_all.
  apply (StronglySorted_map of_row newer_first); [auto |].
  apply StronglySorted_merge_sort; typeclasses eauto.
Qed.

(** *** Looking an entry up by date *)

Lemma filter_Permutation_bool {A} (f : A -> bool) (l l' : list A) :
  Permutation l l' -> Permutation (List.filter f l) (List.filter f l').
Proof.
  induction 1 as [| x l l' _ IH | x y l | l l' l'' _ IH1 _ IH2]; cbn.
  - constructor.
  - destruct (f x); [constructor |]; exact IH.
  - destruct (f x), (f y); try reflexivity. constructor.
  - etransitivity; eassumption.
Qed.

Lemma find_head_filter {A} (f : A -> bool) (l : list A) :
  List.find f l = hd_error (List.filter f l).
Proof.
  induction l as [| a l IH]; cbn; [reflexivity |].
  destruct (f a); [reflexivity | exact IH].
Qed.

Lemma find_map {A B} (g : A -> B) (f : B -> bool) (l : list A) :
  List.find f (map g l) = option_map g (List.find (fun a => f (g a)) l).
Proof.
  induction l as [| a l IH]; cbn; [reflexivity |].
  destruct (f (g a)); [reflexivity | exact IH].
Qed.

Lemma filter_map_same {A} (g : A -> A) (f : A -> bool) (l : list A) :
  (forall a, f (g a) = f a) ->
  List.filter f (map g l) = map g (List.filter f l).
Proof.
  intros Hg. induction l as [| a l IH]; cbn; [reflexivity |].
  rewrite Hg. destruct (f a); cbn; congruence.
Qed.

Lemma get_entry_for_date_none (d : date) (db : table) :
  entries_on d db = [] -> get_entry_for_date d db = None.
Proof.
  intros Hnone. unfold get_entry_for_date, get_all.
  rewrite find_map, find_head_filter. cbn.
  pose proof (filter_Permutation_bool
                (fun r => date_eqb (dt_date (row_created_at r)) d) _ _
                (sorted_rows_Permutation db)) as Hp.
  unfold entries_on in Hnone. rewrite Hnone in Hp.
  apply Permutation_nil_r in Hp. rewrite Hp. reflexivity.
Qed.

Lemma get_entry_for_date_one (d : date) (db : table) (r : row) :
  entries_on d db = [r] -> get_entry_for_date d db = Some (of_row r).
Proof.
  intros Hone. unfold get_entry_for_date, get_all.
  rewrite find_map, find_head_filter. cbn.
  pose proof (filter_Permutation_bool
                (fun r => date_eqb (dt_date (row_created_at r)) d) _ _
                (sorted_rows_Permutation db)) as Hp.
  unfold entries_on in Hone. rewrite Hone in Hp.
  apply Permutation_sym, Permutation_length_1_inv in Hp.
  rewrite Hp. reflexivity.
Qed.

(** One save on a date holding at most one row leaves exactly one row
    there, carrying the stripped text; an existing row keeps its id and
    no row is added. *)
Lemma save_entry_on_date (w : widget) (now : datetime) (db : table)
    (d : date) :
  is_authenticated w = true -> current_entry_date w = Some d ->
  strip (entry_text w) <> [] ->
  (length (entries_on d db) <= 1)%nat ->
  exists r,
    entries_on d (fst (save_entry w now db)) = [r] /\
    row_content r = strip (entry_text w) /\
    forall r0, entries_on d db = [r0] ->
      row_id r = row_id r0 /\
      length (journal_entries (fst (save_entry w now db)))
        = length (journal_entries db).
Proof.
  intros Hauth Hdate Htext Hcount. unfold save_entry.
  rewrite Hdate, Hauth. cbn [negb].
  rewrite (proj2 (truthy_nonempty _) Htext). cbn [negb].
  destruct (entries_on d db) as [| r0 [| r1 rest]] eqn:Hon;
    [| | cbn in Hcount; lia].
  - rewrite (get_entry_for_date_none d db Hon). cbn [fst].
    eexists. split_and!.
    + unfold entries_on, create_new_entry_record. cbn.
      rewrite List.filter_app. fold (entries_on d db). rewrite Hon. cbn.
      rewrite date_eqb_refl. reflexivity.
    + reflexivity.
    + discriminate.
  - rewrite (get_entry_for_date_one d db r0 Hon). cbn [fst].
    eexists. split_and!.
    + unfold entries_on, update_existing_entry. cbn.
      rewrite filter_map_same by (intros a; destruct (row_id a =? row_id r0);
                                  reflexivity).
      fold (entries_on d db). rewrite Hon. cbn.
      rewrite Z.eqb_refl. reflexivity.
    + reflexivity.
    + intros r [= <-]. split; [reflexivity |].
      unfold update_existing_entry. cbn. apply length_map.
Qed.

Lemma date_eqb_eq (a b : date) : date_eqb a b = true -> a = b.
Proof.
  unfold date_eqb. intros H. split_bools.
  destruct a, b; cbn in *. f_equal; lia.
Qed.

Lemma get_entry_for_date_found (d : date) (db : table) (e : JournalEntry) :
  get_entry_for_date d db = Some e -> entries_on d db <> [].
Proof.
  intros Hfound Hnone.
  rewrite (get_entry_for_date_none d db Hnone) in Hfound. discriminate.
Qed.

Lemma get_entry_for_date_missing (d : date) (db : table) :
  get_entry_for_date d db = None -> entries_on d db = [].
Proof.
  unfold get_entry_for_date, get_all.
  rewrite find_map, find_head_filter. cbn. intros Hnone.
  pose proof (filter_Permutation_bool
                (fun r => date_eqb (dt_date (row_created_at r)) d) _ _
                (sorted_rows_Permutation db)) as Hp.
  destruct (List.filter _ (merge_sort _ _)); [| discriminate].
  apply Permutation_nil in Hp. exact Hp.
Qed.

(** The page is the only writer of the table, and it never puts a second
    row on a date: the bound assumed of the table below holds of every
    table the page has built up from an empty one. *)
Lemma save_entry_one_per_date (w : widget) (now : datetime) (db : table) :
  one_per_date db -> one_per_date (fst (save_entry w now db)).
Proof.
  intros Hone d'. unfold save_entry.
  destruct (current_entry_date w) as [d |]; [| apply Hone].
  destruct (is_authenticated w); cbn [negb]; [| apply Hone].
  destruct (Encryption.truthy (strip (entry_text w))); cbn [negb];
    [| apply Hone].
  destruct (get_entry_for_date d db) as [e |] eqn:Hget; cbn [fst].
  - unfold update_existing_entry. destruct (id e) as [i |]; [| apply Hone].
    unfold entries_on. cbn.
    rewrite filter_map_same by (intros a; destruct (row_id a =? i);
                                reflexivity).
    rewrite length_map. apply Hone.
  - apply get_entry_for_date_missing in Hget.
    unfold entries_on, create_new_entry_record. cbn.
    rewrite List.filter_app, length_app. cbn.
    destruct (date_eqb d d') eqn:Hd; cbn.
    + apply date_eqb_eq in Hd as <-. fold (entries_on d db).
      rewrite Hget. cbn. lia.
    + pose proof (Hone d') as H. unfold entries_on in H. lia.
Qed.

Lemma filter_filter_length {A} (f : A -> bool) (P : A -> Prop)
    `{forall x, Decision (P x)} (l : list A) :
  (length (List.filter f (filter P l)) <= length (List.filter f l))%nat.
Proof.
  induction l as [| a l IH]; [reflexivity |].
  rewrite filter_cons. destruct (decide (P a)); cbn; destruct (f a); cbn; lia.
Qed.

Lemma delete_one_per_date (e : JournalEntry) (db : table) :
  one_per_date db -> one_per_date (delete e db).
Proof.
  intros Hone d. unfold delete.
  destruct (id e) as [i |]; [| apply Hone].
  destruct (id_truthy (Some i)); [| apply Hone].
  pose proof (Hone d) as H. unfold entries_on in *. cbn [journal_entries].
  etransitivity; [apply filter_filter_length | exact H].
Qed.

(** C6. On a date holding at most one row, two saves of non-blank text
    with that date selected leave exactly one row on the date: the second
    save updates the row the first one left (same id, no row added), and
    the row carries the second text. *)
Theorem save_twice_same_row (w1 w2 : widget) (now1 now2 : datetime)
    (db : table) (d : date) :
  is_authenticated w1 = true -> current_entry_date w1 = Some d ->
  strip (entry_text w1) <> [] ->
  is_authenticated w2 = true -> current_entry_date w2 = Some d ->
  strip (entry_text w2) <> [] ->
  (length (entries_on d db) <= 1)%nat ->
  let db1 := fst (save_entry w1 now1 db) in
  let db2 := fst (save_entry w2 now2 db1) in
  exists r1 r2,
    entries_on d db1 = [r1] /\ entries_on d db2 = [r2] /\
    row_id r2 = row_id r1 /\
    row_content r2 = strip (entry_text w2) /\
    length (journal_entries db2) = length (journal_entries db1).
Proof.
  intros Ha1 Hd1 Ht1 Ha2 Hd2 Ht2 Hcount db1 db2.
  destruct (save_entry_on_date w1 now1 db d Ha1 Hd1 Ht1 Hcount)
    as (r1 & Hon1 & _ & _).
  fold db1 in Hon1.
  destruct (save_entry_on_date w2 now2 db1 d Ha2 Hd2 Ht2
              ltac:(rewrite Hon1; cbn; lia))
    as (r2 & Hon2 & Hc2 & Hsame).
  fold db2 in Hon2, Hsame.
  destruct (Hsame r1 Hon1) as [Hid Hlen].
  exists r1, r2. auto.
Qed.

Lemma save_twice_same_row_witness :
  let d := mkDate 2024 1 15 in
  let w1 := {| is_authenticated := true; current_entry_date := Some d;
               search_query := []; entry_text := lit "Hello" |} in
  let w2 := {| is_authenticated := true; current_entry_date := Some d;
               search_query := []; entry_text := lit "Hello world " |} in
  let now := mkDatetime (mkDate 2024 1 20) 9 30 0 0 in
  let db := {| journal_entries := []; sequence := 0 |} in
  exists r,
    entries_on d (fst (save_entry w2 now (fst (save_entry w1 now db)))) = [r]
    /\ row_content r = lit "Hello world".
Proof.
  intros d w1 w2 now db.
  destruct (save_twice_same_row w1 w2 now now db d
              eq_refl eq_refl ltac:(discriminate)
              eq_refl eq_refl ltac:(discriminate)
              ltac:(cbn; lia))
    as (r1 & r2 & _ & H2 & _ & Hc & _).
  exists r2. split; [exact H2 | exact Hc].
Defined.

(** *** Search *)

Lemma is_prefix_spec (p s : pystr) :
  is_prefix p s = true <-> exists post, s = p ++ post.
Proof.
  revert s. induction p as [| a p IH]; intros s; cbn.
  - split; [eauto | reflexivity].
  - destruct s as [| b s].
    + split; [discriminate | intros [post [=]]].
    + rewrite andb_true_iff, Z.eqb_eq, IH. split.
      * intros [-> [post ->]]. eauto.
      * intros [post [= -> ->]]. eauto.
Qed.

Lemma contains_spec (needle hay : pystr) :
  contains needle hay = true <-> occurs_in needle hay.
Proof.
  unfold occurs_in. induction hay as [| b hay IH]; cbn.
  - rewrite orb_false_r, is_prefix_spec. split.
    + intros [post H]. exists [], post. exact H.
    + intros (pre & post & H). symmetry in H.
      apply app_eq_nil in H as [-> H]. eauto.
  - rewrite orb_true_iff, is_prefix_spec, IH. split.
    + intros [[post H] | (pre & post & ->)].
      * exists [], post. exact H.
      * exists (b :: pre), post. reflexivity.
    + intros (pre & post & H). destruct pre as [| c pre].
      * left. eauto.
      * right. injection H as -> ->. eauto.
Qed.

(** The claim C9 as the specification words it fails: the query
    "january" occurs, ignoring case, in the title of the only entry, and
    the search on an authenticated page shows nothing. *)
Lemma search_ignores_title :
  let r := {| row_id := 1;
              row_title := lit "Entry for January 15, 2024";
              row_content := lit "Hello";
              row_encrypted_content := None; row_is_encrypted := false;
              row_mood_rating := None;
              row_created_at := combine_min (mkDate 2024 1 15);
              row_updated_at := combine_min (mkDate 2024 1 15) |} in
  let db := {| journal_entries := [r]; sequence := 1 |} in
  let w := {| is_authenticated := true; current_entry_date := None;
              search_query := []; entry_text := [] |} in
  contains (ascii_lower (lit "january")) (ascii_lower (row_title r)) = true /\
  snd (filter_entries ascii_lower w (lit "january") db) = Some [].
Proof. cbv zeta. split; vm_compute; reflexivity. Qed.

Section SearchFacts.

Variable lower : pystr -> pystr.

(** C9 (amended). On an authenticated page the search shows, for a
    query that is empty after stripping, the first ten entries of the
    table in descending order of [created_at]: no entry left out is newer
    than one shown. For any other query it shows exactly the entries
    whose ["%Y-%m-%d"] date contains the query, or whose content (the
    decrypted text for an encrypted entry) contains it when both are
    lower-cased, however many they are; the title is not consulted. *)
Theorem search_results (w : widget) (text : pystr) (db : table) :
  is_authenticated w = true ->
  exists shown,
    snd (filter_entries lower w text db) = Some shown /\
    (strip text = [] ->
       exists rest,
         get_all db = shown ++ rest /\
         length shown = Nat.min 10 (length (journal_entries db)) /\
         forall e e', In e shown -> In e' rest ->
           ordinal (created_at e') <= ordinal (created_at e)) /\
    (strip text <> [] ->
       forall e,
         In e shown <->
         In e (map of_row (journal_entries db)) /\
         (occurs_in (strip text) (strftime_ymd (dt_date (created_at e))) \/
          occurs_in (lower (strip text)) (lower (searchable_content e)))).
Proof.
  intros Hauth. unfold filter_entries, load_entries. cbn. rewrite Hauth.
  cbn [negb]. eexists. split; [reflexivity |]. split.
  - intros ->. cbn. exists (skipn 10 (get_all db)). split_and!.
    + symmetry. apply firstn_skipn.
    + rewrite length_firstn, get_all_length. reflexivity.
    + intros e e' He He'.
      pose proof (get_all_sorted db) as Hs.
      rewrite <- (firstn_skipn 10 (get_all db)) in Hs.
      exact (StronglySorted_split _ _ _ Hs e e' He He').
  - intros Hq. apply truthy_nonempty in Hq as Ht. rewrite Ht. cbn [negb].
    unfold filter_entries_by_search. rewrite Ht. cbn [negb].
    intros e. rewrite filter_In. unfold matches.
    rewrite orb_true_iff, !contains_spec.
    split; intros [Hin Hm]; (split; [| exact Hm]).
    + exact (Permutation_in _ (get_all_Permutation db) Hin).
    + exact (Permutation_in _ (Permutation_sym (get_all_Permutation db)) Hin).
Qed.

End SearchFacts.

Lemma search_results_witness :
  let r := {| row_id := 1;
              row_title := lit "Entry for January 15, 2024";
              row_content := lit "Hello World";
              row_encrypted_content := None; row_is_encrypted := false;
              row_mood_rating := None;
              row_created_at := combine_min (mkDate 2024 1 15);
              row_updated_at := combine_min (mkDate 2024 1 15) |} in
  let db := {| journal_entries := [r]; sequence := 1 |} in
  let w := {| is_authenticated := true; current_entry_date := None;
              search_query := []; entry_text := [] |} in
  exists shown,
    snd (filter_entries ascii_lower w (lit " world ") db) = Some shown /\
    In (of_row r) shown.
Proof.
  intros r db w.
  destruct (search_results ascii_lower w (lit " world ") db eq_refl)
    as (shown & Hs & _ & Hq).
  exists shown. split; [exact Hs |].
  apply (Hq ltac:(discriminate)). split.
  - left. reflexivity.
  - right. apply contains_spec. vm_compute. reflexivity.
Defined.

(** * Further properties of the modelled code *)

(** ** The cipher on its edges *)

Lemma encode_char_bytes c bs :
  Utf8.encode_char c = Ok bs -> Forall (fun b => 0 <= b < 256) bs.
Proof.
  unfold Utf8.encode_char.
  destruct (Utf8.is_scalar c) eqn:Hs; cbn [negb]; [| discriminate].
  apply scalar_range in Hs. destruct Hs as [Hr _].
  repeat case_cmp; intros [= <-]; repeat constructor; arith.
Qed.

Lemma encode_bytes s bs :
  Utf8.encode s = Ok bs -> Forall (fun b => 0 <= b < 256) bs.
Proof.
  revert bs. induction s as [| c r IH]; simpl; intros bs.
  - intros [= <-]. constructor.
  - intros H. apply bind_ok in H as (cb & Hc & H).
    apply bind_ok in H as (rest & Hr & [= <-]).
    apply Forall_app. split; [eapply encode_char_bytes | apply IH]; eauto.
Qed.

Lemma lxor_byte a b : 0 <= a < 256 -> 0 <= b < 256 -> 0 <= Z.lxor a b < 256.
Proof.
  intros Ha Hb. split; [apply Z.lxor_nonneg; lia |].
  destruct (Z.eq_dec (Z.lxor a b) 0) as [-> | Hnz]; [lia |].
  assert (0 < Z.lxor a b) by (pose proof (proj2 (Z.lxor_nonneg a b)); lia).
  apply (Z.log2_lt_pow2 _ 8); [assumption |].
  eapply Z.le_lt_trans; [apply Z.log2_lxor; lia |].
  apply Z.max_lub_lt.
  - destruct (Z.eq_dec a 0) as [-> | ?]; [cbn; lia |].
    apply Z.log2_lt_pow2; lia.
  - destruct (Z.eq_dec b 0) as [-> | ?]; [cbn; lia |].
    apply Z.log2_lt_pow2; lia.
Qed.

Lemma key_at_in key i k : Encryption.key_at key i = Ok k -> In k key.
Proof.
  unfold Encryption.key_at. destruct (length key); [discriminate |].
  destruct (nth_error _ _) eqn:Hn; [| discriminate].
  intros [= <-]. eapply nth_error_In, Hn.
Qed.

Lemma xor_from_shape key : forall data i out,
  Encryption.xor_from i data key = Ok out ->
  length out = length data /\
  (Forall (fun b => 0 <= b < 256) data ->
   Forall (fun b => 0 <= b < 256) key ->
   Forall (fun b => 0 <= b < 256) out) /\
  forall j b, nth_error data j = Some b ->
    exists c k, nth_error out j = Some c /\
                Encryption.key_at key (i + j) = Ok k /\ Z.lxor c b = k.
Proof.
  induction data as [| b rest IH]; intros i out; simpl.
  - intros [= <-]. split_and!; auto. intros [| j] b; discriminate.
  - intros H. apply bind_ok in H as (k & Hk & H).
    apply bind_ok in H as (out' & Ho & [= <-]).
    destruct (IH _ _ Ho) as (Hlen & Hrange & Hnth). split_and!.
    + simpl. congruence.
    + intros Hd Hkey. apply Forall_cons_iff in Hd as [Hb Hd].
      constructor; [| auto].
      apply lxor_byte; [exact Hb |].
      rewrite List.Forall_forall in Hkey. apply Hkey. eapply key_at_in, Hk.
    + intros [| j] b'; simpl.
      * intros [= <-]. exists (Z.lxor b k), k. rewrite Nat.add_0_r.
        split_and!; auto.
        rewrite Z.lxor_comm, <- Z.lxor_assoc, Z.lxor_nilpotent.
        apply Z.lxor_0_l.
      * intros Hj. destruct (Hnth j b' Hj) as (c & k' & H1 & H2 & H3).
        exists c, k'. replace (i + S j)%nat with (S i + j)%nat by lia. auto.
Qed.

(** X1. [simple_encrypt] under the empty password raises
    "Encryption failed" for every non-empty UTF-8 text and returns no
    bytes for the empty text; [simple_decrypt] under the empty password
    raises "Decryption failed" on every non-empty input. *)
Theorem empty_password_edge (text : pystr) (data : bytes)
    (salt : option bytes) :
  Utf8.valid text ->
  (text <> [] ->
   Encryption.simple_encrypt text []
     = Raise (Wrapped "Encryption failed" ZeroDivisionError)) /\
  Encryption.simple_encrypt [] [] = Ok ([], Encryption.simple_salt) /\
  (data <> [] ->
   Encryption.simple_decrypt data [] salt
     = Raise (Wrapped "Decryption failed" ZeroDivisionError)).
Proof.
  intros Hv. split_and!.
  - intros Hne. destruct (encode_total text Hv) as [tb Ht].
    pose proof (encode_nonempty text tb Hne Ht) as Hb.
    unfold Encryption.simple_encrypt. cbn. rewrite Ht. cbn.
    destruct tb as [| b tb]; [congruence | reflexivity].
  - reflexivity.
  - intros Hne. destruct data as [| b data]; [congruence | reflexivity].
Qed.

Lemma empty_password_edge_witness :
  Encryption.simple_encrypt (lit "Hello") []
    = Raise (Wrapped "Encryption failed" ZeroDivisionError).
Proof.
  apply (empty_password_edge (lit "Hello") [] None).
  - repeat constructor.
  - discriminate.
Defined.

(** X2. What [simple_encrypt] returns is as long as the UTF-8 encoding of
    the text, holds only values a byte can hold, and comes with the
    constant salt; XOR-ing each returned byte with the text byte at the
    same index gives the password byte at that index modulo the password
    length. *)
Theorem ciphertext_shape (text password : pystr) (enc salt : bytes) :
  Encryption.simple_encrypt text password = Ok (enc, salt) ->
  exists text_bytes password_bytes,
    Utf8.encode text = Ok text_bytes /\
    Utf8.encode password = Ok password_bytes /\
    salt = Encryption.simple_salt /\
    length enc = length text_bytes /\
    Forall (fun b => 0 <= b < 256) enc /\
    forall j b, nth_error text_bytes j = Some b ->
      exists c k, nth_error enc j = Some c /\
                  Encryption.key_at password_bytes j = Ok k /\
                  Z.lxor c b = k.
Proof.
  intros H. apply reraise_ok in H.
  apply bind_ok in H as (pb & Hp & H).
  apply bind_ok in H as (tb & Ht & H).
  apply bind_ok in H as (out & Ho & [= <- <-]).
  destruct (xor_from_shape pb tb 0%nat out Ho) as (Hlen & Hrange & Hnth).
  exists tb, pb. split_and!; auto.
  apply Hrange; eapply encode_bytes; eauto.
Qed.

Lemma ciphertext_shape_witness :
  exists text_bytes, Utf8.encode (lit "hi") = Ok text_bytes /\
                     length [9; 11] = length text_bytes.
Proof.
  destruct (ciphertext_shape (lit "hi") (lit "ab") [9; 11]
              Encryption.simple_salt eq_refl)
    as (tb & pb & Ht & _ & _ & Hlen & _).
  exists tb. split; [exact Ht | exact Hlen].
Defined.

Lemma encode_app (a b : pystr) :
  Utf8.encode (a ++ b) =
  (let* x := Utf8.encode a in let* y := Utf8.encode b in Ok (x ++ y)).
Proof.
  induction a as [| c a IH]; simpl.
  - destruct (Utf8.encode b); reflexivity.
  - destruct (Utf8.encode_char c) as [cb | e]; simpl; [| reflexivity].
    rewrite IH. destruct (Utf8.encode a) as [x | e]; simpl; [| reflexivity].
    destruct (Utf8.encode b) as [y | e]; simpl; [| reflexivity].
    rewrite app_assoc. reflexivity.
Qed.

Lemma key_at_doubled (key : bytes) (i : nat) :
  Encryption.key_at (key ++ key) i = Encryption.key_at key i.
Proof.
  unfold Encryption.key_at. rewrite length_app.
  destruct (length key) as [| n] eqn:Hn.
  - reflexivity.
  - cbn [Nat.add]. change (S (n + S n)) with (S n + S n)%nat.
    replace (S n + S n)%nat with (S n * 2)%nat by lia.
    rewrite Nat.Div0.mod_mul_r.
    pose proof (Nat.mod_upper_bound (i / S n) 2 ltac:(lia)) as H2.
    pose proof (Nat.mod_upper_bound i (S n) ltac:(lia)) as Hm.
    destruct ((i / S n) mod 2)%nat as [| [| ?]]; [| | lia].
    + rewrite Nat.mul_0_r, Nat.add_0_r.
      rewrite nth_error_app1 by lia. reflexivity.
    + rewrite Nat.mul_1_r. rewrite nth_error_app2 by lia.
      replace (i mod S n + S n - length key)%nat with (i mod S n)%nat by lia.
      reflexivity.
Qed.

Lemma xor_from_doubled (key : bytes) : forall data i,
  Encryption.xor_from i data (key ++ key) = Encryption.xor_from i data key.
Proof.
  induction data as [| b rest IH]; intros i; simpl; [reflexivity |].
  rewrite key_at_doubled, IH. reflexivity.
Qed.

(** X3. A password and the same password written twice are
    interchangeable: [simple_encrypt] and [simple_decrypt] return the same
    result, or raise the same exception, under either. *)
Theorem doubled_password_same_key (text password : pystr) (data : bytes)
    (salt : option bytes) :
  Encryption.simple_encrypt text (password ++ password)
    = Encryption.simple_encrypt text password /\
  Encryption.simple_decrypt data (password ++ password) salt
    = Encryption.simple_decrypt data password salt.
Proof.
  unfold Encryption.simple_encrypt, Encryption.simple_decrypt.
  rewrite encode_app.
  destruct (Utf8.encode password) as [pb | e]; simpl; [| split; reflexivity].
  split.
  - destruct (Utf8.encode text) as [tb | e]; simpl; [| reflexivity].
    rewrite xor_from_doubled. reflexivity.
  - rewrite xor_from_doubled. reflexivity.
Qed.

(** X4. What [encrypt_journal_entry] returns for a UTF-8 text, be it
    under a password or under the master key, [decrypt_journal_entry]
    turns back into the text when given the returned salt and the same
    password. *)
Theorem journal_entry_roundtrip (text : pystr) (use_password : bool)
    (password : option pystr) :
  Utf8.valid text ->
  (forall pw, password = Some pw -> Utf8.valid pw) ->
  exists data salt,
    Encryption.encrypt_journal_entry text use_password password
      = Ok (data, salt) /\
    Encryption.decrypt_journal_entry data salt password = Ok text.
Proof.
  intros Hv Hp. destruct (encode_total text Hv) as [tb Ht].
  assert (Hmaster : exists data,
             Encryption.encrypt_with_master_key text = Ok data /\
             Encryption.decrypt_with_master_key data = Ok text).
  { destruct master_password_bytes as (kb & Hkb & Hkne).
    destruct (simple_roundtrip_bytes text _ tb kb Ht Hkb Hkne)
      as (enc & H1 & H2).
    exists enc. unfold Encryption.encrypt_with_master_key,
      Encryption.decrypt_with_master_key.
    rewrite H1, H2. split; reflexivity. }
  destruct Hmaster as (mdata & Hm1 & Hm2).
  unfold Encryption.encrypt_journal_entry.
  destruct password as [pw |].
  2: { exists mdata, None. rewrite Hm1. split; [reflexivity | exact Hm2]. }
  destruct (use_password && Encryption.truthy pw) eqn:Huse.
  2: { exists mdata, None. rewrite Hm1. split; [reflexivity | exact Hm2]. }
  apply andb_true_iff in Huse as [_ Hpw].
  destruct (encode_total pw (Hp pw eq_refl)) as [pb Hpb].
  pose proof (encode_nonempty pw pb (proj1 (truthy_nonempty pw) Hpw) Hpb)
    as Hpne.
  destruct (simple_roundtrip_bytes text pw tb pb Ht Hpb Hpne)
    as (enc & H1 & H2).
  exists enc, (Some Encryption.simple_salt).
  unfold Encryption.encrypt_text. rewrite H1. split; [reflexivity |].
  unfold Encryption.decrypt_journal_entry. rewrite Hpw. cbn.
  apply H2.
Qed.

Lemma journal_entry_roundtrip_witness :
  exists data salt,
    Encryption.encrypt_journal_entry (lit "Dear diary") true
      (Some (lit "abc123")) = Ok (data, salt) /\
    Encryption.decrypt_journal_entry data salt (Some (lit "abc123"))
      = Ok (lit "Dear diary").
Proof.
  apply (journal_entry_roundtrip (lit "Dear diary") true
           (Some (lit "abc123"))).
  - repeat constructor.
  - intros pw [= <-]. repeat constructor.
Defined.

(** ** Default settings *)

Lemma insert_or_ignore_keeps key value (t : gmap string string) k x :
  t !! k = Some x -> Settings.insert_or_ignore key value t !! k = Some x.
Proof.
  intros H. unfold Settings.insert_or_ignore.
  destruct (t !! key) eqn:Hk; [exact H |].
  rewrite lookup_insert_ne; [exact H | congruence].
Qed.

Lemma insert_rows_keeps rows : forall (t : gmap string string) k x,
  t !! k = Some x -> Db.insert_rows rows t !! k = Some x.
Proof.
  induction rows as [| [key value] rows IH]; intros t k x H; cbn; [exact H |].
  apply IH, insert_or_ignore_keeps, H.
Qed.

Lemma insert_rows_adds rows : forall (t : gmap string string) k v,
  NoDup (map fst rows) -> In (k, v) rows -> t !! k = None ->
  Db.insert_rows rows t !! k = Some v.
Proof.
  induction rows as [| [key value] rows IH]; intros t k v Hnd Hin Hk;
    [destruct Hin |].
  cbn in Hnd. apply NoDup_cons in Hnd as [Hfresh Hnd].
  rewrite list_elem_of_In in Hfresh.
  cbn. destruct Hin as [[= -> ->] | Hin].
  - apply insert_rows_keeps. unfold Settings.insert_or_ignore.
    rewrite Hk. apply lookup_insert_eq.
  - apply IH; [exact Hnd | exact Hin |].
    unfold Settings.insert_or_ignore. destruct (t !! key); [exact Hk |].
    rewrite lookup_insert_ne; [exact Hk |].
    intros ->. apply Hfresh. change k with (fst (k, v)). apply in_map, Hin.
Qed.

Lemma insert_rows_other rows : forall (t : gmap string string) k,
  ~ In k (map fst rows) -> Db.insert_rows rows t !! k = t !! k.
Proof.
  induction rows as [| [key value] rows IH]; intros t k Hk; cbn; [reflexivity |].
  cbn in Hk. rewrite IH by tauto.
  unfold Settings.insert_or_ignore. destruct (t !! key); [reflexivity |].
  apply lookup_insert_ne. tauto.
Qed.

Lemma insert_rows_present rows : forall (t : gmap string string),
  (forall k, In k (map fst rows) -> is_Some (t !! k)) ->
  Db.insert_rows rows t = t.
Proof.
  induction rows as [| [key value] rows IH]; intros t Hall; cbn; [reflexivity |].
  destruct (Hall key (or_introl eq_refl)) as [x Hx].
  unfold Settings.insert_or_ignore. rewrite Hx.
  apply IH. intros k Hk. apply Hall. right. exact Hk.
Qed.

Lemma default_keys (member_since : string) :
  map fst (Db.default_rows member_since) =
  map fst (Db.default_rows "") /\
  NoDup (map fst (Db.default_rows member_since)).
Proof.
  split; [reflexivity |].
  apply (bool_decide_unpack _). vm_compute. exact I.
Qed.

(** X5. [set_default_settings] keeps the value of every key the table
    already holds, gives each missing default key its default, and adds
    nothing else; run again, even with another date, it changes
    nothing, so a stored password hash and the first [member_since]
    survive every start of the application. *)
Theorem set_default_settings_fills_gaps (member_since later : string)
    (tbl : gmap string string) :
  let tbl' := Db.set_default_settings member_since tbl in
  (forall k x, tbl !! k = Some x -> tbl' !! k = Some x) /\
  (forall k v, In (k, v) (Db.default_rows member_since) ->
     tbl !! k = None -> tbl' !! k = Some v) /\
  (forall k, ~ In k (map fst (Db.default_rows member_since)) ->
     tbl' !! k = tbl !! k) /\
  Db.set_default_settings later tbl' = tbl'.
Proof.
  cbv zeta. unfold Db.set_default_settings.
  destruct (default_keys member_since) as [_ Hnd]. split_and!.
  - intros k x. apply insert_rows_keeps.
  - intros k v. apply insert_rows_adds, Hnd.
  - intros k. apply insert_rows_other.
  - apply insert_rows_present. intros k Hk.
    destruct (default_keys later) as [Hl _].
    destruct (default_keys member_since) as [Hm _].
    rewrite Hl, <- Hm in Hk.
    apply in_map_iff in Hk as ([k' v] & <- & Hin). cbn [fst].
    destruct (tbl !! k') as [x |] eqn:Hx.
    + exists x. apply (insert_rows_keeps (Db.default_rows member_since)), Hx.
    + exists v. apply (insert_rows_adds (Db.default_rows member_since)); auto.
Qed.

(** ** The password guard beyond the lockout *)

Ltac run_guard :=
  cbv [set_password change_password remove_password verify_password
       has_password get_lockout_remaining is_locked reset_failed_attempts
       try_except PasswordManager.bind lift ret get_self set_self
       get_setting set_setting];
  cbn.

Section GuardFacts.

Variable sha256_hex : bytes -> string.

Lemma exec_guard_ok (c : call) (w : world) :
  guard_ok w -> guard_ok (exec sha256_hex c w).
Proof.
  unfold guard_ok. intros (Hfa & Hdur & Hlock).
  destruct w as [[fa lat dur] settings]. cbn in Hfa, Hdur, Hlock.
  destruct c; cbn [exec]; run_guard;
    repeat case_match; simplify_eq; cbn in *;
    unfold Settings.get_setting, Settings.set_setting in *; cbn in *;
    split_bools;
    (split; [lia | split; [reflexivity |]]);
    try (intros ?; exfalso; lia);
    try (intros _; rewrite lookup_insert_eq; eauto);
    try (intros Hfive; apply Hlock; lia).
Qed.

Lemma reachable_guard_ok (w : world) :
  reachable sha256_hex w -> guard_ok w.
Proof.
  induction 1 as [settings | c w _ IH].
  - unfold guard_ok. cbn. split; [lia | split; [reflexivity | intros [=]]].
  - apply exec_guard_ok, IH.
Qed.

(** X6. In every world a manager can reach, the counter of failed
    attempts is between 0 and 5 and the lockout lasts 60 seconds;
    [is_locked] and [get_lockout_remaining] return without raising,
    whatever the table held when the manager was built, and the remaining
    time is never negative. *)
Theorem guard_stays_in_range (w : world) (now now' : pyfloat) :
  reachable sha256_hex w ->
  0 <= failed_attempts (self w) <= 5 /\
  lockout_duration (self w) = 60 /\
  (exists b, fst (is_locked now w) = Ok b) /\
  (exists n, fst (get_lockout_remaining now now' w) = Ok n /\ 0 <= n).
Proof.
  intros Hr. destruct (reachable_guard_ok w Hr) as (Hfa & Hdur & Hlock).
  split; [exact Hfa |]. split; [exact Hdur |].
  destruct (Z.ltb_spec (failed_attempts (self w)) 5) as [Hlt | Hge].
  - rewrite (surjective_pairing (get_lockout_remaining now now' w)).
    unfold get_lockout_remaining, bind.
    rewrite (is_locked_below now w Hlt). cbn. eauto with lia.
  - destruct (Hlock ltac:(lia)) as [T HT].
    assert (Hfloat : float (Settings.get_setting (tbl w)
                              "journal_lockout_time" "0") = Ok T)
      by (rewrite HT; apply float_str).
    destruct (Qlt_le_dec (seconds now - seconds T)
                         (inject_Z (lockout_duration (self w))))
      as [Hin | Hout].
    + unfold get_lockout_remaining, bind.
      rewrite (is_locked_within now T w Hge Hfloat Hin). cbn.
      unfold get_setting, lift, bind. cbn. rewrite Hfloat. cbn.
      split; eauto. eexists. split; [reflexivity | lia].
    + unfold get_lockout_remaining, bind.
      rewrite (is_locked_elapsed now T w Hge Hfloat Hout). cbn.
      split; eauto. eexists. split; [reflexivity | lia].
Qed.

(** X7. After [set_password] with an encodable password whose digest is
    not empty, [has_password] is true, the counter is 0,
    [verify_password] returns true for that password and leaves the
    world as it is, and returns false for every password with another
    digest. *)
Theorem set_then_verify (w : world) (p : pystr) (h : string)
    (t_lock t_fail : pyfloat) :
  hash_password sha256_hex p = Ok h -> h <> "" ->
  let w1 := snd (set_password sha256_hex p w) in
  fst (set_password sha256_hex p w) = Ok true /\
  failed_attempts (self w1) = 0 /\
  Settings.get_setting (tbl w1) "journal_password_hash" "" = h /\
  has_password w1 = (Ok true, w1) /\
  verify_password sha256_hex t_lock t_fail p w1 = (Ok true, w1) /\
  (forall q, wrong sha256_hex h q ->
     fst (verify_password sha256_hex t_lock t_fail q w1) = Ok false).
Proof.
  intros Hh Hne. cbv zeta.
  assert (Hset : set_password sha256_hex p w =
    (Ok true,
     {| self := {| failed_attempts := 0;
                   last_attempt_time := last_attempt_time (self w);
                   lockout_duration := lockout_duration (self w) |};
        tbl := <["journal_lockout_time" := "0"]>
                 (<["journal_password_enabled" := "true"]>
                    (<["journal_password_hash" := h]> (tbl w))) |})).
  { run_guard. rewrite Hh. reflexivity. }
  rewrite Hset. cbn [fst snd].
  set (w1 := {| self := _; tbl := _ |}).
  assert (Hstored : Settings.get_setting (tbl w1) "journal_password_hash" ""
                    = h).
  { unfold Settings.get_setting. subst w1. cbn.
    rewrite !lookup_insert_ne by done. rewrite lookup_insert_eq.
    reflexivity. }
  split_and!; try reflexivity.
  - exact Hstored.
  - unfold has_password, bind, get_setting. rewrite Hstored.
    rewrite (eqb_empty _ Hne). cbn.
    unfold Settings.get_setting. subst w1. cbn.
    rewrite lookup_insert_ne by done. rewrite lookup_insert_eq. reflexivity.
  - unfold verify_password, bind at 1.
    rewrite (is_locked_below _ w1) by (subst w1; cbn; lia).
    unfold bind at 1. unfold get_setting at 1. cbn [fst snd].
    rewrite Hstored, (eqb_empty _ Hne).
    unfold bind at 1, lift. rewrite Hh, String.eqb_refl. cbn [negb].
    run_guard. subst w1. cbn. unfold Settings.set_setting.
    rewrite insert_insert_eq. reflexivity.
  - intros q Hq.
    rewrite (verify_wrong sha256_hex t_lock t_fail q w1 h) by
      (auto; subst w1; cbn; lia).
    reflexivity.
Qed.

(** X8. A password that cannot be encoded (it holds a lone surrogate) is
    never stored: [set_password] returns false and leaves the world as it
    was; given to [verify_password] against a stored hash it raises
    [UnicodeEncodeError] and is not counted as a failed attempt. *)
Theorem unencodable_password (w : world) (p : pystr) (e : exn)
    (t_lock t_fail : pyfloat) :
  Utf8.encode p = Raise e ->
  set_password sha256_hex p w = (Ok false, w) /\
  (failed_attempts (self w) < 5 ->
   Settings.get_setting (tbl w) "journal_password_hash" "" <> "" ->
   verify_password sha256_hex t_lock t_fail p w = (Raise e, w)).
Proof.
  intros He. split.
  - run_guard. unfold hash_password. rewrite He. reflexivity.
  - intros Hfa Hst. unfold verify_password, bind at 1.
    rewrite (is_locked_below _ _ Hfa).
    unfold bind, get_setting, lift. cbn.
    rewrite (eqb_empty _ Hst). unfold hash_password. rewrite He. reflexivity.
Qed.

End GuardFacts.

Section GuardCalls.

Variable sha256_hex : bytes -> string.

Lemma verify_right t_lock t_fail p (w : world) stored :
  failed_attempts (self w) < 5 ->
  Settings.get_setting (tbl w) "journal_password_hash" "" = stored ->
  stored <> "" -> hash_password sha256_hex p = Ok stored ->
  verify_password sha256_hex t_lock t_fail p w =
    (Ok true,
     {| self := {| failed_attempts := 0;
                   last_attempt_time := last_attempt_time (self w);
                   lockout_duration := lockout_duration (self w) |};
        tbl := <["journal_lockout_time" := "0"]> (tbl w) |}).
Proof.
  intros Hfa Hst Hne Hh.
  unfold verify_password, PasswordManager.bind at 1.
  rewrite (is_locked_below _ _ Hfa).
  unfold PasswordManager.bind at 1, get_setting at 1. cbn [fst snd].
  rewrite Hst, (eqb_empty _ Hne).
  unfold PasswordManager.bind at 1, lift. rewrite Hh, String.eqb_refl.
  reflexivity.
Qed.

Lemma hash_after_lockout_write (settings : gmap string string) v :
  Settings.get_setting (<["journal_lockout_time" := v]> settings)
    "journal_password_hash" ""
  = Settings.get_setting settings "journal_password_hash" "".
Proof.
  unfold Settings.get_setting. rewrite lookup_insert_ne by done. reflexivity.
Qed.

(** X9. Only consecutive failures count: after fewer than five wrong
    passwords, one right password returns true and sets the counter back
    to 0, so that up to four more wrong ones still leave the manager
    unlocked, with as many failures counted as came after the right
    one. *)
Theorem success_resets_streak (w : world) (stored : string)
    (before after : list (pyfloat * pyfloat * pystr))
    (t_lock t_fail : pyfloat) (p : pystr) :
  Settings.get_setting (tbl w) "journal_password_hash" "" = stored ->
  stored <> "" ->
  failed_attempts (self w) + Z.of_nat (length before) < 5 ->
  (length after < 5)%nat ->
  Forall (fun a => wrong sha256_hex stored (snd a)) before ->
  Forall (fun a => wrong sha256_hex stored (snd a)) after ->
  hash_password sha256_hex p = Ok stored ->
  exists w',
    verify_each sha256_hex (before ++ (t_lock, t_fail, p) :: after) w
      = (Ok (map (fun _ => false) before ++
             true :: map (fun _ => false) after), w') /\
    failed_attempts (self w') = Z.of_nat (length after) /\
    forall now, is_locked now w' = (Ok false, w').
Proof.
  intros Hst Hne Hfa Hlen Hb Ha Hp.
  destruct (verify_each_wrong sha256_hex stored before w Hb Hst Hne Hfa)
    as [last Hrun].
  rewrite verify_each_app, Hrun. cbn [verify_each].
  unfold PasswordManager.bind at 1.
  rewrite (verify_right t_lock t_fail p _ stored) by (cbn; auto; lia).
  cbn [self tbl failed_attempts last_attempt_time lockout_duration].
  match goal with
  | |- context [PasswordManager.bind (verify_each _ after) _ ?w1] =>
      destruct (verify_each_wrong sha256_hex stored after w1 Ha)
        as [last' Hrun']
  end.
  { cbn. rewrite hash_after_lockout_write. exact Hst. }
  { exact Hne. }
  { cbn. lia. }
  unfold PasswordManager.bind. rewrite Hrun'. cbn.
  eexists. split; [reflexivity |]. split; [reflexivity |].
  intros now. apply is_locked_below. cbn. lia.
Qed.

(** X10. [change_password] on an unlocked manager with a stored hash:
    a wrong current password returns false, leaves the hash and counts
    one failure; the right one with an encodable new password returns
    true, stores the new digest with the flag at 'true' and the counter
    at 0; the right one with a new password that cannot be encoded
    returns false and leaves the hash. *)
Theorem change_password_outcomes (w : world) (stored : string)
    (t_lock t_fail : pyfloat) (current new_password : pystr) :
  failed_attempts (self w) < 5 ->
  Settings.get_setting (tbl w) "journal_password_hash" "" = stored ->
  stored <> "" ->
  let r := change_password sha256_hex t_lock t_fail current new_password w in
  (wrong sha256_hex stored current ->
     fst r = Ok false /\
     Settings.get_setting (tbl (snd r)) "journal_password_hash" "" = stored /\
     failed_attempts (self (snd r)) = failed_attempts (self w) + 1) /\
  (hash_password sha256_hex current = Ok stored ->
     (forall h, hash_password sha256_hex new_password = Ok h ->
        fst r = Ok true /\
        Settings.get_setting (tbl (snd r)) "journal_password_hash" "" = h /\
        Settings.get_setting (tbl (snd r)) "journal_password_enabled" "false"
          = "true" /\
        failed_attempts (self (snd r)) = 0) /\
     (forall e, Utf8.encode new_password = Raise e ->
        fst r = Ok false /\
        Settings.get_setting (tbl (snd r)) "journal_password_hash" ""
          = stored)).
Proof.
  intros Hfa Hst Hne. cbv zeta. unfold change_password. split.
  - intros Hw. unfold PasswordManager.bind.
    rewrite (verify_wrong sha256_hex t_lock t_fail current w stored) by auto.
    cbn. split_and!; auto.
    destruct (5 <=? failed_attempts (self w) + 1); [| exact Hst].
    rewrite hash_after_lockout_write. exact Hst.
  - intros Hc. unfold PasswordManager.bind.
    rewrite (verify_right t_lock t_fail current w stored) by auto.
    cbn [negb]. split.
    + intros h Hh. run_guard. rewrite Hh. cbn.
      unfold Settings.get_setting, Settings.set_setting.
      split_and!; auto.
      * rewrite !lookup_insert_ne by done. rewrite lookup_insert_eq.
        reflexivity.
      * rewrite lookup_insert_ne by done. rewrite lookup_insert_eq.
        reflexivity.
    + intros e He. run_guard. unfold hash_password. rewrite He. cbn.
      split; [reflexivity |]. rewrite hash_after_lockout_write. exact Hst.
Qed.

(** X11. [remove_password] on an unlocked manager with a stored hash:
    the right current password returns true and leaves the hash empty
    and the flag at 'false', after which [has_password] is false and
    [verify_password] accepts every password; a wrong one returns false
    and removes nothing. *)
Theorem remove_password_outcomes (w : world) (stored : string)
    (t_lock t_fail : pyfloat) (current : pystr) :
  failed_attempts (self w) < 5 ->
  Settings.get_setting (tbl w) "journal_password_hash" "" = stored ->
  stored <> "" ->
  let r := remove_password sha256_hex t_lock t_fail current w in
  (hash_password sha256_hex current = Ok stored ->
     fst r = Ok true /\
     Settings.get_setting (tbl (snd r)) "journal_password_hash" "" = "" /\
     Settings.get_setting (tbl (snd r)) "journal_password_enabled" "false"
       = "false" /\
     fst (has_password (snd r)) = Ok false /\
     forall t t' q,
       fst (verify_password sha256_hex t t' q (snd r)) = Ok true) /\
  (wrong sha256_hex stored current ->
     fst r = Ok false /\
     Settings.get_setting (tbl (snd r)) "journal_password_hash" "" = stored).
Proof.
  intros Hfa Hst Hne. cbv zeta. unfold remove_password. split.
  - intros Hc. unfold PasswordManager.bind.
    rewrite (verify_right t_lock t_fail current w stored) by auto.
    cbn [negb]. run_guard.
    unfold Settings.get_setting, Settings.set_setting.
    repeat (rewrite ?lookup_insert_eq; rewrite ?lookup_insert_ne by done).
    cbn. split_and!; auto.
  - intros Hw. unfold PasswordManager.bind.
    rewrite (verify_wrong sha256_hex t_lock t_fail current w stored) by auto.
    cbn. split; [reflexivity |].
    destruct (5 <=? failed_attempts (self w) + 1); [| exact Hst].
    rewrite hash_after_lockout_write. exact Hst.
Qed.

End GuardCalls.

(** [int] cuts a float that is not negative down to its floor, and one
    that is negative up towards 0. *)
Lemma max_int_floor (x : Q) : Z.max 0 (int x) = Z.max 0 (Qfloor x).
Proof.
  destruct x as [n d]. unfold int, Qfloor. cbn [Qnum Qden].
  destruct (Z.le_gt_cases 0 n) as [Hn | Hn].
  - rewrite Z.quot_div_nonneg by lia. reflexivity.
  - assert (Hq : Z.quot n (Z.pos d) <= 0)
      by (apply Z.quot_le_upper_bound; lia).
    assert (Hd : n / Z.pos d < 0) by (apply Z.div_lt_upper_bound; lia).
    lia.
Qed.

(** X12. While a manager is locked (counter at 5 or more, less than 60
    seconds since the persisted lockout time [T]),
    [get_lockout_remaining] changes nothing and returns the whole seconds
    of [60 - (now' - T)], cut off at 0: at most 60 when the clock is not
    before [T], never more at a later reading, and, when it is not 0, the
    exact remaining time less its fraction of a second. *)
Theorem lockout_countdown (w : world) (T now now' : pyfloat) :
  5 <= failed_attempts (self w) ->
  lockout_duration (self w) = 60 ->
  Settings.get_setting (tbl w) "journal_lockout_time" "0" = str_of_time T ->
  (seconds now - seconds T < 60)%Q ->
  let remaining (t : pyfloat) :=
    Z.max 0 (int (60 - (seconds t - seconds T))) in
  get_lockout_remaining now now' w = (Ok (remaining now'), w) /\
  ((seconds T <= seconds now')%Q -> 0 <= remaining now' <= 60) /\
  (forall later, (seconds now' <= seconds later)%Q ->
     remaining later <= remaining now') /\
  (0 < remaining now' ->
   (inject_Z (remaining now') <= 60 - (seconds now' - seconds T)
    < inject_Z (remaining now') + 1)%Q).
Proof.
  intros Hfa Hdur HT Hnow remaining.
  assert (Hfloat : float (Settings.get_setting (tbl w)
                            "journal_lockout_time" "0") = Ok T)
    by (rewrite HT; apply float_str).
  assert (Hfloor : forall t,
            remaining t = Z.max 0 (Qfloor (60 - (seconds t - seconds T))))
    by (intros t; apply max_int_floor).
  split_and!.
  - unfold get_lockout_remaining, PasswordManager.bind at 1.
    rewrite (is_locked_within now T w Hfa Hfloat)
      by (rewrite Hdur; exact Hnow).
    cbn [negb]. unfold PasswordManager.bind, get_self, get_setting, lift, ret.
    cbn. rewrite Hfloat, Hdur. reflexivity.
  - intros Hafter. rewrite Hfloor. split; [lia |].
    apply Z.max_lub; [lia |].
    apply Z.le_trans with (Qfloor (inject_Z 60));
      [apply Qfloor_resp_le | rewrite Qfloor_Z; lia].
    change (inject_Z 60) with 60%Q. lra.
  - intros later Hlater. rewrite !Hfloor.
    apply Z.max_le_compat_l, Qfloor_resp_le. lra.
  - rewrite Hfloor. intros Hpos.
    rewrite Z.max_r by lia.
    split; [apply Qfloor_le |].
    eapply Qlt_le_trans; [apply Qlt_floor |].
    rewrite inject_Z_plus. apply Qle_refl.
Qed.


(** ** Password strength and the password forms *)

Section StrengthFacts.

Variable digit_class : Z -> bool.

Import PasswordStrengthCalculator.

(** X13. For a non-empty password [calculate_strength] returns a score
    between 0 and 6; the score and the number of feedback lines add up to
    6 for eight characters or more and to 5 below; the label is Weak up
    to 2, Fair for 3 and 4, Good for 5 and Strong for 6; the score is 6
    exactly for eight characters or more with a lower-case letter, an
    upper-case letter, a digit and a listed special character; and the
    feedback is empty exactly when all four kinds occur in six characters
    or more. The empty password gets score 0 and an empty label. *)
Theorem strength_score_and_label (password : pystr) :
  let r := calculate_strength digit_class password in
  let score := fst (fst (fst r)) in
  let label := snd (fst (fst r)) in
  let feedback := snd r in
  let len := Z.of_nat (length password) in
  let all_kinds :=
    search lower_class password && search upper_class password
    && search digit_class password && search special_class password in
  (password = [] -> r = (0, "", "#666666", [])) /\
  (password <> [] ->
     0 <= score <= 6 /\
     score + Z.of_nat (length feedback) = (if 8 <=? len then 6 else 5) /\
     ((score <= 2 /\ label = "Weak") \/ (3 <= score <= 4 /\ label = "Fair")
      \/ (score = 5 /\ label = "Good") \/ (score = 6 /\ label = "Strong")) /\
     (score = 6 <-> 8 <= len /\ all_kinds = true) /\
     (feedback = [] <-> 6 <= len /\ all_kinds = true)).
Proof.
  cbv zeta. split; [intros ->; reflexivity |].
  intros Hne. unfold calculate_strength, tallies.
  rewrite (proj2 (truthy_nonempty password) Hne). cbn [negb].
  destruct (search lower_class password), (search upper_class password),
    (search digit_class password), (search special_class password);
    (destruct (Z.leb_spec 8 (Z.of_nat (length password)));
     [| destruct (Z.leb_spec 6 (Z.of_nat (length password)))]);
    match goal with
    | |- context [fst (fst (fst ?r))] =>
        let r' := eval vm_compute in r in change r with r'
    end;
    cbn [fst snd length andb];
    (split; [lia |]); (split; [lia |]);
    (split; [first [ left; split; [lia | reflexivity]
                   | right; left; split; [lia | reflexivity]
                   | right; right; left; split; reflexivity
                   | right; right; right; split; reflexivity ] |]);
    (split; split; intros Hx;
     first [ discriminate Hx
           | exfalso; lia
           | destruct Hx as [Hx1 Hx2];
             first [discriminate Hx2 | exfalso; lia | reflexivity]
           | split; first [lia | reflexivity]
           | reflexivity ]).
Qed.

End StrengthFacts.

Section FormFacts.

Variable sha256_hex : bytes -> string.

Lemma validate_set_password_form_true (password confirm : pystr) :
  ProfileWidget.validate_set_password_form password confirm = true <->
  Encryption.truthy password = true /\
  (ProfileWidget.len password <? 6) = false /\
  bool_decide (password = confirm) = true.
Proof.
  unfold ProfileWidget.validate_set_password_form, ProfileWidget.len.
  rewrite !andb_true_iff, Z.leb_le, !Z.ltb_lt, Z.ltb_ge, truthy_nonempty,
    bool_decide_eq_true.
  split.
  - intros (((Hlen & Heq) & _) & _). split_and!; auto.
    intros ->. cbn in Hlen. lia.
  - intros (_ & Hlen & <-). split_and!; auto; lia.
Qed.

(** X14. The handler behind the "set password" button passes its own
    validation exactly when [validate_set_password_form] enables the
    button, and then its answer is the one of the manager's
    [set_password]; when it does not, the handler changes nothing; and
    it reports success only for a password of six characters or more
    that equals its confirmation, whose digest is then the stored hash. *)
Theorem set_password_form_validation (password confirm : pystr) (w : world) :
  let r := ProfileWidget.set_password sha256_hex password confirm w in
  (ProfileWidget.validate_set_password_form password confirm = true ->
   r = (match set_password sha256_hex password w with
        | (Ok true, w') => (Ok ProfileWidget.ProtectionEnabled, w')
        | (Ok false, w') => (Ok ProfileWidget.FailedToSetPassword, w')
        | (Raise e, w') => (Raise e, w')
        end)) /\
  (ProfileWidget.validate_set_password_form password confirm = false ->
   snd r = w /\
   (fst r = Ok ProfileWidget.PasswordCannotBeEmpty \/
    fst r = Ok ProfileWidget.PasswordTooShort \/
    fst r = Ok ProfileWidget.PasswordsDoNotMatch)) /\
  (fst r = Ok ProfileWidget.ProtectionEnabled ->
   6 <= Z.of_nat (length password) /\ password = confirm /\
   exists h, hash_password sha256_hex password = Ok h /\
     Settings.get_setting (tbl (snd r)) "journal_password_hash" "" = h).
Proof.
  cbv zeta.
  pose proof (validate_set_password_form_true password confirm) as Hv.
  unfold ProfileWidget.set_password.
  destruct (Encryption.truthy password) eqn:Ht; cbn [negb].
  2: { split_and!; [| auto | discriminate].
       intros H. apply Hv in H as (? & _). discriminate. }
  destruct (ProfileWidget.len password <? 6) eqn:Hl.
  { split_and!; [| auto | discriminate].
    intros H. apply Hv in H as (_ & ? & _). discriminate. }
  destruct (bool_decide (password = confirm)) eqn:Hd; cbn [negb].
  2: { split_and!; [| auto | discriminate].
       intros H. apply Hv in H as (_ & _ & ?). discriminate. }
  assert (Hvalid : ProfileWidget.validate_set_password_form password confirm
                   = true) by (apply Hv; auto).
  unfold PasswordManager.bind, ret.
  split_and!.
  - intros _. destruct (set_password sha256_hex password w) as [[[|] | e] w'];
      reflexivity.
  - rewrite Hvalid. discriminate.
  - apply Z.ltb_ge in Hl. apply bool_decide_eq_true in Hd.
    unfold ProfileWidget.len in Hl.
    unfold set_password, try_except, PasswordManager.bind at 1.
    unfold lift at 1.
    destruct (hash_password sha256_hex password) as [h | e] eqn:Hh;
      [| cbn; discriminate].
    intros _. split_and!; auto. exists h. split; [reflexivity |].
    run_guard. unfold Settings.get_setting, Settings.set_setting.
    rewrite !lookup_insert_ne by done. rewrite lookup_insert_eq. reflexivity.
Qed.

(** X15. While the manager is locked, the "change password" and "remove
    password" handlers change nothing, whatever is typed, and a filled-in
    form is answered with "Current password is incorrect" even for the
    right current password. *)
Theorem forms_refuse_while_locked (w : world) (t_lock t_fail : pyfloat)
    (current new_password : pystr) :
  is_locked t_lock w = (Ok true, w) ->
  (exists m, ProfileWidget.change_password sha256_hex t_lock t_fail
               current new_password w = (Ok m, w) /\
             m <> ProfileWidget.PasswordUpdated) /\
  (exists m, ProfileWidget.remove_password sha256_hex t_lock t_fail
               current w = (Ok m, w) /\
             m <> ProfileWidget.ProtectionRemoved) /\
  (current <> [] -> new_password <> [] ->
   6 <= Z.of_nat (length new_password) -> current <> new_password ->
   ProfileWidget.change_password sha256_hex t_lock t_fail
     current new_password w = (Ok ProfileWidget.CurrentPasswordIncorrect, w)
   /\
   ProfileWidget.remove_password sha256_hex t_lock t_fail current w
     = (Ok ProfileWidget.CurrentPasswordIncorrect, w)).
Proof.
  intros Hlocked.
  assert (Hc : forall q, change_password sha256_hex t_lock t_fail current q w
                         = (Ok false, w)).
  { intros q. unfold change_password, PasswordManager.bind.
    rewrite (verify_locked sha256_hex _ _ _ _ Hlocked). reflexivity. }
  assert (Hr : remove_password sha256_hex t_lock t_fail current w
               = (Ok false, w)).
  { unfold remove_password, PasswordManager.bind.
    rewrite (verify_locked sha256_hex _ _ _ _ Hlocked). reflexivity. }
  assert (Hcf : ProfileWidget.change_password sha256_hex t_lock t_fail
                  current new_password w =
                (Ok (if negb (Encryption.truthy current)
                        || negb (Encryption.truthy new_password)
                     then ProfileWidget.FillInAllFields
                     else if ProfileWidget.len new_password <? 6
                     then ProfileWidget.NewPasswordTooShort
                     else if bool_decide (current = new_password)
                     then ProfileWidget.NewPasswordSameAsCurrent
                     else ProfileWidget.CurrentPasswordIncorrect), w)).
  { unfold ProfileWidget.change_password.
    destruct (negb (Encryption.truthy current)
              || negb (Encryption.truthy new_password)); [reflexivity |].
    destruct (ProfileWidget.len new_password <? 6); [reflexivity |].
    destruct (bool_decide (current = new_password)); [reflexivity |].
    unfold PasswordManager.bind. rewrite Hc. reflexivity. }
  assert (Hrf : ProfileWidget.remove_password sha256_hex t_lock t_fail
                  current w =
                (Ok (if negb (Encryption.truthy current)
                     then ProfileWidget.EnterCurrentPassword
                     else ProfileWidget.CurrentPasswordIncorrect), w)).
  { unfold ProfileWidget.remove_password.
    destruct (negb (Encryption.truthy current)); [reflexivity |].
    unfold PasswordManager.bind. rewrite Hr. reflexivity. }
  rewrite Hcf, Hrf. split_and!.
  - eexists. split; [reflexivity |]. repeat case_match; discriminate.
  - eexists. split; [reflexivity |]. repeat case_match; discriminate.
  - intros H1 H2 H3 H4.
    rewrite (proj2 (truthy_nonempty _) H1), (proj2 (truthy_nonempty _) H2).
    cbn [negb orb]. unfold ProfileWidget.len.
    rewrite (proj2 (Z.ltb_ge _ _) H3).
    rewrite bool_decide_eq_false_2 by exact H4. split; reflexivity.
Qed.

End FormFacts.


(** ** The journal table *)

Import Models.

Lemma next_id_fresh (db : table) :
  ids_issued db -> 0 <= sequence db -> next_id db = sequence db + 1.
Proof.
  unfold ids_issued, next_id. intros Hall Hseq.
  assert (fold_right Z.max (sequence db) (map row_id (journal_entries db))
          = sequence db); [| lia].
  induction (journal_entries db) as [| r l IH]; cbn; [reflexivity |].
  apply Forall_cons_iff in Hall as [Hr Hl]. rewrite (IH Hl). lia.
Qed.

Lemma insert_keeps_ids (mk : Z -> row) (db : table) :
  (forall i, row_id (mk i) = i) ->
  ids_unique db -> ids_issued db -> 0 <= sequence db ->
  fst (insert mk db) = sequence db + 1 /\
  ids_unique (snd (insert mk db)) /\ ids_issued (snd (insert mk db)) /\
  sequence (snd (insert mk db)) = sequence db + 1.
Proof.
  intros Hmk Hu Hi Hs. unfold insert. cbn.
  rewrite (next_id_fresh db Hi Hs). split_and!; auto.
  - unfold ids_unique in *. cbn. rewrite map_app. cbn. rewrite Hmk.
    apply NoDup_app. split_and!; [exact Hu | | apply NoDup_singleton].
    intros x Hx Hx'. apply list_elem_of_singleton in Hx'. subst x.
    apply list_elem_of_In, in_map_iff in Hx as (r & Hr & Hin).
    unfold ids_issued in Hi. rewrite List.Forall_forall in Hi.
    specialize (Hi r Hin). lia.
  - unfold ids_issued in *. cbn. apply Forall_app. split.
    + eapply Forall_impl; [exact Hi |]. cbn. intros r Hr. lia.
    + constructor; [| constructor]. rewrite Hmk. lia.
Qed.

Lemma map_keeps_ids (f : row -> row) (db : table) :
  (forall r, row_id (f r) = row_id r) ->
  ids_unique db -> ids_issued db ->
  ids_unique {| journal_entries := map f (journal_entries db);
                sequence := sequence db |} /\
  ids_issued {| journal_entries := map f (journal_entries db);
                sequence := sequence db |}.
Proof.
  intros Hf Hu Hi. unfold ids_unique, ids_issued in *. cbn. split.
  - rewrite map_map. erewrite map_ext; [exact Hu |]. exact Hf.
  - apply Forall_map. eapply Forall_impl; [exact Hi |].
    cbn. intros r Hr. rewrite Hf. exact Hr.
Qed.

Lemma delete_keeps_ids (e : JournalEntry) (db : table) :
  ids_unique db -> ids_issued db ->
  ids_unique (delete e db) /\ ids_issued (delete e db) /\
  sequence (delete e db) = sequence db.
Proof.
  intros Hu Hi. unfold delete.
  destruct (id e) as [i |]; [| auto].
  destruct (id_truthy (Some i)); [| auto].
  unfold ids_unique, ids_issued in *. cbn. split_and!; [| | reflexivity].
  - clear Hi. induction (journal_entries db) as [| r l IH]; [constructor |].
    cbn in Hu. apply NoDup_cons in Hu as [Hr Hl].
    rewrite filter_cons. destruct (decide (row_id r ≠ i)); [| auto].
    cbn. apply NoDup_cons. split; [| auto].
    intros Hin. apply Hr.
    apply list_elem_of_fmap in Hin as (r' & -> & Hin).
    apply list_elem_of_filter in Hin as [_ Hin].
    apply list_elem_of_fmap. eauto.
  - apply Forall_forall. intros r Hr.
    apply list_elem_of_filter in Hr as [_ Hr].
    rewrite Forall_forall in Hi. auto.
Qed.

Lemma apply_keeps_ids (op : write) (db : table) :
  ids_unique db /\ ids_issued db /\ 0 <= sequence db ->
  (ids_unique (apply op db) /\ ids_issued (apply op db) /\
   0 <= sequence (apply op db)) /\
  sequence db <= sequence (apply op db).
Proof.
  intros (Hu & Hi & Hs).
  destruct op as [nt nc nm enc ts | nt nc ed nm enc now
                 | e new_title new_content new_mood now now' | e | w now];
    cbn [apply].
  - unfold create.
    match goal with |- context [insert ?mk db] =>
      destruct (insert_keeps_ids mk db ltac:(reflexivity) Hu Hi Hs)
        as (_ & H1 & H2 & H3)
    end. rewrite H3. split_and!; auto; lia.
  - unfold create_with_date.
    match goal with |- context [insert ?mk db] =>
      destruct (insert_keeps_ids mk db ltac:(reflexivity) Hu Hi Hs)
        as (_ & H1 & H2 & H3)
    end. rewrite H3. split_and!; auto; lia.
  - unfold update. destruct (id e) as [i |]; [| cbn; auto with lia].
    destruct (negb (id_truthy (Some i))); [cbn; auto with lia |].
    destruct (supplied new_title || supplied new_content || supplied new_mood);
      [| cbn; auto with lia].
    cbn [snd].
    match goal with |- context [map ?f (journal_entries db)] =>
      destruct (map_keeps_ids f db) as [H1 H2]; auto
    end.
    { intros r. unfold patch_row. destruct (row_id r =? i); reflexivity. }
    cbn. split_and!; auto; lia.
  - destruct (delete_keeps_ids e db Hu Hi) as (H1 & H2 & H3).
    rewrite H3. split_and!; auto; lia.
  - unfold save_entry.
    destruct (current_entry_date w) as [d |]; [| cbn; auto with lia].
    destruct (negb (is_authenticated w)); [cbn; auto with lia |].
    destruct (negb (Encryption.truthy (strip (entry_text w))));
      [cbn; auto with lia |].
    destruct (get_entry_for_date d db) as [e |]; cbn [fst].
    + unfold update_existing_entry.
      destruct (id e) as [i |]; [| auto with lia].
      match goal with |- context [map ?f (journal_entries db)] =>
        destruct (map_keeps_ids f db) as [H1 H2]; auto
      end.
      { intros r. destruct (row_id r =? i); reflexivity. }
      cbn. split_and!; auto; lia.
    + unfold create_new_entry_record.
      match goal with
      | |- context [journal_entries db ++ [?r]] =>
          pose proof (insert_keeps_ids
            (fun i => {| row_id := i; row_title := row_title r;
                         row_content := row_content r;
                         row_encrypted_content := None;
                         row_is_encrypted := false;
                         row_mood_rating := None;
                         row_created_at := row_created_at r;
                         row_updated_at := row_updated_at r |})
            db ltac:(reflexivity) Hu Hi Hs) as (_ & H1 & H2 & H3)
      end.
      unfold insert in H1, H2, H3. cbn in H1, H2, H3. cbn.
      split_and!; auto; lia.
Qed.

(** X16. In every table the application can build from an empty one, no
    two rows share an id and every id is positive and at most the
    sequence; a write never lowers the sequence, and [create] returns the
    sequence plus one: an id is never given twice, not even after its
    row was deleted. *)
Theorem ids_never_reused (db : table) :
  built db ->
  ids_unique db /\
  Forall (fun r => 0 < row_id r <= sequence db) (journal_entries db) /\
  (forall op, sequence db <= sequence (apply op db)) /\
  (forall t c m e ts,
     fst (create t c m e ts db) = sequence db + 1 /\
     ~ In (sequence db + 1) (map row_id (journal_entries db))).
Proof.
  intros Hb.
  assert (Hinv : ids_unique db /\ ids_issued db /\ 0 <= sequence db).
  { induction Hb as [| op db _ IH].
    - split_and!; [constructor | constructor | cbn; lia].
    - apply apply_keeps_ids, IH. }
  destruct Hinv as (Hu & Hi & Hs). split_and!; auto.
  - intros op. apply apply_keeps_ids. auto.
  - intros t c m e ts. split.
    + unfold create, insert. cbn. apply next_id_fresh; auto.
    + intros Hin. apply in_map_iff in Hin as (r & Hr & Hin).
      unfold ids_issued in Hi. rewrite List.Forall_forall in Hi.
      specialize (Hi r Hin). lia.
Qed.

Lemma apply_keeps_plain (op : write) (db : table) :
  Forall (fun r => row_encrypted_content r = None) (journal_entries db) ->
  Forall (fun r => row_encrypted_content r = None)
         (journal_entries (apply op db)).
Proof.
  intros Hp.
  destruct op as [nt nc nm enc ts | nt nc ed nm enc now
                 | e new_title new_content new_mood now now' | e | w now];
    cbn [apply].
  - cbn. apply Forall_app. split; [exact Hp | repeat constructor].
  - cbn. apply Forall_app. split; [exact Hp | repeat constructor].
  - unfold update. destruct (id e) as [i |]; [| exact Hp].
    destruct (negb (id_truthy (Some i))); [exact Hp |].
    destruct (supplied new_title || supplied new_content || supplied new_mood);
      [| exact Hp].
    cbn. apply Forall_map. eapply Forall_impl; [exact Hp |].
    cbn. intros r Hr. unfold patch_row. destruct (row_id r =? i); exact Hr.
  - unfold delete. destruct (id e) as [i |]; [| exact Hp].
    destruct (id_truthy (Some i)); [| exact Hp].
    cbn. apply Forall_forall. intros r Hr.
    apply list_elem_of_filter in Hr as [_ Hr].
    rewrite Forall_forall in Hp. auto.
  - unfold save_entry.
    destruct (current_entry_date w) as [d |]; [| exact Hp].
    destruct (negb (is_authenticated w)); [exact Hp |].
    destruct (negb (Encryption.truthy (strip (entry_text w)))); [exact Hp |].
    destruct (get_entry_for_date d db) as [e |]; cbn [fst].
    + unfold update_existing_entry. destruct (id e) as [i |]; [| exact Hp].
      cbn. apply Forall_map. eapply Forall_impl; [exact Hp |].
      cbn. intros r Hr. destruct (row_id r =? i); exact Hr.
    + cbn. apply Forall_app. split; [exact Hp | repeat constructor].
Qed.

(** X17. No write of the application ever fills [encrypted_content]: in
    every table built from an empty one the column is empty in every row,
    so that each entry, flagged encrypted or not, is loaded into the
    editor, searched and previewed as the plain text of its content
    column. *)
Theorem content_is_never_encrypted (db : table) (r : row) :
  built db -> In r (journal_entries db) ->
  row_encrypted_content r = None /\
  JournalWidget.entry_display (of_row r) = row_content r /\
  searchable_content (of_row r) = row_content r /\
  forall n, Z.of_nat (length (row_content r)) <= n ->
            get_content_preview (of_row r) n = row_content r.
Proof.
  intros Hb Hin.
  assert (Hp : Forall (fun r => row_encrypted_content r = None)
                      (journal_entries db)).
  { clear Hin. induction Hb as [| op db _ IH]; [constructor |].
    apply apply_keeps_plain, IH. }
  rewrite List.Forall_forall in Hp. specialize (Hp r Hin).
  unfold JournalWidget.entry_display, searchable_content,
    get_content_preview. cbn. rewrite Hp. cbn. rewrite andb_false_r.
  split_and!; auto.
  intros n Hn. rewrite (proj2 (Z.ltb_ge _ _) Hn). reflexivity.
Qed.

Lemma slice_to_length (n : Z) (s : pystr) :
  0 <= n -> Z.of_nat (length (slice_to n s)) <= n.
Proof.
  intros Hn. unfold slice_to. rewrite (proj2 (Z.leb_le _ _) Hn).
  rewrite length_firstn. lia.
Qed.

(** X18. For a limit that is not negative, [get_content_preview] returns
    the text itself when it fits and otherwise its first [max_length]
    characters followed by three dots, never more than [max_length + 3]
    characters; for an entry flagged encrypted that holds a non-empty
    blob the text previewed is the fixed "[Encrypted Entry]", whatever
    the content column holds. *)
Theorem preview_is_bounded (e : JournalEntry) (max_length : Z) :
  0 <= max_length ->
  let shown :=
    if is_encrypted e && Encryption.truthy_opt (encrypted_content e)
    then lit "[Encrypted Entry]" else content e in
  let preview := get_content_preview e max_length in
  (Z.of_nat (length shown) <= max_length -> preview = shown) /\
  (max_length < Z.of_nat (length shown) ->
   preview = firstn (Z.to_nat max_length) shown ++ lit "...") /\
  Z.of_nat (length preview) <= max_length + 3 /\
  (is_encrypted e = true ->
   Encryption.truthy_opt (encrypted_content e) = true ->
   forall other,
     get_content_preview
       {| id := id e; title := title e; content := other;
          encrypted_content := encrypted_content e;
          is_encrypted := is_encrypted e; mood_rating := mood_rating e;
          created_at := created_at e; updated_at := updated_at e |}
       max_length = preview).
Proof.
  intros Hn. cbv zeta. unfold get_content_preview.
  set (shown := if is_encrypted e && _ then _ else _).
  split_and!.
  - intros Hfit. rewrite (proj2 (Z.ltb_ge _ _) Hfit). reflexivity.
  - intros Hcut. rewrite (proj2 (Z.ltb_lt _ _) Hcut).
    unfold slice_to. rewrite (proj2 (Z.leb_le _ _) Hn). reflexivity.
  - destruct (Z.ltb_spec max_length (Z.of_nat (length shown))); [| lia].
    rewrite length_app. pose proof (slice_to_length max_length shown Hn).
    cbn [length lit]. lia.
  - intros He Hb other. subst shown. cbn. rewrite He, Hb. reflexivity.
Qed.

Lemma preview_is_bounded_witness :
  get_content_preview
    {| id := Some 1; title := lit "Monday"; content := lit "Hello world";
       encrypted_content := None; is_encrypted := false; mood_rating := 3;
       created_at := combine_min (mkDate 2024 1 15);
       updated_at := combine_min (mkDate 2024 1 15) |} 5
  = lit "Hello...".
Proof.
  refine (proj1 (proj2 (preview_is_bounded _ 5 ltac:(lia))) _).
  cbn. lia.
Defined.

(** ** Saving, loading and deleting on the page *)

Lemma load_is_lookup (d : date) (db : table) :
  JournalWidget.load_entry_for_date d db =
  match get_entry_for_date d db with
  | Some e => JournalWidget.entry_display e
  | None => []
  end.
Proof. reflexivity. Qed.

(** What a save of non-blank text leaves on the selected date. *)
Lemma save_entry_row (w : widget) (now : datetime) (db : table) (d : date) :
  is_authenticated w = true -> current_entry_date w = Some d ->
  strip (entry_text w) <> [] ->
  (entries_on d db = [] ->
   exists i t,
     entries_on d (fst (save_entry w now db)) =
       [{| row_id := i; row_title := t;
           row_content := strip (entry_text w);
           row_encrypted_content := None; row_is_encrypted := false;
           row_mood_rating := None; row_created_at := combine_min d;
           row_updated_at := now |}]) /\
  (forall r0, entries_on d db = [r0] ->
     entries_on d (fst (save_entry w now db)) =
       [{| row_id := row_id r0; row_title := row_title r0;
           row_content := strip (entry_text w);
           row_encrypted_content := row_encrypted_content r0;
           row_is_encrypted := row_is_encrypted r0;
           row_mood_rating := row_mood_rating r0;
           row_created_at := row_created_at r0;
           row_updated_at := now |}]).
Proof.
  intros Hauth Hdate Htext. unfold save_entry.
  rewrite Hdate, Hauth. cbn [negb].
  rewrite (proj2 (truthy_nonempty _) Htext). cbn [negb]. split.
  - intros Hon. rewrite (get_entry_for_date_none d db Hon). cbn [fst].
    eexists _, _. unfold entries_on, create_new_entry_record. cbn.
    rewrite List.filter_app. fold (entries_on d db). rewrite Hon. cbn.
    rewrite date_eqb_refl. reflexivity.
  - intros r0 Hon. rewrite (get_entry_for_date_one d db r0 Hon). cbn [fst].
    unfold entries_on, update_existing_entry. cbn.
    rewrite filter_map_same by (intros a; destruct (row_id a =? row_id r0);
                                reflexivity).
    fold (entries_on d db). rewrite Hon. cbn.
    rewrite Z.eqb_refl. reflexivity.
Qed.

(** X20. Saving and loading round-trip: after a save of non-blank text on
    a date that held no row, or one row that is not an encrypted entry
    with a blob, [load_entry_for_date] for that date puts the stripped
    text in the editor. *)
Theorem save_then_load (w : widget) (now : datetime) (db : table) (d : date) :
  is_authenticated w = true -> current_entry_date w = Some d ->
  strip (entry_text w) <> [] ->
  (length (entries_on d db) <= 1)%nat ->
  (forall r0, In r0 (entries_on d db) ->
     row_is_encrypted r0
     && Encryption.truthy_opt (row_encrypted_content r0) = false) ->
  JournalWidget.load_entry_for_date d (fst (save_entry w now db))
    = strip (entry_text w).
Proof.
  intros Hauth Hdate Htext Hcount Hplain.
  destruct (save_entry_row w now db d Hauth Hdate Htext) as [Hnew Hold].
  rewrite load_is_lookup.
  destruct (entries_on d db) as [| r0 [| r1 rest]] eqn:Hon;
    [| | cbn in Hcount; lia].
  - destruct (Hnew eq_refl) as (i & t & Hrow).
    rewrite (get_entry_for_date_one d _ _ Hrow). reflexivity.
  - rewrite (get_entry_for_date_one d _ _ (Hold r0 eq_refl)).
    unfold JournalWidget.entry_display. cbn.
    rewrite (Hplain r0 (or_introl eq_refl)). reflexivity.
Qed.

Lemma save_then_load_witness :
  let d := mkDate 2024 1 15 in
  let w := {| is_authenticated := true; current_entry_date := Some d;
              search_query := []; entry_text := lit " Hello " |} in
  let db := {| journal_entries := []; sequence := 0 |} in
  JournalWidget.load_entry_for_date d
    (fst (save_entry w (combine_min d) db)) = lit "Hello".
Proof.
  intros d w db.
  apply (save_then_load w (combine_min d) db d eq_refl eq_refl).
  - discriminate.
  - cbn. lia.
  - intros r0 [].
Defined.

(** X21. A save on a date whose row is an encrypted entry with a
    non-empty blob writes the text into the content column and leaves
    the flag and the blob, so that [load_entry_for_date] shows after the
    save exactly what it showed before it, not the text saved. *)
Theorem save_over_encrypted_is_not_shown (w : widget) (now : datetime)
    (db : table) (d : date) (r0 : row) :
  is_authenticated w = true -> current_entry_date w = Some d ->
  strip (entry_text w) <> [] ->
  entries_on d db = [r0] ->
  row_is_encrypted r0 = true ->
  Encryption.truthy_opt (row_encrypted_content r0) = true ->
  (exists r, entries_on d (fst (save_entry w now db)) = [r] /\
             row_content r = strip (entry_text w) /\
             row_is_encrypted r = true /\
             row_encrypted_content r = row_encrypted_content r0) /\
  JournalWidget.load_entry_for_date d (fst (save_entry w now db))
    = JournalWidget.load_entry_for_date d db.
Proof.
  intros Hauth Hdate Htext Hon Henc Hblob.
  destruct (save_entry_row w now db d Hauth Hdate Htext) as [_ Hold].
  specialize (Hold r0 Hon). split.
  - eexists. split; [exact Hold |]. cbn. auto.
  - rewrite !load_is_lookup.
    rewrite (get_entry_for_date_one d _ _ Hold),
      (get_entry_for_date_one d db r0 Hon).
    unfold JournalWidget.entry_display. cbn. rewrite Henc, Hblob.
    destruct (row_encrypted_content r0); [reflexivity | discriminate].
Qed.

Lemma simple_encrypt_parts (text password : pystr) (enc salt : bytes) :
  Encryption.simple_encrypt text password = Ok (enc, salt) ->
  exists tb pb, Utf8.encode text = Ok tb /\ Utf8.encode password = Ok pb /\
                length enc = length tb.
Proof.
  intros H. apply reraise_ok in H.
  apply bind_ok in H as (pb & Hp & H).
  apply bind_ok in H as (tb & Ht & H).
  apply bind_ok in H as (out & Ho & [= <- _]).
  exists tb, pb. split_and!; auto.
  apply (xor_from_shape pb tb 0%nat out Ho).
Qed.

Lemma master_key_roundtrip (text : pystr) (data : bytes) :
  Encryption.encrypt_with_master_key text = Ok data ->
  Encryption.decrypt_with_master_key data = Ok text /\
  (text <> [] -> data <> []).
Proof.
  intros Henc. unfold Encryption.encrypt_with_master_key in Henc.
  apply reraise_ok in Henc. apply bind_ok in Henc as ([enc salt] & He & [= <-]).
  destruct (simple_encrypt_parts text Encryption.master_password enc salt He)
    as (tb & pb & Ht & Hp & Hlen).
  destruct master_password_bytes as (kb & Hkb & Hkne).
  rewrite Hkb in Hp. injection Hp as <-.
  destruct (simple_roundtrip_bytes text _ tb kb Ht Hkb Hkne)
    as (enc' & H1 & H2).
  rewrite He in H1. injection H1 as <- _. cbn [fst]. split.
  - unfold Encryption.decrypt_with_master_key. rewrite H2. reflexivity.
  - intros Hne Hnil. pose proof (encode_nonempty text tb Hne Ht) as Hb.
    rewrite Hnil in Hlen. destruct tb; [congruence | discriminate].
Qed.

(** X22. An entry flagged encrypted whose blob is what
    [encrypt_with_master_key] returns for a non-empty text is loaded into
    the editor as that text, whatever its content column holds. *)
Theorem load_decrypts_master_key_entries (db : table) (d : date) (r : row)
    (text : pystr) (data : bytes) :
  entries_on d db = [r] ->
  row_is_encrypted r = true ->
  row_encrypted_content r = Some data ->
  Encryption.encrypt_with_master_key text = Ok data ->
  text <> [] ->
  JournalWidget.load_entry_for_date d db = text.
Proof.
  intros Hon Hflag Hblob Henc Hne.
  destruct (master_key_roundtrip text data Henc) as [Hdec Hdata].
  rewrite load_is_lookup, (get_entry_for_date_one d db r Hon).
  unfold JournalWidget.entry_display. cbn. rewrite Hflag, Hblob. cbn.
  rewrite (proj2 (truthy_nonempty data) (Hdata Hne)).
  unfold Encryption.decrypt_journal_entry. rewrite Hdec. reflexivity.
Qed.

Lemma filter_filter_swap {A} (f : A -> bool) (P : A -> Prop)
    `{forall x, Decision (P x)} (l : list A) :
  List.filter f (filter P l) = filter P (List.filter f l).
Proof.
  induction l as [| a l IH]; [reflexivity |].
  rewrite filter_cons. cbn [List.filter].
  destruct (decide (P a)) as [Hp | Hp], (f a) eqn:Hf;
    cbn [List.filter]; rewrite ?Hf, ?filter_cons;
    repeat case_decide; first [tauto | rewrite IH; reflexivity].
Qed.

Lemma filter_all {A} (P : A -> Prop) `{forall x, Decision (P x)}
    (l : list A) :
  (forall x, In x l -> P x) -> filter P l = l.
Proof.
  induction l as [| a l IH]; intros Hall; [reflexivity |].
  rewrite filter_cons. destruct (decide (P a)) as [_ | Hn].
  - f_equal. apply IH. intros x Hx. apply Hall. right. exact Hx.
  - exfalso. apply Hn, Hall. left. reflexivity.
Qed.

Lemma same_id_same_row (l : list row) (r r' : row) :
  NoDup (map row_id l) -> In r l -> In r' l -> row_id r = row_id r' -> r = r'.
Proof.
  induction l as [| a l IH]; intros Hnd Hr Hr' Hid; [destruct Hr |].
  cbn in Hnd. apply NoDup_cons in Hnd as [Ha Hnd].
  rewrite list_elem_of_In in Ha.
  destruct Hr as [-> | Hr], Hr' as [-> | Hr']; auto.
  - exfalso. apply Ha. rewrite Hid. apply in_map, Hr'.
  - exfalso. apply Ha. rewrite <- Hid. apply in_map, Hr.
Qed.

(** X23. After [delete_entry] on the entry found for a date, confirmed
    in the dialog, of a table with unique ids and at most one row on that
    date, no entry is found for the date and the rows of every other date
    are the same as before; unconfirmed, it leaves the table as it
    was. *)
Theorem delete_then_lookup (db : table) (d : date) (e : JournalEntry) :
  ids_unique db -> (length (entries_on d db) <= 1)%nat ->
  get_entry_for_date d db = Some e -> id e <> Some 0 ->
  JournalWidget.delete_entry e false db = db /\
  get_entry_for_date d (JournalWidget.delete_entry e true db) = None /\
  JournalWidget.load_entry_for_date d (JournalWidget.delete_entry e true db)
    = [] /\
  forall d', d' <> d ->
    entries_on d' (JournalWidget.delete_entry e true db) = entries_on d' db.
Proof.
  intros Hu Hcount Hget Hid.
  destruct (entries_on d db) as [| r [| r' l]] eqn:Hon;
    [| | cbn in Hcount; lia].
  { rewrite (get_entry_for_date_none d db Hon) in Hget. discriminate. }
  rewrite (get_entry_for_date_one d db r Hon) in Hget.
  injection Hget as <-. cbn in Hid.
  assert (Hr : In r (journal_entries db) /\
               date_eqb (dt_date (row_created_at r)) d = true).
  { apply (proj1 (filter_In
                    (fun x => date_eqb (dt_date (row_created_at x)) d)
                    r (journal_entries db))).
    fold (entries_on d db). rewrite Hon. left. reflexivity. }
  assert (Hdel : JournalWidget.delete_entry (of_row r) true db =
                 {| journal_entries :=
                      filter (fun x => row_id x ≠ row_id r)
                             (journal_entries db);
                    sequence := sequence db |}).
  { unfold JournalWidget.delete_entry, delete. cbn.
    destruct (Z.eqb_spec (row_id r) 0); [congruence | reflexivity]. }
  assert (Hgone : entries_on d (JournalWidget.delete_entry (of_row r) true db)
                  = []).
  { rewrite Hdel. unfold entries_on. cbn. rewrite filter_filter_swap.
    fold (entries_on d db). rewrite Hon. rewrite filter_cons.
    destruct (decide (row_id r ≠ row_id r)); [congruence | reflexivity]. }
  split_and!.
  - reflexivity.
  - apply get_entry_for_date_none, Hgone.
  - rewrite load_is_lookup, (get_entry_for_date_none _ _ Hgone). reflexivity.
  - intros d' Hd'. rewrite Hdel. unfold entries_on. cbn.
    rewrite filter_filter_swap. apply filter_all.
    intros x Hx Hsame. apply filter_In in Hx as [Hx Hdate].
    destruct Hr as [Hr Hrd].
    pose proof (same_id_same_row _ x r Hu Hx Hr Hsame) as ->.
    apply date_eqb_eq in Hdate, Hrd. congruence.
Qed.

(** ** Opening the journal page *)

Section PromptFacts.

Variable sha256_hex : bytes -> string.

(** X24. [check_authentication_state] on a page that has not checked yet
    builds a manager, leaves the settings alone and shows the journal,
    authenticated, exactly when [has_password] is false (no hash, or the
    flag not at 'true'); otherwise it shows the prompt and the page stays
    unauthenticated. A second call changes nothing. *)
Theorem opening_the_page (s : JournalWidget.session)
    (settings : gmap string string) :
  JournalWidget.password_check_done s = false ->
  is_authenticated (JournalWidget.page s) = false ->
  let s1 := fst (JournalWidget.check_authentication_state s settings) in
  let protected :=
    negb (String.eqb (Settings.get_setting settings
                        "journal_password_hash" "") "")
    && String.eqb (Settings.get_setting settings
                     "journal_password_enabled" "false") "true" in
  snd (JournalWidget.check_authentication_state s settings) = settings /\
  JournalWidget.password_manager s1 = Some init /\
  is_authenticated (JournalWidget.page s1) = negb protected /\
  JournalWidget.front s1 =
    (if protected then JournalWidget.PasswordPrompt
     else JournalWidget.JournalContent) /\
  JournalWidget.check_authentication_state s1 settings = (s1, settings).
Proof.
  intros Hdone Hauth. cbv zeta.
  unfold JournalWidget.check_authentication_state. rewrite Hdone.
  unfold has_password, PasswordManager.bind, get_setting, ret. cbn.
  destruct (String.eqb (Settings.get_setting settings
                          "journal_password_hash" "") ""); cbn.
  - split_and!; reflexivity.
  - destruct (String.eqb (Settings.get_setting settings
                            "journal_password_enabled" "false") "true");
      cbn; split_and!; auto.
Qed.

Lemma verify_false_counts (t_lock t_fail : pyfloat) (p : pystr) (w w' : world) :
  0 <= failed_attempts (self w) ->
  verify_password sha256_hex t_lock t_fail p w = (Ok false, w') ->
  1 <= failed_attempts (self w').
Proof.
  intros Hfa. destruct w as [[fa lat dur] settings]. cbn in Hfa.
  run_guard. repeat case_match; simplify_eq; cbn in *;
    intros Hres; simplify_eq; cbn; split_bools; try lia; try discriminate;
    congruence.
Qed.

(** X25. The password prompt authenticates the page only when the
    manager's [verify_password] returns true for the text typed; a
    disabled or empty input consumes no attempt and changes nothing; a
    false answer or an exception leaves the page and the screen as they
    were. The attempts warning is set only by a false answer that leaves
    attempts: it then reads five minus the failures counted, a number
    from 1 to 4. In every other case it stays as it was, and once shown
    it is never hidden again: after the failure that locks the manager
    it still reads what the failure before left there. *)
Theorem prompt_outcomes (s : JournalWidget.session) (enabled : bool)
    (typed : pystr) (t_lock t_fail : pyfloat) (settings : gmap string string)
    (pm : PasswordManager.t) :
  JournalWidget.password_manager s = Some pm ->
  0 <= failed_attempts pm ->
  let r := JournalWidget.verify_password sha256_hex s enabled typed
             t_lock t_fail settings in
  let s' := fst (fst r) in
  let settings' := snd (fst r) in
  let shown := snd r in
  let answer := verify_password sha256_hex t_lock t_fail typed
                  {| self := pm; tbl := settings |} in
  let remaining := 5 - failed_attempts (self (snd answer)) in
  (enabled = false \/ typed = [] -> s' = s /\ settings' = settings) /\
  (enabled = true -> typed <> [] ->
   JournalWidget.password_manager s' = Some (self (snd answer)) /\
   settings' = tbl (snd answer) /\
   (fst answer = Ok true ->
      is_authenticated (JournalWidget.page s') = true /\
      JournalWidget.front s' = JournalWidget.JournalContent /\
      shown = None /\
      JournalWidget.attempts_warning s' = JournalWidget.attempts_warning s) /\
   (fst answer <> Ok true ->
      JournalWidget.page s' = JournalWidget.page s /\
      JournalWidget.front s' = JournalWidget.front s /\
      shown <> None) /\
   (fst answer = Ok false ->
      shown = Some JournalWidget.IncorrectPassword /\
      (0 < remaining ->
         1 <= remaining <= 4 /\
         JournalWidget.attempts_warning s' = Some remaining) /\
      (remaining <= 0 ->
         JournalWidget.attempts_warning s'
           = JournalWidget.attempts_warning s)) /\
   (forall e, fst answer = Raise e ->
      shown = Some JournalWidget.AuthenticationError /\
      JournalWidget.attempts_warning s'
        = JournalWidget.attempts_warning s)) /\
  (JournalWidget.attempts_warning s <> None ->
   JournalWidget.attempts_warning s' <> None) /\
  (forall n, JournalWidget.attempts_warning s' = Some n ->
     JournalWidget.attempts_warning s = Some n \/ 1 <= n <= 4).
Proof.
  intros Hpm Hfa. cbv zeta. unfold JournalWidget.verify_password.
  destruct enabled; cbn [negb].
  2: { cbn. split_and!; auto; discriminate. }
  destruct typed as [| c typed]; cbn [Encryption.truthy negb].
  { cbn. split_and!; auto; congruence. }
  rewrite Hpm.
  destruct (verify_password sha256_hex t_lock t_fail (c :: typed)
              {| self := pm; tbl := settings |}) as [[[|] | e] w'] eqn:Hv;
    cbn [fst snd].
  - cbn. split_and!; auto.
    + intros [? | ?]; discriminate.
    + intros _ _. split_and!; auto; try discriminate; congruence.
  - pose proof (verify_false_counts _ _ _ {| self := pm; tbl := settings |}
                  w' Hfa Hv) as Hone.
    cbn. destruct (Z.ltb_spec 0 (5 - failed_attempts (self w')))
      as [Hleft | Hnone].
    + split_and!; try discriminate.
      * intros [? | ?]; discriminate.
      * intros _ _. split_and!; auto; try discriminate;
          try (intros e He; discriminate He);
          try (intros _; split; [reflexivity |]; split; intros ?;
               first [ split; [lia | reflexivity]
                     | reflexivity
                     | exfalso; lia ]).
      * intros n [= <-]. right. lia.
    + split_and!; auto.
      * intros [? | ?]; discriminate.
      * intros _ _. split_and!; auto; try discriminate;
          try (intros e He; discriminate He);
          try (intros _; split; [reflexivity |]; split; intros ?;
               first [ split; [lia | reflexivity]
                     | reflexivity
                     | exfalso; lia ]).
  - cbn. split_and!; auto.
    + intros [? | ?]; discriminate.
    + intros _ _. split_and!; auto; try discriminate;
        try (intros _; split_and!; auto; discriminate);
        try (intros e' He; split; [reflexivity | reflexivity]).
Qed.

End PromptFacts.

(** ** Searching by date *)

Lemma strftime_ymd_nonempty (d : date) : strftime_ymd d <> [].
Proof.
  unfold strftime_ymd. destruct (digits (year d)); discriminate.
Qed.

(** X26. On an authenticated page, a query that strips to the
    ["%Y-%m-%d"] date of a row of the table brings that row's entry
    among the results, whatever [str.lower] does and whatever the entry
    contains. *)
Theorem search_by_date_finds_entry (lower : pystr -> pystr) (w : widget)
    (text : pystr) (db : table) (r : row) :
  is_authenticated w = true ->
  In r (journal_entries db) ->
  strip text = strftime_ymd (dt_date (row_created_at r)) ->
  exists shown,
    snd (filter_entries lower w text db) = Some shown /\
    In (of_row r) shown.
Proof.
  intros Hauth Hin Hq. unfold filter_entries, load_entries. cbn.
  rewrite Hauth. cbn [negb].
  assert (Ht : Encryption.truthy (strip text) = true).
  { apply truthy_nonempty. rewrite Hq. apply strftime_ymd_nonempty. }
  rewrite Ht. cbn [negb]. unfold filter_entries_by_search. rewrite Ht.
  cbn [negb]. eexists. split; [reflexivity |].
  apply filter_In. split.
  - apply (Permutation_in _ (Permutation_sym (get_all_Permutation db))).
    apply in_map, Hin.
  - unfold matches. apply orb_true_iff. left. apply contains_spec.
    exists [], []. rewrite Hq, app_nil_r. reflexivity.
Qed.

(** ** Worked instances *)

Lemma guard_stays_in_range_witness :
  0 <= failed_attempts
         (self (exec checksum_hex (VerifyPassword (reading 1) (reading 2)
                                       (lit "wrong"))
                  {| self := init; tbl := example_settings |})) <= 5.
Proof.
  refine (proj1 (guard_stays_in_range checksum_hex _ (reading 3)
                   (reading 4) _)).
  apply reach_call, reach_init.
Defined.

Lemma set_then_verify_witness :
  fst (set_password checksum_hex (lit "abc123")
         {| self := init; tbl := ∅ |}) = Ok true.
Proof.
  exact (proj1 (set_then_verify checksum_hex {| self := init; tbl := ∅ |}
                  (lit "abc123") "444" (reading 1) (reading 2)
                  eq_refl ltac:(discriminate))).
Defined.

Lemma unencodable_password_witness :
  set_password checksum_hex [55296] {| self := init; tbl := ∅ |}
    = (Ok false, {| self := init; tbl := ∅ |}).
Proof.
  exact (proj1 (unencodable_password checksum_hex
                  {| self := init; tbl := ∅ |} [55296] UnicodeEncodeError
                  (reading 1) (reading 2) eq_refl)).
Defined.

Lemma success_resets_streak_witness :
  let before := repeat (reading 1, reading 2, lit "wrong") 4 in
  let after := repeat (reading 5, reading 6, lit "wrong") 4 in
  exists w',
    verify_each checksum_hex
      (before ++ (reading 3, reading 4, lit "abc123") :: after)
      {| self := init; tbl := example_settings |}
    = (Ok (map (fun _ => false) before ++
           true :: map (fun _ => false) after), w')
    /\ is_locked (reading 7) w' = (Ok false, w').
Proof.
  intros before after.
  assert (Hwrong : wrong checksum_hex "444" (lit "wrong")).
  { exists "557". split; [vm_compute; reflexivity | discriminate]. }
  destruct (success_resets_streak checksum_hex
              {| self := init; tbl := example_settings |} "444"
              before after (reading 3) (reading 4) (lit "abc123")
              eq_refl ltac:(discriminate) ltac:(cbn; lia) ltac:(cbn; lia)
              ltac:(repeat constructor; exact Hwrong)
              ltac:(repeat constructor; exact Hwrong) eq_refl)
    as (w' & Hrun & _ & Hfree).
  exists w'. split; [exact Hrun | apply Hfree].
Defined.

Lemma change_password_outcomes_witness :
  fst (change_password checksum_hex (reading 1) (reading 2)
         (lit "abc123") (lit "s3cret!")
         {| self := init; tbl := example_settings |}) = Ok true.
Proof.
  destruct (change_password_outcomes checksum_hex
              {| self := init; tbl := example_settings |} "444"
              (reading 1) (reading 2) (lit "abc123") (lit "s3cret!")
              ltac:(cbn; lia) eq_refl ltac:(discriminate)) as [_ Hright].
  destruct (Hright eq_refl) as [Hnew _].
  exact (proj1 (Hnew _ eq_refl)).
Defined.

Lemma remove_password_outcomes_witness :
  fst (remove_password checksum_hex (reading 1) (reading 2) (lit "abc123")
         {| self := init; tbl := example_settings |}) = Ok true.
Proof.
  destruct (remove_password_outcomes checksum_hex
              {| self := init; tbl := example_settings |} "444"
              (reading 1) (reading 2) (lit "abc123")
              ltac:(cbn; lia) eq_refl ltac:(discriminate)) as [Hright _].
  exact (proj1 (Hright eq_refl)).
Defined.

Lemma lockout_countdown_witness :
  let on_the_second :=
    {| negative := false; whole := 1011; tenths := d0;
       rest := Decimal.Nil |} in
  get_lockout_remaining (reading 1010) on_the_second locked_example
    = (Ok 49, locked_example).
Proof.
  intros on_the_second.
  exact (proj1 (lockout_countdown locked_example (reading 1000)
                  (reading 1010) on_the_second
                  ltac:(cbn; lia) eq_refl eq_refl
                  ltac:(vm_compute; reflexivity))).
Defined.

Lemma forms_refuse_while_locked_witness :
  ProfileWidget.remove_password checksum_hex (reading 1010) (reading 1010)
    (lit "abc123") locked_example
  = (Ok ProfileWidget.CurrentPasswordIncorrect, locked_example).
Proof.
  assert (Hlocked : is_locked (reading 1010) locked_example
                    = (Ok true, locked_example))
    by (vm_compute; reflexivity).
  destruct (forms_refuse_while_locked checksum_hex locked_example
              (reading 1010) (reading 1010) (lit "abc123") (lit "s3cret!")
              Hlocked)
    as (_ & _ & Hfilled).
  exact (proj2 (Hfilled ltac:(discriminate) ltac:(discriminate)
                  ltac:(cbn; lia) ltac:(discriminate))).
Defined.

Lemma ids_never_reused_witness :
  let db := Models.apply
              (Models.Delete
                 {| id := Some 1; title := []; content := [];
                    encrypted_content := None; is_encrypted := false;
                    mood_rating := 3;
                    created_at := combine_min (mkDate 2024 1 15);
                    updated_at := combine_min (mkDate 2024 1 15) |})
              (Models.apply
                 (Models.Create (lit "Monday") (lit "Hello") None false
                    (combine_min (mkDate 2024 1 15)))
                 {| journal_entries := []; sequence := 0 |}) in
  journal_entries db = [] /\
  fst (Models.create (lit "Tuesday") (lit "Again") None false
         (combine_min (mkDate 2024 1 16)) db) = 2.
Proof.
  intros db. split; [reflexivity |].
  assert (Hb : Models.built db)
    by (apply Models.built_write, Models.built_write, Models.built_empty).
  destruct (ids_never_reused db Hb) as (_ & _ & _ & Hnew).
  exact (proj1 (Hnew (lit "Tuesday") (lit "Again") None false
                     (combine_min (mkDate 2024 1 16)))).
Defined.

Lemma content_is_never_encrypted_witness :
  let db := Models.apply
              (Models.Create (lit "Monday") (lit "Hello") None true
                 (combine_min (mkDate 2024 1 15)))
              {| journal_entries := []; sequence := 0 |} in
  exists r, journal_entries db = [r] /\ row_is_encrypted r = true /\
            JournalWidget.entry_display (of_row r) = lit "Hello".
Proof.
  intros db. eexists. split; [reflexivity |]. split; [reflexivity |].
  refine (proj1 (proj2 (content_is_never_encrypted db _ _ _))).
  - apply Models.built_write, Models.built_empty.
  - left. reflexivity.
Defined.

Lemma save_over_encrypted_is_not_shown_witness :
  let d := mkDate 2024 1 15 in
  let r0 := {| row_id := 1; row_title := lit "Monday";
               row_content := lit "old";
               row_encrypted_content := Some [44; 12];
               row_is_encrypted := true; row_mood_rating := None;
               row_created_at := combine_min d;
               row_updated_at := combine_min d |} in
  let db := {| journal_entries := [r0]; sequence := 1 |} in
  let w := {| is_authenticated := true; current_entry_date := Some d;
              search_query := []; entry_text := lit "Hello" |} in
  JournalWidget.load_entry_for_date d (fst (save_entry w (combine_min d) db))
    = JournalWidget.load_entry_for_date d db.
Proof.
  intros d r0 db w.
  exact (proj2 (save_over_encrypted_is_not_shown w (combine_min d) db d r0
                  eq_refl eq_refl ltac:(discriminate) eq_refl eq_refl
                  eq_refl)).
Defined.

Lemma load_decrypts_master_key_entries_witness :
  let d := mkDate 2024 1 15 in
  let r := {| row_id := 1; row_title := lit "Monday";
              row_content := lit "old";
              row_encrypted_content := Some [44; 12];
              row_is_encrypted := true; row_mood_rating := None;
              row_created_at := combine_min d;
              row_updated_at := combine_min d |} in
  JournalWidget.load_entry_for_date d
    {| journal_entries := [r]; sequence := 1 |} = lit "Hi".
Proof.
  intros d r.
  apply (load_decrypts_master_key_entries
           {| journal_entries := [r]; sequence := 1 |} d r (lit "Hi")
           [44; 12] eq_refl eq_refl eq_refl eq_refl).
  discriminate.
Defined.

Lemma delete_then_lookup_witness :
  let d := mkDate 2024 1 15 in
  let r := {| row_id := 1; row_title := lit "Monday";
              row_content := lit "Hello"; row_encrypted_content := None;
              row_is_encrypted := false; row_mood_rating := None;
              row_created_at := combine_min d;
              row_updated_at := combine_min d |} in
  let db := {| journal_entries := [r]; sequence := 1 |} in
  get_entry_for_date d (JournalWidget.delete_entry (of_row r) true db) = None.
Proof.
  intros d r db.
  refine (proj1 (proj2 (delete_then_lookup db d (of_row r) _ _ eq_refl _))).
  - apply NoDup_singleton.
  - cbn. lia.
  - discriminate.
Defined.

Lemma opening_the_page_witness :
  JournalWidget.front
    (fst (JournalWidget.check_authentication_state JournalWidget.fresh
            example_settings)) = JournalWidget.PasswordPrompt.
Proof.
  destruct (opening_the_page JournalWidget.fresh example_settings
              eq_refl eq_refl) as (_ & _ & _ & Hfront & _).
  exact Hfront.
Defined.

Lemma prompt_outcomes_witness :
  let s := {| JournalWidget.password_manager :=
                Some {| failed_attempts := 4;
                        last_attempt_time := reading 990;
                        lockout_duration := 60 |};
              JournalWidget.password_check_done := true;
              JournalWidget.page := JournalWidget.page JournalWidget.fresh;
              JournalWidget.front := JournalWidget.PasswordPrompt;
              JournalWidget.attempts_warning := Some 1 |} in
  let r := JournalWidget.verify_password checksum_hex s true (lit "wrong")
             (reading 1000) (reading 1000) example_settings in
  snd r = Some JournalWidget.IncorrectPassword /\
  JournalWidget.password_manager (fst (fst r)) = Some (self locked_example) /\
  JournalWidget.attempts_warning (fst (fst r)) = Some 1.
Proof.
  intros s r.
  destruct (prompt_outcomes checksum_hex s true (lit "wrong")
              (reading 1000) (reading 1000) example_settings
              {| failed_attempts := 4; last_attempt_time := reading 990;
                 lockout_duration := 60 |}
              eq_refl ltac:(cbn; lia))
    as (_ & Htyped & _).
  destruct (Htyped eq_refl ltac:(discriminate))
    as (Hpm & _ & _ & _ & Hfalse & _).
  destruct Hfalse as (Hshown & _ & Hkept); [vm_compute; reflexivity |].
  split_and!.
  - exact Hshown.
  - exact Hpm.
  - apply Hkept. vm_compute. discriminate.
Defined.

Lemma search_by_date_finds_entry_witness :
  let r := {| row_id := 1; row_title := lit "Monday";
              row_content := lit "Hello"; row_encrypted_content := None;
              row_is_encrypted := false; row_mood_rating := None;
              row_created_at := combine_min (mkDate 2024 1 15);
              row_updated_at := combine_min (mkDate 2024 1 15) |} in
  let db := {| journal_entries := [r]; sequence := 1 |} in
  let w := {| is_authenticated := true; current_entry_date := None;
              search_query := []; entry_text := [] |} in
  exists shown,
    snd (filter_entries ascii_lower w (lit " 2024-01-15 ") db) = Some shown /\
    In (of_row r) shown.
Proof.
  intros r db w.
  apply (search_by_date_finds_entry ascii_lower w (lit " 2024-01-15 ") db r
           eq_refl).
  - left. reflexivity.
  - reflexivity.
Defined.

